(** * ktool / kmacho: the [Struct] codec of [structs.py]

    A shallow embedding of [src/kmacho/structs.py]: the type tags, the
    [Struct] engine ([create_with_bytes], [create_with_values],
    [__getattribute__] on [raw], [_rebuild_raw], [serialize]),
    [BitFieldStruct.pre_init] and the concrete record classes, followed by
    the properties of the codec.  The definitions come first, the lemmas
    and theorems after them.

    Python objects are modelled as follows.
    - [int] is [Z]; [bytes] and [bytearray] are [list byte];
      [str] is the list of its Unicode code points ([list Z]).
    - An exception is a value of [exception]; a call that may raise
      returns a [result].
    - A [Struct] subclass is a [struct_class]: its [_FIELDNAMES], [_SIZES],
      [SIZE], the attributes its [__init__] sets, and, for a
      [BitFieldStruct] subclass, [_BITFIELDS] and [_BF_SIZES].
    - An instance keeps the engine's own attributes ([_fields],
      [_field_sizes], [byte_order], [initialized]) in record fields and every
      other attribute in a dictionary [attrs]; [_field_sizes] and [attrs]
      are dictionaries keyed by name, as in the source.
    - The recursion of [create_with_bytes] into nested classes is bounded by
      a depth, which [create_with_bytes] takes from the class.
    - The engine reads its own attributes on the instance; the model reads
      them from the class and from the record fields.  The two agree as
      long as no field, bit field, default or assigned attribute has a name
      of [reserved_names]; the properties are stated for such classes
      ([well_formed]) and instances ([intact]), and for sizes that a tag
      holds ([max_tag]), well below the lengths that CPython refuses. *)

From Stdlib Require Import ZArith Lia Init.Byte.
From stdpp Require Import base gmap strings list fin_maps.

Local Open Scope Z_scope.
Set Warnings "-register-all".

(** ** Exceptions and the error monad *)

Inductive exception :=
| OverflowError
| AssertionError
| UnicodeDecodeError
| UnicodeEncodeError
| IndexError
| KeyError
| AttributeError
| ValueError
| TypeError
| RecursionError.

Inductive result (A : Type) :=
| Ok (a : A)
| Err (e : exception).
Arguments Ok {A} a.
Arguments Err {A} e.

#[global] Instance result_ret : MRet result := fun A a => Ok a.
#[global] Instance result_bind : MBind result := fun A B k r =>
  match r with
  | Ok a => k a
  | Err e => Err e
  end.

Definition is_ok {A} (r : result A) : bool :=
  match r with Ok _ => true | Err _ => false end.

(** ** Bytes *)

Definition byte_val (b : byte) : Z := Z.of_N (Byte.to_N b).

Definition byte_of (z : Z) : byte :=
  match Byte.of_N (Z.to_N z) with
  | Some b => b
  | None => x00
  end.

(** Python's [seq[a:b]] for a non-negative [a] or a missing one (0) and any
    [b]: a negative bound counts from the end, and both are clamped. *)
Definition py_clamp (i len : Z) : Z :=
  if i <? 0 then Z.max (i + len) 0 else Z.min i len.

Definition py_slice {A} (l : list A) (a b : Z) : list A :=
  let len := Z.of_nat (length l) in
  let a' := py_clamp a len in
  let b' := py_clamp b len in
  take (Z.to_nat (b' - a')) (drop (Z.to_nat a') l).

(** ** [int.from_bytes] and [int.to_bytes] *)

Inductive byte_order := Little | Big.

Fixpoint from_bytes_le (data : list byte) : Z :=
  match data with
  | [] => 0
  | b :: t => byte_val b + 256 * from_bytes_le t
  end.

(** [int.from_bytes(data, byte_order)] (unsigned). *)
Definition int_from_bytes (data : list byte) (bo : byte_order) : Z :=
  match bo with
  | Little => from_bytes_le data
  | Big => from_bytes_le (reverse data)
  end.

Fixpoint to_bytes_le (n : nat) (v : Z) : list byte :=
  match n with
  | O => []
  | S n' => byte_of (v mod 256) :: to_bytes_le n' (v / 256)
  end.

(** [v.bit_length()] of a non-negative [v]. *)
Definition bit_length (v : Z) : Z :=
  if v =? 0 then 0 else Z.log2 v + 1.

(** The largest value of a C [ssize_t], which bounds the lengths that
    CPython takes. *)
Definition ssize_t_max : Z := 9223372036854775807.

(** [v.to_bytes(size, byteorder=bo)] with the default [signed=False]: a
    [size] that no [ssize_t] holds is refused first, then a negative one,
    then a negative [v] and a [v] of more than [size * 8] bits.  (That the
    machine has the memory for [size] bytes is taken for granted; the
    properties below are stated for sizes up to [max_tag].) *)
Definition int_to_bytes (v size : Z) (bo : byte_order) : result (list byte) :=
  if (size <? - ssize_t_max - 1) || (ssize_t_max <? size) then Err OverflowError
  else if size <? 0 then Err ValueError
  else if v <? 0 then Err OverflowError
  else if size * 8 <? bit_length v then Err OverflowError
  else
    let le := to_bytes_le (Z.to_nat size) v in
    Ok (match bo with Little => le | Big => reverse le end).

(** ** UTF-8 ([bytes.decode('utf-8')] and [str.encode('utf-8')], strict) *)

Definition is_cont (b : byte) : bool :=
  (128 <=? byte_val b) && (byte_val b <=? 191).

Definition in_range (lo hi : Z) (b : byte) : bool :=
  (lo <=? byte_val b) && (byte_val b <=? hi).

(** The second byte of a three- or four-byte sequence is restricted by the
    lead byte, which excludes overlong forms, surrogates and code points
    above U+10FFFF. *)
Definition second_lo (lead : Z) : Z :=
  if lead =? 224 then 160 else if lead =? 240 then 144 else 128.

Definition second_hi (lead : Z) : Z :=
  if lead =? 237 then 159 else if lead =? 244 then 143 else 191.

Fixpoint utf8_decode (bs : list byte) : option (list Z) :=
  match bs with
  | [] => Some []
  | b0 :: t =>
    let x := byte_val b0 in
    if x <? 128 then cons x <$> utf8_decode t
    else if (194 <=? x) && (x <=? 223) then
      match t with
      | b1 :: t1 =>
        if is_cont b1
        then cons ((x - 192) * 64 + (byte_val b1 - 128)) <$> utf8_decode t1
        else None
      | _ => None
      end
    else if (224 <=? x) && (x <=? 239) then
      match t with
      | b1 :: b2 :: t2 =>
        if in_range (second_lo x) (second_hi x) b1 && is_cont b2
        then cons ((x - 224) * 4096 + (byte_val b1 - 128) * 64
                   + (byte_val b2 - 128)) <$> utf8_decode t2
        else None
      | _ => None
      end
    else if (240 <=? x) && (x <=? 244) then
      match t with
      | b1 :: b2 :: b3 :: t3 =>
        if in_range (second_lo x) (second_hi x) b1 && is_cont b2 && is_cont b3
        then cons ((x - 240) * 262144 + (byte_val b1 - 128) * 4096
                   + (byte_val b2 - 128) * 64 + (byte_val b3 - 128))
               <$> utf8_decode t3
        else None
      | _ => None
      end
    else None
  end.

Definition utf8_encode_char (c : Z) : option (list byte) :=
  if c <? 0 then None
  else if c <? 128 then Some [byte_of c]
  else if c <? 2048 then Some [byte_of (192 + c / 64); byte_of (128 + c mod 64)]
  else if (55296 <=? c) && (c <? 57344) then None
  else if c <? 65536 then
    Some [byte_of (224 + c / 4096); byte_of (128 + (c / 64) mod 64);
          byte_of (128 + c mod 64)]
  else if c <? 1114112 then
    Some [byte_of (240 + c / 262144); byte_of (128 + (c / 4096) mod 64);
          byte_of (128 + (c / 64) mod 64); byte_of (128 + c mod 64)]
  else None.

Fixpoint utf8_encode (s : list Z) : option (list byte) :=
  match s with
  | [] => Some []
  | c :: t =>
    match utf8_encode_char c, utf8_encode t with
    | Some bs, Some r => Some (bs ++ r)
    | _, _ => None
    end
  end.

(** [s.replace('\x00', '')] *)
Definition strip_nul (s : list Z) : list Z := filter (fun c => c ≠ 0) s.

(** ** Type tags *)

Definition type_mask : Z := 0xffff0000.
Definition size_mask : Z := 0xffff.

Definition type_uint : Z := 0.
Definition type_sint : Z := 0x10000.
Definition type_str : Z := 0x20000.
Definition type_bytes : Z := 0x30000.

Definition uint8_t : Z := 1.
Definition uint16_t : Z := 2.
Definition uint32_t : Z := 4.
Definition uint64_t : Z := 8.

Definition int8_t : Z := Z.lor type_sint 1.
Definition int16_t : Z := Z.lor type_sint 2.
Definition int32_t : Z := Z.lor type_sint 4.
Definition int64_t : Z := Z.lor type_sint 8.

(** [char_t = [type_str | i for i in range(17)]]; [char_t i] is [char_t[i]]. *)
Definition char_t_list : list Z := (fun i => Z.lor type_str i) <$> seqZ 0 17.
Definition char_t (i : nat) : Z := nth i char_t_list 0.

(** ** Classes and instances *)

(** An entry of [_SIZES]: an [int] tag or a [Struct] subclass. *)
Inductive field_size (C : Type) :=
| SizeInt (value : Z)
| SizeCls (value : C).
Arguments SizeInt {C} value.
Arguments SizeCls {C} value.

(** [Struct] itself defines no bit fields; a [BitFieldStruct] subclass
    declares [_BITFIELDS] and [_BF_SIZES]. *)
Inductive class_kind :=
| PlainStruct
| BitFieldStruct (_BITFIELDS : list string) (_BF_SIZES : list Z).

Inductive struct_class := StructClass {
  __name__ : string;
  kind : class_kind;
  _FIELDNAMES : list string;
  _SIZES : list (field_size struct_class);
  SIZE : Z;
  (** the attributes the subclass's [__init__] sets after [super().__init__],
      all of them to an [int] in this module *)
  init_attrs : list (string * Z)
}.

(** An instance, over the type [V] of the values of its attributes. *)
Record instance (V : Type) := Instance {
  cls : struct_class;
  _fields : list string;
  _field_sizes : gmap string (field_size struct_class);
  byte_order_of : byte_order;
  initialized : bool;
  attrs : gmap string V
}.
Arguments Instance {V}.
Arguments cls {V}.
Arguments _fields {V}.
Arguments _field_sizes {V}.
Arguments byte_order_of {V}.
Arguments initialized {V}.
Arguments attrs {V}.

Inductive py_value :=
| VNone
| VInt (n : Z)
| VStr (s : list Z)
| VBytes (b : list byte)
| VStruct (s : instance py_value).

Abbreviation Struct := (instance py_value).

(** The names that the engine keeps for itself on an instance: the
    attributes that [Struct.__init__] and the constructors set, those that
    the engine reads or calls on [self] ([self.SIZE], [self._BF_SIZES],
    [self.super], [self.__getattribute__(field)], [instance.__setattr__],
    ...), where an attribute of the instance would take the place of the
    one of the class, and those that Python refuses to set ([__class__],
    [__dict__], [__weakref__]).  The model keeps the engine's attributes
    apart from the others and reads the class where the source reads
    [self]; it is exact for the classes and the instances whose own
    attributes avoid these names ([well_formed] and [intact] below), and
    every property of the engine is stated for those. *)
Definition reserved_names : list string :=
  ["_fields"; "_field_sizes"; "byte_order"; "initialized"; "no_patch";
   "super"; "off"; "raw"; "SIZE"; "_BITFIELDS"; "_BF_SIZES"; "pre_init";
   "post_init"; "_rebuild_raw"; "__getattribute__"; "__setattr__";
   "__class__"; "__dict__"; "__weakref__"]%string.

(** [setattr(self, name, v)], [self.__setattr__(name, v)] and
    [self.super.__setattr__(name, v)], for a [name] outside
    [reserved_names]. *)
Definition setattr (self : Struct) (name : string) (v : py_value) : Struct :=
  {| cls := cls self; _fields := _fields self;
     _field_sizes := _field_sizes self; byte_order_of := byte_order_of self;
     initialized := initialized self; attrs := <[name := v]> (attrs self) |}.

Definition set_initialized (self : Struct) (b : bool) : Struct :=
  {| cls := cls self; _fields := _fields self;
     _field_sizes := _field_sizes self; byte_order_of := byte_order_of self;
     initialized := b; attrs := attrs self |}.

(** The loop of [Struct.__init__]:
    [for index, i in enumerate(fields): self._field_sizes[i] = sizes[index]]. *)
Fixpoint build_field_sizes (fields : list string)
    (sizes : list (field_size struct_class)) (index : nat)
    (d : gmap string (field_size struct_class))
  : result (gmap string (field_size struct_class)) :=
  match fields with
  | [] => Ok d
  | i :: rest =>
    match sizes !! index with
    | Some sz => build_field_sizes rest sizes (S index) (<[i := sz]> d)
    | None => Err IndexError
    end
  end.

(** [struct_class(byte_order)]: the subclass's [__init__], which calls
    [Struct.__init__] and then sets its own defaults. *)
Definition new_instance (struct_class : struct_class) (byte_order : byte_order)
  : result Struct :=
  d ← build_field_sizes (_FIELDNAMES struct_class) (_SIZES struct_class) 0 ∅;
  Ok (foldl (fun self '(n, z) => setattr self n (VInt z))
        {| cls := struct_class; _fields := _FIELDNAMES struct_class;
           _field_sizes := d; byte_order_of := byte_order;
           initialized := false; attrs := ∅ |}
        (init_attrs struct_class)).

(** ** Decoding *)

(** [_uint_to_int(uint, bits)]; [1 << (bits - 1)] raises for a negative
    shift count. *)
Definition _uint_to_int (uint bits : Z) : result Z :=
  if bits - 1 <? 0 then Err ValueError
  else if negb (Z.land uint (Z.shiftl 1 (bits - 1)) =? 0)
       then Ok (uint - Z.shiftl 1 bits)
       else Ok uint.

(** The [isinstance(value, int)] branch of the loop of [create_with_bytes]:
    the field value read from the slice [data]. *)
Definition decode_int_field (value : Z) (data : list byte)
    (byte_order : byte_order) : result py_value :=
  let field_type := Z.land type_mask value in
  let size := Z.land size_mask value in
  if field_type =? type_str then
    match utf8_decode data with
    | Some s => Ok (VStr (strip_nul s))
    | None => Err UnicodeDecodeError
    end
  else if field_type =? type_bytes then Ok (VBytes data)
  else if field_type =? type_uint then Ok (VInt (int_from_bytes data byte_order))
  else if field_type =? type_sint then
    field_value ← _uint_to_int (int_from_bytes data byte_order) (size * 8);
    Ok (VInt field_value)
  else Ok VNone.

(** One turn of the loop of [create_with_bytes] on the state
    [(instance, inst_raw, current_off)]; [nested] is the recursive call
    [Struct.create_with_bytes(value, data)]. *)
Definition decode_field (nested : struct_class -> list byte -> result Struct)
    (raw : list byte) (byte_order : byte_order)
    (st : Struct * list byte * Z) (field : string)
  : result (Struct * list byte * Z) :=
  let '(instance, inst_raw, current_off) := st in
  match _field_sizes instance !! field with
  | None => Err KeyError
  | Some (SizeInt value) =>
    let size := Z.land size_mask value in
    let data := py_slice raw current_off (current_off + size) in
    field_value ← decode_int_field value data byte_order;
    Ok (setattr instance field field_value, inst_raw ++ data, current_off + size)
  | Some (SizeCls value) =>
    let size := SIZE value in
    let data := py_slice raw current_off (current_off + size) in
    field_value ← nested value data;
    Ok (setattr instance field (VStruct field_value), inst_raw ++ data,
        current_off + size)
  end.

Fixpoint decode_fields (nested : struct_class -> list byte -> result Struct)
    (raw : list byte) (byte_order : byte_order) (fields : list string)
    (st : Struct * list byte * Z) : result (Struct * list byte * Z) :=
  match fields with
  | [] => Ok st
  | field :: rest =>
    st' ← decode_field nested raw byte_order st field;
    decode_fields nested raw byte_order rest st'
  end.

(** ** Bit fields *)

(** [int('1' * bf_size, 2)]: the string is empty for [bf_size <= 0], and
    [int('', 2)] raises; a [bf_size] that no [ssize_t] holds cannot repeat a
    string. *)
Definition int_of_ones (bf_size : Z) : result Z :=
  if bf_size <=? 0 then Err ValueError
  else if ssize_t_max <? bf_size then Err OverflowError
  else Ok (Nat.iter (Z.to_nat bf_size) (fun acc => 2 * acc + 1) 0).

(** The loop of [BitFieldStruct.pre_init].  [self._BF_SIZES[i]] and
    [self.super] are read at every turn; they are those of the class as
    long as no sub-field has a name of [reserved_names]. *)
Fixpoint bitfield_loop (self : Struct) (value : py_value) (_BF_SIZES : list Z)
    (i : nat) (names : list string) (cur : Z) : result Struct :=
  match names with
  | [] => Ok self
  | bf_name :: rest =>
    match _BF_SIZES !! i with
    | None => Err IndexError
    | Some bf_size =>
      mask ← int_of_ones bf_size;
      match value with
      | VInt v =>
        bitfield_loop (setattr self bf_name (VInt (Z.land (Z.shiftr v cur) mask)))
          value _BF_SIZES (S i) rest (cur + bf_size)
      | _ => Err TypeError
      end
    end
  end.

(** [pre_init]: a stub in [Struct], overridden in [BitFieldStruct], where
    [self._BF_SIZES], [self.SIZE] and [self._BITFIELDS] are those of the
    class for an instance without an attribute of these names. *)
Definition pre_init (self : Struct) : result Struct :=
  match kind (cls self) with
  | PlainStruct => Ok self
  | BitFieldStruct _BITFIELDS _BF_SIZES =>
    if negb (foldr Z.add 0 _BF_SIZES =? SIZE (cls self) * 8)
    then Err AssertionError
    else
      match attrs self !! "value"%string with
      | None => Err AttributeError
      | Some value => bitfield_loop self value _BF_SIZES 0 _BITFIELDS 0
      end
  end.

(** [post_init]: a stub. *)
Definition post_init (self : Struct) : result Struct := Ok self.

(** The lifecycle that ends both constructors. *)
Definition materialize (instance : Struct) : result Struct :=
  instance ← pre_init instance;
  post_init (set_initialized instance true).

(** ** [Struct.create_with_bytes] *)

(** [depth] bounds the nesting of the recursive calls (Python's own
    recursion limit); [create_with_bytes] below gives a class the depth its
    [_SIZES] need. *)
Fixpoint create_with_bytes_rec (depth : nat) (struct_class : struct_class)
    (raw : list byte) (byte_order : byte_order) : result Struct :=
  match depth with
  | O => Err RecursionError
  | S depth' =>
    instance ← new_instance struct_class byte_order;
    let raw := py_slice raw 0 (SIZE struct_class) in
    '(instance, inst_raw, _) ←
      decode_fields (fun value data => create_with_bytes_rec depth' value data Little)
        raw byte_order (_fields instance) (instance, [], 0);
    materialize (setattr instance "raw" (VBytes inst_raw))
  end.

Fixpoint class_depth (c : struct_class) : nat :=
  foldr (fun sz acc =>
           match sz with
           | SizeInt _ => acc
           | SizeCls c' => Nat.max (S (class_depth c')) acc
           end) O (_SIZES c).

Definition create_with_bytes (struct_class : struct_class) (raw : list byte)
    (byte_order : byte_order) : result Struct :=
  create_with_bytes_rec (S (class_depth struct_class)) struct_class raw byte_order.

(** ** [Struct._rebuild_raw] and [__getattribute__] *)

(** The bytes of one field in [_rebuild_raw].  [self.__getattribute__(field)]
    is the value of the attribute for an instance that has no attribute
    named [__getattribute__] and a [field] other than [raw]; a field
    without a value is an [AttributeError] unless the class has an attribute
    of the name. *)
Definition rebuild_field (self : Struct) (field : string) : result (list byte) :=
  match _field_sizes self !! field with
  | None => Err KeyError
  | Some size =>
    match attrs self !! field with
    | None => Err AttributeError
    | Some (VInt field_dat) =>
      match size with
      | SizeInt size => int_to_bytes field_dat size (byte_order_of self)
      | SizeCls _ => Err TypeError
      end
    | Some (VBytes field_dat) => Ok field_dat
    | Some (VStr field_dat) =>
      match utf8_encode field_dat with
      | Some data => Ok data
      | None => Err UnicodeEncodeError
      end
    | Some _ => Err AssertionError
    end
  end.

Fixpoint rebuild_fields (self : Struct) (fields : list string) (raw : list byte)
  : result (list byte) :=
  match fields with
  | [] => Ok raw
  | field :: rest =>
    data ← rebuild_field self field;
    rebuild_fields self rest (raw ++ data)
  end.

Definition _rebuild_raw (self : Struct) : result (list byte) :=
  rebuild_fields self (_fields self) [].

(** [self.raw], which [__getattribute__] answers by [_rebuild_raw]. *)
Definition raw (self : Struct) : result (list byte) := _rebuild_raw self.

(** ** [Struct.create_with_values] *)

(** The loop [instance.__setattr__(field, values[i])], for fields outside
    [reserved_names]. *)
Fixpoint set_values (instance : Struct) (fields : list string)
    (values : list py_value) (i : nat) : result Struct :=
  match fields with
  | [] => Ok instance
  | field :: rest =>
    match values !! i with
    | None => Err IndexError
    | Some v => set_values (setattr instance field v) rest values (S i)
    end
  end.

Definition create_with_values (struct_class : struct_class)
    (values : list py_value) (byte_order : byte_order) : result Struct :=
  instance ← new_instance struct_class byte_order;
  instance ← set_values instance (_fields instance) values 0;
  _ ← _rebuild_raw instance;
  materialize instance.

(** ** Record classes of the module *)

Definition plain_class (name : string) (fields : list string) (sizes : list Z)
    (size : Z) (init : list string) : struct_class :=
  {| __name__ := name; kind := PlainStruct; _FIELDNAMES := fields;
     _SIZES := SizeInt <$> sizes; SIZE := size;
     init_attrs := (fun n => (n, 0)) <$> init |}.

Definition fat_header : struct_class :=
  plain_class "fat_header" ["magic"; "nfat_archs"]%string
    [uint32_t; uint32_t] 8 [].

Definition fat_arch : struct_class :=
  let names := ["cpu_type"; "cpu_subtype"; "offset"; "size"; "align"]%string in
  plain_class "fat_arch" names
    [uint32_t; uint32_t; uint32_t; uint32_t; uint32_t] 20 names.

Definition segment_command : struct_class :=
  let names := ["cmd"; "cmdsize"; "segname"; "vmaddr"; "vmsize"; "fileoff";
                "filesize"; "maxprot"; "initprot"; "nsects"; "flags"]%string in
  plain_class "segment_command" names
    [uint32_t; uint32_t; char_t 16; uint32_t; uint32_t; uint32_t; uint32_t;
     uint32_t; uint32_t; uint32_t; uint32_t] 56 names.

Definition uuid_command : struct_class :=
  let names := ["cmd"; "cmdsize"; "uuid"]%string in
  plain_class "uuid_command" names [uint32_t; uint32_t; Z.lor type_bytes 16]
    24 names.

Definition symtab_entry_32 : struct_class :=
  let names := ["str_index"; "type"; "sect_index"; "desc"; "value"]%string in
  let sizes := [uint32_t; uint8_t; uint8_t; uint16_t; uint32_t] in
  plain_class "symtab_entry_32" names sizes (foldr Z.add 0 sizes) names.

(** ** Notions of the statements *)

(** The value of attribute [n] of a constructed instance. *)
Definition field_of (r : result Struct) (n : string) : option py_value :=
  match r with
  | Ok inst => attrs inst !! n
  | Err _ => None
  end.

(** The length of a [raw] that was built. *)
Definition raw_length (r : result (list byte)) : option Z :=
  match r with
  | Ok data => Some (Z.of_nat (length data))
  | Err _ => None
  end.

(** [rebuildRaw(decode(S, B))]: the [raw] of the instance decoded from [B]. *)
Definition raw_of_decoded (c : struct_class) (B : list byte) (bo : byte_order)
  : result (list byte) :=
  inst ← create_with_bytes c B bo; raw inst.

(** [rebuildRaw(encode(S, V))]: the [raw] of the instance made of [values]. *)
Definition raw_of_values (c : struct_class) (values : list py_value)
    (bo : byte_order) : result (list byte) :=
  inst ← create_with_values c values bo; raw inst.

(** [decode(S, rebuildRaw(encode(S, V)))] *)
Definition decode_of_values (c : struct_class) (values : list py_value)
    (bo : byte_order) : result Struct :=
  r ← raw_of_values c values bo; create_with_bytes c r bo.

(** [data.replace(b'\x00', b'')] on bytes, the image of [strip_nul]. *)
Definition strip_nul_bytes (bs : list byte) : list byte :=
  filter (fun b => byte_val b ≠ 0) bs.

(** The NUL bytes of a slice. *)
Definition count_nul (data : list byte) : nat :=
  length (filter (fun b => byte_val b = 0) data).

(** The kinds of tag whose values [_rebuild_raw] encodes: a plain width
    (unsigned integer), opaque bytes and fixed text. *)
Definition is_uint_tag (tag : Z) : bool := Z.land size_mask tag =? tag.
Definition is_bytes_tag (tag : Z) : bool := Z.land type_mask tag =? type_bytes.
Definition is_str_tag (tag : Z) : bool := Z.land type_mask tag =? type_str.

Definition codec_tag (tag : Z) : bool :=
  is_uint_tag tag || is_bytes_tag tag || is_str_tag tag.

(** The tags that decode from any slice, short or empty: all but text, whose
    slice may be cut inside a character, and a signed tag of width 0. *)
Definition total_tag (tag : Z) : bool :=
  negb (is_str_tag tag) &&
  (negb (Z.land type_mask tag =? type_sint) || (0 <? Z.land size_mask tag)).

(** The bytes that [_rebuild_raw] gives for a slot decoded from [data]. *)
Definition rebuilt_slice (tag : Z) (data : list byte) : list byte :=
  if is_str_tag tag then strip_nul_bytes data else data.

(** The NUL bytes of the text slots of a buffer. *)
Definition nul_bytes (tags : list Z) (datas : list (list byte)) : nat :=
  foldr Nat.add O
    (zip_with (fun tag data => if is_str_tag tag then count_nul data else O)
       tags datas).

(** A slot that decodes and that [_rebuild_raw] encodes: of an unsigned,
    bytes or text tag, of the tag's width, and, for text, valid UTF-8. *)
Definition valid_slot (tag : Z) (data : list byte) : Prop :=
  codec_tag tag = true /\ Z.of_nat (length data) = Z.land size_mask tag /\
  (is_str_tag tag = true -> is_Some (utf8_decode data)).

#[global] Instance valid_slot_dec tag data : Decision (valid_slot tag data).
Proof. unfold valid_slot. apply _. Defined.

(** A slot that [raw] gives back as it was: a valid slot without a NUL byte
    if it is text. *)
Definition exact_slot (tag : Z) (data : list byte) : Prop :=
  valid_slot tag data /\
  (is_str_tag tag = true -> Forall (fun b => byte_val b ≠ 0) data).

#[global] Instance exact_slot_dec tag data : Decision (exact_slot tag data).
Proof. unfold exact_slot. apply _. Defined.

(** The names of the sub-fields that [pre_init] sets. *)
Definition bitfield_names (c : struct_class) : list string :=
  match kind c with
  | PlainStruct => []
  | BitFieldStruct _BITFIELDS _ => _BITFIELDS
  end.

(** A class the model is exact for: distinct field names, one entry of
    [_SIZES] per name, no field, bit field or default of [__init__] with a
    name of [reserved_names], and no bit field with the name of a field. *)
Definition well_formed (c : struct_class) : Prop :=
  NoDup (_FIELDNAMES c) /\
  length (_FIELDNAMES c) = length (_SIZES c) /\
  Forall (fun n => n ∉ reserved_names)
    (_FIELDNAMES c ++ bitfield_names c ++ (init_attrs c).*1) /\
  Forall (fun n => n ∉ _FIELDNAMES c) (bitfield_names c).

#[global] Instance well_formed_dec (c : struct_class) : Decision (well_formed c).
Proof. unfold well_formed. apply _. Defined.

(** Names that are none of [reserved_names]. *)
Definition unreserved (names : list string) : Prop :=
  Forall (fun n => n ∉ reserved_names) names.

#[global] Instance unreserved_dec names : Decision (unreserved names).
Proof. unfold unreserved. apply _. Defined.

(** The largest tag: the last of the four types with the largest size. *)
Definition max_tag : Z := Z.lor type_bytes size_mask.

(** An entry of [_SIZES] that is a class, or an integer no larger than a
    tag. *)
Definition small_size (sz : field_size struct_class) : Prop :=
  match sz with
  | SizeInt tag => tag <= max_tag
  | SizeCls _ => True
  end.

#[global] Instance small_size_dec sz : Decision (small_size sz).
Proof. destruct sz; apply _. Defined.

(** An instance the model is exact for: no attribute has taken a name of
    [reserved_names] ([raw] apart, which the constructor sets and nothing
    reads), no field has such a name, and the integer entries of
    [_field_sizes] are no larger than a tag. *)
Definition intact (self : Struct) : Prop :=
  Forall (fun n => n = "raw"%string \/ attrs self !! n = None) reserved_names /\
  unreserved (_fields self) /\
  map_Forall (fun _ sz => small_size sz) (_field_sizes self).

#[global] Instance intact_dec self : Decision (intact self).
Proof. unfold intact. apply _. Defined.

(** The two's-complement value of a [bits]-bit pattern [u]: the one integer
    of [-2^(bits-1), 2^(bits-1)) congruent to [u] modulo [2^bits]. *)
Definition twos_complement (u bits v : Z) : Prop :=
  - 2 ^ (bits - 1) <= v < 2 ^ (bits - 1) /\ v mod 2 ^ bits = u.

(** The bit offset of sub-field [i]: the sum of the widths before it. *)
Definition bit_offset (_BF_SIZES : list Z) (i : nat) : Z :=
  foldr Z.add 0 (take i _BF_SIZES).

(** The width a field takes in the buffer. *)
Definition field_width (sz : field_size struct_class) : Z :=
  match sz with
  | SizeInt value => Z.land size_mask value
  | SizeCls value => SIZE value
  end.

(** The offset of field [i]: the sum of the widths before it. *)
Definition field_offset (sizes : list (field_size struct_class)) (i : nat) : Z :=
  foldr Z.add 0 (field_width <$> take i sizes).

(** ** Notions of the proofs *)

(** [set_fields inst nvs]: the attributes of [nvs] set in turn. *)
Definition set_fields (inst : Struct) (nvs : list (string * py_value)) : Struct :=
  foldl (fun self '(n, v) => setattr self n v) inst nvs.

(** Two instances that differ in their attribute dictionary only. *)
Definition same_engine (a b : Struct) : Prop :=
  cls a = cls b /\ _fields a = _fields b /\ _field_sizes a = _field_sizes b /\
  byte_order_of a = byte_order_of b /\ initialized a = initialized b.

(** [layout d bo names tags datas vs]: under the field sizes [d], each name
    has an [int] tag, its slice has the tag's width and decodes to its
    value. *)
Inductive layout (d : gmap string (field_size struct_class)) (bo : byte_order)
  : list string -> list Z -> list (list byte) -> list py_value -> Prop :=
| layout_nil : layout d bo [] [] [] []
| layout_cons n tag data v names tags datas vs :
    d !! n = Some (SizeInt tag) ->
    Z.of_nat (length data) = Z.land size_mask tag ->
    decode_int_field tag data bo = Ok v ->
    layout d bo names tags datas vs ->
    layout d bo (n :: names) (tag :: tags) (data :: datas) (v :: vs).

Ltac split_bools :=
  repeat match goal with
  | H : _ && _ = true |- _ => apply andb_true_iff in H; destruct H
  | H : (_ <=? _) = true |- _ => apply Z.leb_le in H
  | H : (_ <? _) = true |- _ => apply Z.ltb_lt in H
  | H : (_ =? _) = true |- _ => apply Z.eqb_eq in H
  | H : (_ <=? _) = false |- _ => apply Z.leb_gt in H
  | H : (_ <? _) = false |- _ => apply Z.ltb_ge in H
  | H : (_ =? _) = false |- _ => apply Z.eqb_neq in H
  end.

Ltac decide_ifs :=
  repeat match goal with
  | |- context [if ?c then _ else _] =>
    let E := fresh "E" in
    destruct c eqn:E; split_bools; try lia
  end.

(** Closed decidable facts are settled by evaluation. *)
Ltac by_evaluation := apply (bool_decide_unpack _); vm_compute; exact I.

(** ** Inputs of the examples *)

Definition segment_command_tags : list Z :=
  [uint32_t; uint32_t; char_t 16; uint32_t; uint32_t; uint32_t; uint32_t;
   uint32_t; uint32_t; uint32_t; uint32_t].

(** The slots of a [segment_command] whose [segname] holds "__TEXT" and ten
    NUL bytes. *)
Definition text_segment_slots : list (list byte) :=
  [[x01; x00; x00; x00]; [x38; x00; x00; x00];
   [x5f; x5f; x54; x45; x58; x54; x00; x00; x00; x00; x00; x00; x00; x00;
    x00; x00];
   [x00; x10; x00; x00]; [x00; x40; x00; x00]; [x00; x00; x00; x00];
   [x00; x40; x00; x00]; [x05; x00; x00; x00]; [x05; x00; x00; x00];
   [x02; x00; x00; x00]; [x00; x00; x00; x00]].

(** The same as one buffer of 56 bytes. *)
Definition text_segment : list byte :=
  [x01; x00; x00; x00; x38; x00; x00; x00;
   x5f; x5f; x54; x45; x58; x54; x00; x00;
   x00; x00; x00; x00; x00; x00; x00; x00;
   x00; x10; x00; x00; x00; x40; x00; x00;
   x00; x00; x00; x00; x00; x40; x00; x00;
   x05; x00; x00; x00; x05; x00; x00; x00;
   x02; x00; x00; x00; x00; x00; x00; x00].

(** What [raw] gives for the decoded [text_segment]: the buffer without the
    ten NUL bytes of [segname]. *)
Definition text_segment_raw : list byte :=
  [x01; x00; x00; x00; x38; x00; x00; x00;
   x5f; x5f; x54; x45; x58; x54;
   x00; x10; x00; x00; x00; x40; x00; x00;
   x00; x00; x00; x00; x00; x40; x00; x00;
   x05; x00; x00; x00; x05; x00; x00; x00;
   x02; x00; x00; x00; x00; x00; x00; x00].

(** The slots of a [segment_command] whose [segname] fills its sixteen
    bytes. *)
Definition full_name_slots : list (list byte) :=
  [[x01; x00; x00; x00]; [x38; x00; x00; x00];
   [x5f; x5f; x44; x41; x54; x41; x5f; x43; x4f; x4e; x53; x54; x5f; x53;
    x45; x47];
   [x00; x10; x00; x00]; [x00; x40; x00; x00]; [x00; x00; x00; x00];
   [x00; x40; x00; x00]; [x05; x00; x00; x00]; [x05; x00; x00; x00];
   [x02; x00; x00; x00]; [x00; x00; x00; x00]].

(** A [fat_header] buffer of five bytes instead of eight. *)
Definition truncated_fat_header : list byte := [x01; x02; x03; x04; x05].

(** A record of one signed byte. *)
Definition signed_byte : struct_class :=
  plain_class "signed_byte" ["delta"]%string [int8_t] 1 [].

(** A [BitFieldStruct] subclass over a four-byte [value], with sub-fields of
    2, 2 and 28 bits. *)
Definition bits_2_2_28 : struct_class :=
  {| __name__ := "bits_2_2_28";
     kind := BitFieldStruct ["low"; "mid"; "high"]%string [2; 2; 28];
     _FIELDNAMES := ["value"]%string; _SIZES := [SizeInt uint32_t]; SIZE := 4;
     init_attrs := [] |}.

(** An instance of [bits_2_2_28] as the loop of [create_with_bytes] leaves
    it, with the backing value [v]. *)
Definition bits_with_value (v : Z) : Struct :=
  {| cls := bits_2_2_28; _fields := ["value"]%string;
     _field_sizes := {["value"%string := SizeInt uint32_t]};
     byte_order_of := Little; initialized := false;
     attrs := {["value"%string := VInt v]} |}.

(** A [BitFieldStruct] subclass whose widths add up to 31 bits over a
    four-byte [value]. *)
Definition bits_2_2_27 : struct_class :=
  {| __name__ := "bits_2_2_27";
     kind := BitFieldStruct ["low"; "mid"; "high"]%string [2; 2; 27];
     _FIELDNAMES := ["value"]%string; _SIZES := [SizeInt uint32_t]; SIZE := 4;
     init_attrs := [] |}.

(** A record with a [fat_header] nested after a two-byte field. *)
Definition tagged_header : struct_class :=
  {| __name__ := "tagged_header"; kind := PlainStruct;
     _FIELDNAMES := ["tag"; "header"]%string;
     _SIZES := [SizeInt uint16_t; SizeCls fat_header]; SIZE := 10;
     init_attrs := [] |}.

Definition tagged_header_bytes : list byte :=
  [x00; x01; xca; xfe; xba; xbe; x00; x00; x00; x02].

(** A class with two names and one size. *)
Definition lone_size : struct_class :=
  {| __name__ := "lone_size"; kind := PlainStruct;
     _FIELDNAMES := ["first"; "second"]%string; _SIZES := [SizeInt uint8_t];
     SIZE := 2; init_attrs := [] |}.

(** The instance that [create_with_values] makes of a [fat_header] with the
    values [0xcafebabe] and [2], big-endian. *)
Definition fat_header_instance : Struct :=
  {| cls := fat_header; _fields := ["magic"; "nfat_archs"]%string;
     _field_sizes :=
       <["nfat_archs"%string := SizeInt uint32_t]>
         {["magic"%string := SizeInt uint32_t]};
     byte_order_of := Big; initialized := true;
     attrs :=
       <["nfat_archs"%string := VInt 2]> {["magic"%string := VInt 0xcafebabe]} |}.

(** The integer whose bits are the sub-fields [vals] of the widths [sizes],
    the first one lowest. *)
Fixpoint join_bits (sizes vals : list Z) : Z :=
  match sizes, vals with
  | b :: sizes', x :: vals' => x + 2 ^ b * join_bits sizes' vals'
  | _, _ => 0
  end.

(** The sub-fields of [v] for the widths [sizes], the first one lowest. *)
Fixpoint split_bits (sizes : list Z) (v : Z) : list Z :=
  match sizes with
  | [] => []
  | b :: sizes' => v mod 2 ^ b :: split_bits sizes' (v / 2 ^ b)
  end.

(** A value that conforms to a tag: an integer of the unsigned width, bytes
    of the width, or text whose UTF-8 encoding has the width. *)
Definition conforms (tag : Z) (v : py_value) : Prop :=
  match v with
  | VInt n => is_uint_tag tag = true /\ 0 <= n < 256 ^ tag
  | VBytes b =>
    is_bytes_tag tag = true /\ Z.of_nat (length b) = Z.land size_mask tag
  | VStr s =>
    is_str_tag tag = true /\
    match utf8_encode s with
    | Some bs => Z.of_nat (length bs) = Z.land size_mask tag
    | None => False
    end
  | _ => False
  end.

#[global] Instance conforms_dec tag v : Decision (conforms tag v).
Proof.
  destruct v; cbn [conforms]; try apply _.
  destruct (utf8_encode s); apply _.
Defined.

(** A value as a decode returns it: text without its NUL characters. *)
Definition normalized (v : py_value) : py_value :=
  match v with
  | VStr s => VStr (strip_nul s)
  | _ => v
  end.

(** Values for a [segment_command], the name padded with NUL characters. *)
Definition segment_values : list py_value :=
  [VInt 1; VInt 56;
   VStr [95; 95; 84; 69; 88; 84; 0; 0; 0; 0; 0; 0; 0; 0; 0; 0];
   VInt 4096; VInt 16384; VInt 0; VInt 16384; VInt 5; VInt 5; VInt 2; VInt 0].

(** ** [Struct.serialize] *)

(** The code points of a name. *)
Definition str_of_string (s : string) : list Z :=
  (fun a => Z.of_nat (Ascii.nat_of_ascii a)) <$> String.list_ascii_of_string s.

(** One lowercase hexadecimal digit, as a code point. *)
Definition hex_digit (d : Z) : Z := if d <? 10 then 48 + d else 87 + d.

(** [_bytes_to_hex(data)], that is [data.hex()]. *)
Definition _bytes_to_hex (data : list byte) : list Z :=
  b ← data; [hex_digit (byte_val b / 16); hex_digit (byte_val b mod 16)].

(** What [serialize] returns and puts in its dictionary: [None], an [int],
    a [str], or the dictionary of a nested instance.  A dictionary keeps
    its keys in the order they were first set. *)
Inductive serial :=
| SNone
| SInt (n : Z)
| SStr (s : list Z)
| SDict (items : list (string * serial)).

(** [d[k] = v] *)
Fixpoint dict_set {V} (d : list (string * V)) (k : string) (v : V)
  : list (string * V) :=
  match d with
  | [] => [(k, v)]
  | (k', v') :: rest =>
    if String.eqb k' k then (k', v) :: rest else (k', v') :: dict_set rest k v
  end.

(** [d.get(k)] *)
Fixpoint dict_get {V} (d : list (string * V)) (k : string) : option V :=
  match d with
  | [] => None
  | (k', v) :: rest => if String.eqb k' k then Some v else dict_get rest k
  end.

(** The loop of [serialize] over the fields; [items] gives the serialized
    value of every attribute. *)
Fixpoint serialize_fields (items : gmap string (result serial))
    (fields : list string) (struct_dict : list (string * serial))
  : result (list (string * serial)) :=
  match fields with
  | [] => Ok struct_dict
  | field :: rest =>
    match items !! field with
    | None => Err AttributeError
    | Some item =>
      field_item ← item;
      serialize_fields items rest (dict_set struct_dict field field_item)
    end
  end.

(** The [field_item] that [serialize] makes of an attribute value; for a
    nested instance it is the instance's own [serialize()].  [serialize]
    and [__getattribute__] are the methods only if no attribute of the
    instance has taken their names: calling a value is a [TypeError], for
    [__getattribute__] at the first field.  The values of all attributes
    are serialized at once, so that the recursion follows the structure of
    the value; the loop then reads those of the fields, in their order.  As
    in [rebuild_field], a field without an attribute is an
    [AttributeError]: the model is exact for fields that are not named as
    an attribute of the class. *)
Fixpoint serialize_item (v : py_value) : result serial :=
  match v with
  | VStr s => Ok (SStr s)
  | VBytes b => Ok (SStr (_bytes_to_hex b))
  | VInt n => Ok (SInt n)
  | VStruct child =>
    match attrs child !! "serialize"%string with
    | Some _ => Err TypeError
    | None =>
      match attrs child !! "__getattribute__"%string, _fields child with
      | Some _, _ :: _ => Err TypeError
      | _, _ =>
        d ← serialize_fields (serialize_item <$> attrs child) (_fields child)
              [("type"%string, SStr (str_of_string (__name__ (cls child))))];
        Ok (SDict d)
      end
    end
  | VNone => Ok SNone
  end.

Definition serialize (self : Struct) : result serial :=
  serialize_item (VStruct self).

(** [P] holds of a class and of the classes of its nested fields, and of
    theirs. *)
Fixpoint every_class (P : struct_class -> bool) (c : struct_class) : bool :=
  P c &&
  forallb (fun sz => match sz with
                     | SizeInt _ => true
                     | SizeCls c' => every_class P c'
                     end) (_SIZES c).

(** The methods that [serialize] calls on an instance. *)
Definition serialize_methods : list string :=
  ["serialize"; "__getattribute__"]%string.

(** A well-formed class none of whose attributes takes the name of a method
    that [serialize] calls. *)
Definition keeps_serialize (c : struct_class) : Prop :=
  well_formed c /\
  Forall (fun m => m ∉ (init_attrs c).*1 ++ _FIELDNAMES c ++ bitfield_names c)
    serialize_methods.

#[global] Instance keeps_serialize_dec c : Decision (keeps_serialize c).
Proof. unfold keeps_serialize. apply _. Defined.

Definition serializable (c : struct_class) : bool :=
  every_class (fun c' => bool_decide (keeps_serialize c')) c.

(** An instance of [symtab_entry_32], one of whose fields is named [type]. *)
Definition symbol_instance : Struct :=
  {| cls := symtab_entry_32;
     _fields := ["str_index"; "type"; "sect_index"; "desc"; "value"]%string;
     _field_sizes :=
       list_to_map
         [("str_index", SizeInt uint32_t); ("type", SizeInt uint8_t);
          ("sect_index", SizeInt uint8_t); ("desc", SizeInt uint16_t);
          ("value", SizeInt uint32_t)]%string;
     byte_order_of := Little; initialized := true;
     attrs :=
       list_to_map
         [("str_index", VInt 1); ("type", VInt 15); ("sect_index", VInt 1);
          ("desc", VInt 0); ("value", VInt 4096)]%string |}.

(** ** The other record classes of the module *)

Definition mach_header : struct_class :=
  let names := ["magic"; "cpu_type"; "cpu_subtype"; "filetype"; "loadcnt";
                "loadsize"; "flags"]%string in
  plain_class "mach_header" names
    [uint32_t; uint32_t; uint32_t; uint32_t; uint32_t; uint32_t; uint32_t] 28 names.

Definition mach_header_64 : struct_class :=
  let names := ["magic"; "cpu_type"; "cpu_subtype"; "filetype"; "loadcnt";
                "loadsize"; "flags"; "reserved"]%string in
  plain_class "mach_header_64" names
    [uint32_t; uint32_t; uint32_t; uint32_t; uint32_t; uint32_t; uint32_t;
     uint32_t] 32 names.

Definition unk_command : struct_class :=
  let names := ["cmd"; "cmdsize"]%string in
  plain_class "unk_command" names
    [uint32_t; uint32_t] 8 names.

Definition segment_command_64 : struct_class :=
  let names := ["cmd"; "cmdsize"; "segname"; "vmaddr"; "vmsize"; "fileoff";
                "filesize"; "maxprot"; "initprot"; "nsects"; "flags"]%string in
  plain_class "segment_command_64" names
    [uint32_t; uint32_t; char_t 16; uint64_t; uint64_t; uint64_t; uint64_t;
     uint32_t; uint32_t; uint32_t; uint32_t] 72 names.

Definition section : struct_class :=
  let names := ["sectname"; "segname"; "addr"; "size"; "offset"; "align";
                "reloff"; "nreloc"; "flags"; "reserved1"; "reserved2"]%string in
  plain_class "section" names
    [char_t 16; char_t 16; uint32_t; uint32_t; uint32_t; uint32_t; uint32_t;
     uint32_t; uint32_t; uint32_t; uint32_t] 68 names.

Definition section_64 : struct_class :=
  let names := ["sectname"; "segname"; "addr"; "size"; "offset"; "align";
                "reloff"; "nreloc"; "flags"; "reserved1"; "reserved2";
                "reserved3"]%string in
  plain_class "section_64" names
    [char_t 16; char_t 16; uint64_t; uint64_t; uint32_t; uint32_t; uint32_t;
     uint32_t; uint32_t; uint32_t; uint32_t; uint32_t] (32 + 16 + (4 * 8)) names.

Definition symtab_command : struct_class :=
  let names := ["cmd"; "cmdsize"; "symoff"; "nsyms"; "stroff"; "strsize"]%string in
  plain_class "symtab_command" names
    [uint32_t; uint32_t; uint32_t; uint32_t; uint32_t; uint32_t] (4 * 6) names.

Definition dysymtab_command : struct_class :=
  let names := ["cmd"; "cmdsize"; "ilocalsym"; "nlocalsym"; "iextdefsym";
                "nextdefsym"; "iundefsym"; "nundefsym"; "tocoff"; "ntoc";
                "modtaboff"; "nmodtab"; "extrefsymoff"; "nextrefsyms";
                "indirectsymoff"; "nindirectsyms"; "extreloff"; "nextrel";
                "locreloff"; "nlocrel"]%string in
  plain_class "dysymtab_command" names
    [uint32_t; uint32_t; uint32_t; uint32_t; uint32_t; uint32_t; uint32_t;
     uint32_t; uint32_t; uint32_t; uint32_t; uint32_t; uint32_t; uint32_t;
     uint32_t; uint32_t; uint32_t; uint32_t; uint32_t; uint32_t] 80 names.

Definition dylib : struct_class :=
  let names := ["name"; "timestamp"; "current_version";
                "compatibility_version"]%string in
  plain_class "dylib" names
    [uint32_t; uint32_t; uint32_t; uint32_t] 16 names.

Definition dylib_command : struct_class :=
  let names := ["cmd"; "cmdsize"; "dylib"]%string in
  plain_class "dylib_command" names
    [uint32_t; uint32_t; Z.lor type_bytes 16] 24 names.

Definition dylinker_command : struct_class :=
  let names := ["cmd"; "cmdsize"; "name"]%string in
  plain_class "dylinker_command" names
    [uint32_t; uint32_t; uint32_t] 12 names.

Definition sub_client_command : struct_class :=
  let names := ["cmd"; "cmdsize"; "offset"]%string in
  plain_class "sub_client_command" names
    [uint32_t; uint32_t; uint32_t] 12 names.

Definition build_version_command : struct_class :=
  let names := ["cmd"; "cmdsize"; "platform"; "minos"; "sdk"; "ntools"]%string in
  plain_class "build_version_command" names
    [uint32_t; uint32_t; uint32_t; uint32_t; uint32_t; uint32_t] 24 names.

Definition entry_point_command : struct_class :=
  let names := ["cmd"; "cmdsize"; "entryoff"; "stacksize"]%string in
  plain_class "entry_point_command" names
    [uint32_t; uint32_t; uint64_t; uint64_t] 24 names.

Definition rpath_command : struct_class :=
  let names := ["cmd"; "cmdsize"; "path"]%string in
  plain_class "rpath_command" names
    [uint32_t; uint32_t; uint32_t] 12 names.

Definition source_version_command : struct_class :=
  let names := ["cmd"; "cmdsize"; "version"]%string in
  let sizes := [uint32_t; uint32_t; uint64_t] in
  plain_class "source_version_command" names sizes (foldr Z.add 0 sizes) names.

Definition linkedit_data_command : struct_class :=
  let names := ["cmd"; "cmdsize"; "dataoff"; "datasize"]%string in
  let sizes := [uint32_t; uint32_t; uint32_t; uint32_t] in
  plain_class "linkedit_data_command" names sizes (foldr Z.add 0 sizes) names.

Definition dyld_info_command : struct_class :=
  let names := ["cmd"; "cmdsize"; "rebase_off"; "rebase_size"; "bind_off";
                "bind_size"; "weak_bind_off"; "weak_bind_size";
                "lazy_bind_off"; "lazy_bind_size"; "export_off"; "export_size"]%string in
  plain_class "dyld_info_command" names
    [uint32_t; uint32_t; uint32_t; uint32_t; uint32_t; uint32_t; uint32_t;
     uint32_t; uint32_t; uint32_t; uint32_t; uint32_t] 48
    ["cmd"; "cmdisze"; "rebase_off"; "rebase_size"; "bind_off"; "bind_size";
     "weak_bind_off"; "weak_bind_size"; "lazy_bind_off"; "lazy_bind_size";
     "export_off"; "export_size"]%string.

Definition symtab_entry : struct_class :=
  let names := ["str_index"; "type"; "sect_index"; "desc"; "value"]%string in
  let sizes := [uint32_t; uint8_t; uint8_t; uint16_t; uint64_t] in
  plain_class "symtab_entry" names sizes (foldr Z.add 0 sizes) names.

Definition version_min_command : struct_class :=
  let names := ["cmd"; "cmdsize"; "version"; "reserved"]%string in
  plain_class "version_min_command" names
    [uint32_t; uint32_t; uint32_t; uint32_t] 16 names.

Definition encryption_info_command : struct_class :=
  let names := ["cmd"; "cmdsize"; "cryptoff"; "cryptsize"; "cryptid"]%string in
  plain_class "encryption_info_command" names
    [uint32_t; uint32_t; uint32_t; uint32_t; uint32_t] 20 names.

Definition encryption_info_command_64 : struct_class :=
  let names := ["cmd"; "cmdsize"; "cryptoff"; "cryptsize"; "cryptid"; "pad"]%string in
  let sizes := [uint32_t; uint32_t; uint32_t; uint32_t; uint32_t; uint32_t] in
  plain_class "encryption_info_command_64" names sizes (foldr Z.add 0 sizes) names.

Definition thread_command : struct_class :=
  let names := ["cmd"; "cmdsize"; "flavor"; "count"]%string in
  let sizes := [uint32_t; uint32_t; uint32_t; uint32_t] in
  plain_class "thread_command" names sizes (foldr Z.add 0 sizes) names.

(** The record classes of the module, in its order. *)
Definition structs_module : list struct_class :=
  [fat_header; fat_arch; mach_header; mach_header_64; unk_command;
   segment_command; segment_command_64; section; section_64; symtab_command;
   dysymtab_command; dylib; dylib_command; dylinker_command;
   sub_client_command; uuid_command; build_version_command;
   entry_point_command; rpath_command; source_version_command;
   linkedit_data_command; dyld_info_command; symtab_entry_32; symtab_entry;
   version_min_command; encryption_info_command; encryption_info_command_64;
   thread_command].


(** The tags of the fields of a class, nested fields left out. *)
Definition class_tags (c : struct_class) : list Z :=
  omap (fun sz => match sz with SizeInt tag => Some tag | SizeCls _ => None end)
    (_SIZES c).

(** The slots of a [uuid_command]. *)
Definition uuid_slots : list (list byte) :=
  [[x1b; x00; x00; x00]; [x18; x00; x00; x00];
   [x00; x11; x22; x33; x44; x55; x66; x77; x88; x99; xaa; xbb; xcc; xdd;
    xee; xff]].

(** The attributes that the classes of the engine themselves have, which
    the lookup of an attribute finds when the instance has none of the
    name; a name that begins with two underscores may be one that every
    Python class has. *)
Definition class_attributes : list string :=
  ["create_with_bytes"; "create_with_values"; "typename"; "desc";
   "render_indented"; "serialize"; "pre_init"; "post_init"; "_rebuild_raw";
   "_FIELDNAMES"; "_SIZES"; "SIZE"; "_BITFIELDS"; "_BF_SIZES"]%string.

Definition class_attribute (n : string) : bool :=
  String.prefix "__" n || bool_decide (n ∈ class_attributes).

(** The tags of the integer fields that decode from any slice: unsigned
    ones, and signed ones of a width above 0. *)
Definition is_int_tag (tag : Z) : bool :=
  (Z.land type_mask tag =? type_uint) ||
  ((Z.land type_mask tag =? type_sint) && (0 <? Z.land size_mask tag)).

(** * Properties *)

(** ** Bytes and integers *)

Lemma byte_val_range (b : byte) : 0 <= byte_val b < 256.
Proof.
  unfold byte_val. pose proof (Byte.to_N_bounded b). lia.
Qed.

Lemma byte_of_val (b : byte) : byte_of (byte_val b) = b.
Proof.
  unfold byte_of, byte_val. rewrite N2Z.id, Byte.of_to_N. reflexivity.
Qed.

Lemma byte_val_of (z : Z) : 0 <= z < 256 -> byte_val (byte_of z) = z.
Proof.
  intros Hz. unfold byte_of, byte_val.
  destruct (Byte.of_N (Z.to_N z)) as [b|] eqn:E.
  - apply Byte.to_of_N in E. rewrite E. lia.
  - apply Byte.of_N_None_iff in E. lia.
Qed.

Lemma byte_val_inj (a b : byte) : byte_val a = byte_val b -> a = b.
Proof.
  intros H. rewrite <- (byte_of_val a), <- (byte_of_val b). congruence.
Qed.

Lemma byte_val_zero (b : byte) : byte_val b = 0 <-> b = x00.
Proof.
  split; [intros H; apply byte_val_inj; exact H | intros ->; reflexivity].
Qed.

Lemma from_bytes_le_range (data : list byte) :
  0 <= from_bytes_le data < 256 ^ Z.of_nat (length data).
Proof.
  induction data as [|b t IH]; [simpl; lia|].
  cbn [from_bytes_le length]. rewrite Nat2Z.inj_succ, Z.pow_succ_r by lia.
  pose proof (byte_val_range b). lia.
Qed.

Lemma to_from_bytes_le (data : list byte) :
  to_bytes_le (length data) (from_bytes_le data) = data.
Proof.
  induction data as [|b t IH]; [reflexivity|].
  cbn [from_bytes_le length to_bytes_le].
  pose proof (byte_val_range b) as Hb.
  replace ((byte_val b + 256 * from_bytes_le t) mod 256) with (byte_val b)
    by (Z.div_mod_to_equations; lia).
  replace ((byte_val b + 256 * from_bytes_le t) / 256) with (from_bytes_le t)
    by (Z.div_mod_to_equations; lia).
  rewrite byte_of_val, IH. reflexivity.
Qed.

Lemma length_to_bytes_le (n : nat) (v : Z) : length (to_bytes_le n v) = n.
Proof.
  revert v. induction n as [|n IH]; intros v; [reflexivity|].
  cbn [to_bytes_le length]. rewrite IH. reflexivity.
Qed.

Lemma from_to_bytes_le (n : nat) (v : Z) :
  0 <= v < 256 ^ Z.of_nat n -> from_bytes_le (to_bytes_le n v) = v.
Proof.
  revert v. induction n as [|n IH]; intros v Hv.
  - simpl in *. lia.
  - cbn [to_bytes_le from_bytes_le].
    rewrite Nat2Z.inj_succ, Z.pow_succ_r in Hv by lia.
    rewrite byte_val_of by (apply Z.mod_pos_bound; lia).
    rewrite IH.
    + pose proof (Z.div_mod v 256). lia.
    + split; [apply Z.div_pos; lia | apply Z.div_lt_upper_bound; lia].
Qed.

(** The bits of [v] exceed [size * 8] exactly when [v] reaches [256^size]. *)
Lemma overflow_check (v size : Z) :
  0 <= v -> 0 <= size -> (size * 8 <? bit_length v) = (256 ^ size <=? v).
Proof.
  intros Hv Hs. unfold bit_length.
  assert (Hp : 256 ^ size = 2 ^ (size * 8)).
  { change 256 with (2 ^ 8). rewrite <- Z.pow_mul_r by lia. f_equal. lia. }
  rewrite Hp. pose proof (Z.pow_pos_nonneg 2 (size * 8) ltac:(lia) ltac:(lia)).
  destruct (Z.eqb_spec v 0) as [->|Hne].
  - destruct (Z.ltb_spec (size * 8) 0), (Z.leb_spec (2 ^ (size * 8)) 0);
      try reflexivity; lia.
  - destruct (Z.log2_spec v ltac:(lia)) as [Hlo Hhi].
    destruct (Z.ltb_spec (size * 8) (Z.log2 v + 1)),
      (Z.leb_spec (2 ^ (size * 8)) v); try reflexivity.
    + assert (2 ^ (size * 8) <= 2 ^ Z.log2 v) by (apply Z.pow_le_mono_r; lia).
      lia.
    + assert (2 ^ Z.succ (Z.log2 v) <= 2 ^ (size * 8))
        by (apply Z.pow_le_mono_r; lia).
      lia.
Qed.

(** [int.to_bytes] undoes [int.from_bytes] at the length of the data. *)
Lemma ssize_t_fits (size : Z) :
  - ssize_t_max - 1 <= size <= ssize_t_max ->
  (size <? - ssize_t_max - 1) || (ssize_t_max <? size) = false.
Proof.
  intros H. destruct (Z.ltb_spec size (- ssize_t_max - 1)); [lia|].
  destruct (Z.ltb_spec ssize_t_max size); [lia|]. reflexivity.
Qed.

Lemma int_to_from_bytes (data : list byte) (bo : byte_order) :
  Z.of_nat (length data) <= ssize_t_max ->
  int_to_bytes (int_from_bytes data bo) (Z.of_nat (length data)) bo = Ok data.
Proof.
  intros Hmax. unfold int_to_bytes, int_from_bytes.
  rewrite ssize_t_fits by (unfold ssize_t_max in *; lia).
  assert (Hr : 0 <= from_bytes_le (match bo with Little => data | Big => reverse data end)
               < 256 ^ Z.of_nat (length data)).
  { destruct bo; [apply from_bytes_le_range|].
    rewrite <- (length_reverse data). apply from_bytes_le_range. }
  destruct (Z.ltb_spec (Z.of_nat (length data)) 0); [lia|].
  destruct bo.
  - destruct (Z.ltb_spec (from_bytes_le data) 0); [lia|].
    rewrite overflow_check by lia.
    destruct (Z.leb_spec (256 ^ Z.of_nat (length data)) (from_bytes_le data)); [lia|].
    rewrite Nat2Z.id, to_from_bytes_le. reflexivity.
  - destruct (Z.ltb_spec (from_bytes_le (reverse data)) 0); [lia|].
    rewrite overflow_check by lia.
    destruct (Z.leb_spec (256 ^ Z.of_nat (length data)) (from_bytes_le (reverse data)));
      [lia|].
    rewrite Nat2Z.id, <- (length_reverse data), to_from_bytes_le, reverse_involutive.
    reflexivity.
Qed.

(** [int.from_bytes] undoes [int.to_bytes] when the latter succeeds. *)
Lemma int_from_to_bytes (v size : Z) (bo : byte_order) (data : list byte) :
  int_to_bytes v size bo = Ok data ->
  int_from_bytes data bo = v /\ Z.of_nat (length data) = size.
Proof.
  unfold int_to_bytes, int_from_bytes.
  destruct (_ || _); [discriminate|].
  destruct (Z.ltb_spec size 0); [discriminate|].
  destruct (Z.ltb_spec v 0); [discriminate|].
  rewrite overflow_check by lia.
  destruct (Z.leb_spec (256 ^ size) v); [discriminate|].
  intros [= <-].
  assert (Hv : 0 <= v < 256 ^ Z.of_nat (Z.to_nat size)) by (rewrite Z2Nat.id; lia).
  destruct bo.
  - rewrite from_to_bytes_le, length_to_bytes_le by exact Hv. lia.
  - rewrite reverse_involutive, length_reverse, from_to_bytes_le, length_to_bytes_le
      by exact Hv. lia.
Qed.

(** [int.to_bytes] fails exactly on values outside [0, 256^size). *)
Lemma int_to_bytes_overflow (v size : Z) (bo : byte_order) :
  0 <= size -> (v < 0 \/ 256 ^ size <= v) ->
  int_to_bytes v size bo = Err OverflowError.
Proof.
  intros Hs Hv. unfold int_to_bytes.
  destruct (_ || _); [reflexivity|].
  destruct (Z.ltb_spec size 0); [lia|].
  destruct (Z.ltb_spec v 0); [reflexivity|].
  rewrite overflow_check by lia.
  destruct (Z.leb_spec (256 ^ size) v); [reflexivity|lia].
Qed.

(** ** UTF-8 *)

Lemma byte_of_eq (z : Z) (b : byte) : z = byte_val b -> byte_of z = b.
Proof. intros ->. apply byte_of_val. Qed.

Lemma second_bounds (x : Z) (b1 : byte) :
  in_range (second_lo x) (second_hi x) b1 = true ->
  128 <= byte_val b1 <= 191 /\
  (x = 224 -> 160 <= byte_val b1) /\ (x = 237 -> byte_val b1 <= 159) /\
  (x = 240 -> 144 <= byte_val b1) /\ (x = 244 -> byte_val b1 <= 143).
Proof.
  unfold in_range, second_lo, second_hi. intros H.
  destruct (Z.eqb_spec x 224), (Z.eqb_spec x 240), (Z.eqb_spec x 237),
    (Z.eqb_spec x 244); split_bools; lia.
Qed.

Lemma encode_char1 (b0 : byte) :
  byte_val b0 < 128 -> utf8_encode_char (byte_val b0) = Some [b0].
Proof.
  intros H. pose proof (byte_val_range b0). unfold utf8_encode_char.
  decide_ifs. rewrite byte_of_val. reflexivity.
Qed.

Lemma encode_char2 (b0 b1 : byte) :
  194 <= byte_val b0 <= 223 -> is_cont b1 = true ->
  utf8_encode_char ((byte_val b0 - 192) * 64 + (byte_val b1 - 128))
  = Some [b0; b1].
Proof.
  intros H0 H1. unfold is_cont in H1. split_bools. unfold utf8_encode_char.
  decide_ifs.
  repeat f_equal; apply byte_of_eq; Z.div_mod_to_equations; lia.
Qed.

Lemma encode_char3 (b0 b1 b2 : byte) :
  224 <= byte_val b0 <= 239 ->
  in_range (second_lo (byte_val b0)) (second_hi (byte_val b0)) b1 = true ->
  is_cont b2 = true ->
  utf8_encode_char ((byte_val b0 - 224) * 4096 + (byte_val b1 - 128) * 64
                    + (byte_val b2 - 128))
  = Some [b0; b1; b2].
Proof.
  intros H0 H1 H2. apply second_bounds in H1. unfold is_cont in H2.
  split_bools. destruct H1 as (? & ? & ? & _).
  unfold utf8_encode_char. decide_ifs.
  repeat f_equal; apply byte_of_eq; Z.div_mod_to_equations; lia.
Qed.

Lemma encode_char4 (b0 b1 b2 b3 : byte) :
  240 <= byte_val b0 <= 244 ->
  in_range (second_lo (byte_val b0)) (second_hi (byte_val b0)) b1 = true ->
  is_cont b2 = true -> is_cont b3 = true ->
  utf8_encode_char ((byte_val b0 - 240) * 262144 + (byte_val b1 - 128) * 4096
                    + (byte_val b2 - 128) * 64 + (byte_val b3 - 128))
  = Some [b0; b1; b2; b3].
Proof.
  intros H0 H1 H2 H3. apply second_bounds in H1. unfold is_cont in H2, H3.
  split_bools. destruct H1 as (? & _ & _ & ? & ?).
  unfold utf8_encode_char. decide_ifs.
  repeat f_equal; apply byte_of_eq; Z.div_mod_to_equations; lia.
Qed.

Lemma utf8_encode_cons (c : Z) (s : list Z) (bs r : list byte) :
  utf8_encode_char c = Some bs -> utf8_encode s = Some r ->
  utf8_encode (c :: s) = Some (bs ++ r).
Proof. intros H1 H2. cbn [utf8_encode]. rewrite H1, H2. reflexivity. Qed.

Lemma utf8_encode_decode_bounded (n : nat) (bs : list byte) (s : list Z) :
  (length bs <= n)%nat -> utf8_decode bs = Some s -> utf8_encode s = Some bs.
Proof.
  revert bs s. induction n as [|n IH]; intros bs s Hlen Hdec.
  - destruct bs; [|simpl in Hlen; lia]. injection Hdec as <-. reflexivity.
  - destruct bs as [|b0 t]; [injection Hdec as <-; reflexivity|].
    cbn [utf8_decode] in Hdec. cbn [length] in Hlen.
    destruct (byte_val b0 <? 128) eqn:E1.
    { destruct (utf8_decode t) as [s'|] eqn:Et; [|discriminate].
      injection Hdec as <-. split_bools.
      apply (utf8_encode_cons _ _ [b0] t); [apply encode_char1; lia|].
      apply IH; [lia|exact Et]. }
    destruct ((194 <=? byte_val b0) && (byte_val b0 <=? 223)) eqn:E2.
    { destruct t as [|b1 t1]; [discriminate|].
      destruct (is_cont b1) eqn:C1; [|discriminate].
      destruct (utf8_decode t1) as [s'|] eqn:Et; [|discriminate].
      injection Hdec as <-. split_bools.
      apply (utf8_encode_cons _ _ [b0; b1] t1); [apply encode_char2; [lia|done]|].
      apply IH; [cbn [length] in Hlen; lia|exact Et]. }
    destruct ((224 <=? byte_val b0) && (byte_val b0 <=? 239)) eqn:E3.
    { destruct t as [|b1 [|b2 t2]]; [discriminate..|].
      destruct (in_range _ _ b1) eqn:C1; [|discriminate].
      destruct (is_cont b2) eqn:C2; [|discriminate].
      destruct (utf8_decode t2) as [s'|] eqn:Et; [|discriminate].
      injection Hdec as <-. split_bools.
      apply (utf8_encode_cons _ _ [b0; b1; b2] t2);
        [apply encode_char3; [lia|done..]|].
      apply IH; [cbn [length] in Hlen; lia|exact Et]. }
    destruct ((240 <=? byte_val b0) && (byte_val b0 <=? 244)) eqn:E4;
      [|discriminate].
    destruct t as [|b1 [|b2 [|b3 t3]]]; [discriminate..|].
    destruct (in_range _ _ b1) eqn:C1; [|discriminate].
    destruct (is_cont b2) eqn:C2; [|discriminate].
    destruct (is_cont b3) eqn:C3; [|discriminate].
    destruct (utf8_decode t3) as [s'|] eqn:Et; [|discriminate].
    injection Hdec as <-. split_bools.
    apply (utf8_encode_cons _ _ [b0; b1; b2; b3] t3);
      [apply encode_char4; [lia|done..]|].
    apply IH; [cbn [length] in Hlen; lia|exact Et].
Qed.

(** Encoding a decoded string gives back the bytes it was decoded from. *)
Lemma utf8_encode_decode (bs : list byte) (s : list Z) :
  utf8_decode bs = Some s -> utf8_encode s = Some bs.
Proof. apply (utf8_encode_decode_bounded (length bs)). lia. Qed.

Lemma byte_of_nonzero (z : Z) : 0 < z < 256 -> byte_val (byte_of z) ≠ 0.
Proof. intros H. rewrite byte_val_of; lia. Qed.

Lemma utf8_encode_char_nonzero (c : Z) (bs : list byte) :
  c ≠ 0 -> utf8_encode_char c = Some bs -> Forall (fun b => byte_val b ≠ 0) bs.
Proof.
  intros Hc. unfold utf8_encode_char.
  repeat match goal with
  | |- context [if ?c then _ else _] =>
    let E := fresh "E" in destruct c eqn:E; split_bools
  end; try discriminate; intros [= <-];
  repeat (apply Forall_cons; split;
          [apply byte_of_nonzero; Z.div_mod_to_equations; lia|]);
  apply Forall_nil; exact I.
Qed.

Lemma utf8_encode_char_zero : utf8_encode_char 0 = Some [x00].
Proof. reflexivity. Qed.

Lemma strip_nul_bytes_app (a b : list byte) :
  strip_nul_bytes (a ++ b) = strip_nul_bytes a ++ strip_nul_bytes b.
Proof. apply filter_app. Qed.

Lemma strip_nul_bytes_id (bs : list byte) :
  Forall (fun b => byte_val b ≠ 0) bs -> strip_nul_bytes bs = bs.
Proof.
  induction 1 as [|b t Hb Ht IH]; [reflexivity|].
  unfold strip_nul_bytes in *. rewrite filter_cons_True by exact Hb.
  rewrite IH. reflexivity.
Qed.

(** Removing the NUL characters of a string removes the NUL bytes of its
    encoding. *)
Lemma utf8_encode_strip_nul (s : list Z) (bs : list byte) :
  utf8_encode s = Some bs ->
  utf8_encode (strip_nul s) = Some (strip_nul_bytes bs).
Proof.
  revert bs. induction s as [|c t IH]; intros bs H.
  - injection H as <-. reflexivity.
  - cbn [utf8_encode] in H.
    destruct (utf8_encode_char c) as [cb|] eqn:Ec; [|discriminate].
    destruct (utf8_encode t) as [r|] eqn:Et; [|discriminate].
    injection H as <-. rewrite strip_nul_bytes_app.
    specialize (IH r eq_refl). unfold strip_nul.
    destruct (decide (c = 0)) as [->|Hc].
    + rewrite filter_cons_False by (intros ?; congruence).
      rewrite utf8_encode_char_zero in Ec. injection Ec as <-.
      exact IH.
    + rewrite filter_cons_True by exact Hc.
      rewrite (strip_nul_bytes_id cb) by (eapply utf8_encode_char_nonzero; eauto).
      apply utf8_encode_cons; [exact Ec|exact IH].
Qed.

(** What [_rebuild_raw] makes of a decoded text slot: the slot without its
    NUL bytes. *)
Lemma utf8_strip_roundtrip (data : list byte) (s : list Z) :
  utf8_decode data = Some s ->
  utf8_encode (strip_nul s) = Some (strip_nul_bytes data).
Proof. intros H. apply utf8_encode_strip_nul, utf8_encode_decode, H. Qed.

(** ** Slices *)

Lemma py_slice_prefix {A} (l : list A) (n : Z) :
  0 <= n -> py_slice l 0 n = take (Z.to_nat n) l.
Proof.
  intros Hn. unfold py_slice, py_clamp.
  destruct (Z.ltb_spec n 0); [lia|]. simpl (0 <? 0). cbn iota.
  rewrite (Z.min_l 0) by lia. simpl (Z.to_nat 0). rewrite drop_0, Z.sub_0_r.
  destruct (Z.min_spec n (Z.of_nat (length l))) as [[_ ->]|[Hle ->]];
    [reflexivity|].
  rewrite Nat2Z.id, take_ge, take_ge by lia. reflexivity.
Qed.

(** The slice [raw[off:off+size]] of a buffer laid out as
    [pre ++ data ++ post], at the offset and size of [data]. *)
Lemma py_slice_middle {A} (pre data post : list A) :
  py_slice (pre ++ data ++ post) (Z.of_nat (length pre))
    (Z.of_nat (length pre) + Z.of_nat (length data)) = data.
Proof.
  unfold py_slice, py_clamp. rewrite !length_app.
  destruct (Z.ltb_spec (Z.of_nat (length pre)) 0); [lia|].
  destruct (Z.ltb_spec (Z.of_nat (length pre) + Z.of_nat (length data)) 0); [lia|].
  rewrite !Z.min_l by lia. rewrite Nat2Z.id, drop_app_length.
  replace (Z.to_nat _) with (length data) by lia.
  apply take_app_length.
Qed.

(** ** The engine's bookkeeping *)

Lemma bind_ok {A B} (a : A) (k : A -> result B) : (Ok a ≫= k) = k a.
Proof. reflexivity. Qed.

Lemma bind_err {A B} (e : exception) (k : A -> result B) : (Err e ≫= k) = Err e.
Proof. reflexivity. Qed.

Lemma bind_inv {A B} (r : result A) (k : A -> result B) (b : B) :
  (r ≫= k) = Ok b -> exists a, r = Ok a /\ k a = Ok b.
Proof. destruct r as [a|e]; [eauto|discriminate]. Qed.

Lemma same_engine_refl (a : Struct) : same_engine a a.
Proof. repeat split. Qed.

Lemma same_engine_trans (a b c : Struct) :
  same_engine a b -> same_engine b c -> same_engine a c.
Proof.
  unfold same_engine. intros (?&?&?&?&?) (?&?&?&?&?).
  repeat split; congruence.
Qed.

Lemma same_engine_setattr (a : Struct) (n : string) (v : py_value) :
  same_engine a (setattr a n v).
Proof. repeat split. Qed.

Lemma same_engine_set_fields (nvs : list (string * py_value)) (a : Struct) :
  same_engine a (set_fields a nvs).
Proof.
  revert a. induction nvs as [|[n v] t IH]; intros a; [apply same_engine_refl|].
  eapply same_engine_trans; [apply (same_engine_setattr a n v)|apply IH].
Qed.

Lemma set_fields_other (nvs : list (string * py_value)) (a : Struct) (n : string) :
  n ∉ nvs.*1 -> attrs (set_fields a nvs) !! n = attrs a !! n.
Proof.
  revert a. induction nvs as [|[n0 v0] t IH]; intros a Hn; [reflexivity|].
  cbn [fmap list_fmap fst] in Hn. apply not_elem_of_cons in Hn as [Hne Hn].
  cbn [set_fields foldl]. fold (set_fields (setattr a n0 v0) t).
  rewrite IH by exact Hn. cbn [setattr attrs].
  apply lookup_insert_ne. congruence.
Qed.

Lemma set_fields_lookup (nvs : list (string * py_value)) (a : Struct)
    (n : string) (v : py_value) :
  NoDup nvs.*1 -> (n, v) ∈ nvs -> attrs (set_fields a nvs) !! n = Some v.
Proof.
  revert a. induction nvs as [|[n0 v0] t IH]; intros a Hnd Hin.
  - apply elem_of_nil in Hin. destruct Hin.
  - cbn [fmap list_fmap fst] in Hnd. apply NoDup_cons in Hnd as [Hn0 Hnd].
    cbn [set_fields foldl]. fold (set_fields (setattr a n0 v0) t).
    apply elem_of_cons in Hin as [[= -> ->]|Hin].
    + rewrite set_fields_other by exact Hn0. cbn [setattr attrs].
      apply lookup_insert_eq.
    + apply IH; assumption.
Qed.

(** [Struct.__init__] gives every field name the entry of [_SIZES] at its
    index, when the names are distinct. *)
Lemma build_field_sizes_spec (fields : list string)
    (sizes : list (field_size struct_class)) (index : nat)
    (d : gmap string (field_size struct_class)) :
  NoDup fields -> (index + length fields <= length sizes)%nat ->
  exists d', build_field_sizes fields sizes index d = Ok d' /\
    (forall k f, fields !! k = Some f -> d' !! f = sizes !! (index + k)%nat) /\
    (forall f, f ∉ fields -> d' !! f = d !! f).
Proof.
  revert index d. induction fields as [|f0 t IH]; intros index d Hnd Hlen.
  - exists d. split; [reflexivity|]. split; [intros k f Hk; discriminate|done].
  - apply NoDup_cons in Hnd as [Hf0 Hnd]. cbn [length] in Hlen.
    cbn [build_field_sizes].
    destruct (sizes !! index) as [sz|] eqn:Esz;
      [|apply lookup_ge_None in Esz; lia].
    destruct (IH (S index) (<[f0 := sz]> d) Hnd ltac:(lia)) as (d' & Hb & Hk & Ho).
    exists d'. split; [exact Hb|]. split.
    + intros [|k] f Hf.
      * injection Hf as <-. rewrite Ho by exact Hf0.
        rewrite lookup_insert_eq, Nat.add_0_r. congruence.
      * rewrite (Hk k f Hf). f_equal. lia.
    + intros f Hf. apply not_elem_of_cons in Hf as [Hne Hf].
      rewrite Ho by exact Hf. apply lookup_insert_ne. congruence.
Qed.

Lemma new_instance_spec (c : struct_class) (bo : byte_order) :
  NoDup (_FIELDNAMES c) -> length (_FIELDNAMES c) = length (_SIZES c) ->
  exists inst, new_instance c bo = Ok inst /\
    cls inst = c /\ _fields inst = _FIELDNAMES c /\ byte_order_of inst = bo /\
    initialized inst = false /\
    Forall2 (fun f sz => _field_sizes inst !! f = Some sz)
      (_FIELDNAMES c) (_SIZES c).
Proof.
  intros Hnd Hlen. unfold new_instance.
  destruct (build_field_sizes_spec (_FIELDNAMES c) (_SIZES c) 0 ∅ Hnd ltac:(lia))
    as (d & -> & Hk & _).
  rewrite bind_ok. eexists. split; [reflexivity|].
  set (inst0 := {| cls := c; _fields := _FIELDNAMES c; _field_sizes := d;
                   byte_order_of := bo; initialized := false; attrs := ∅ |}).
  assert (Hsame : forall l, same_engine inst0
            (foldl (fun self '(n, z) => setattr self n (VInt z)) inst0 l)).
  { intros l. generalize inst0. induction l as [|[n z] t IH]; intros a;
      [apply same_engine_refl|].
    eapply same_engine_trans; [apply (same_engine_setattr a n (VInt z))|apply IH]. }
  destruct (Hsame (init_attrs c)) as (H1 & H2 & H3 & H4 & H5).
  rewrite <- H1, <- H2, <- H3, <- H4, <- H5. repeat split.
  apply Forall2_same_length_lookup. split; [exact Hlen|].
  intros k f sz Hf Hsz. cbn [inst0 _field_sizes]. rewrite (Hk k f Hf). exact Hsz.
Qed.

(** ** Decoding a buffer laid out field by field *)

Lemma layout_lengths d bo names tags datas vs :
  layout d bo names tags datas vs ->
  length names = length vs /\ length names = length tags /\
  length names = length datas.
Proof. induction 1; cbn [length]; intuition lia. Qed.

Lemma decode_fields_layout nested d bo names tags datas vs :
  layout d bo names tags datas vs ->
  forall inst inst_raw pre post,
    _field_sizes inst = d ->
    decode_fields nested (pre ++ concat datas ++ post) bo names
      (inst, inst_raw, Z.of_nat (length pre))
    = Ok (set_fields inst (zip names vs), inst_raw ++ concat datas,
          Z.of_nat (length pre) + Z.of_nat (length (concat datas))).
Proof.
  induction 1 as [|n tag data v names tags datas vs Hd Hlen Hdec _ IH];
    intros inst inst_raw pre post Hinst.
  - cbn. rewrite app_nil_r, Z.add_0_r. reflexivity.
  - cbn [decode_fields decode_field concat zip zip_with].
    rewrite Hinst, Hd, <- Hlen.
    replace (pre ++ (data ++ concat datas) ++ post)
      with (pre ++ data ++ (concat datas ++ post)) by (rewrite <- !app_assoc; done).
    rewrite py_slice_middle, Hdec, !bind_ok.
    replace (pre ++ data ++ concat datas ++ post)
      with ((pre ++ data) ++ concat datas ++ post) by (rewrite <- !app_assoc; done).
    replace (Z.of_nat (length pre) + Z.of_nat (length data))
      with (Z.of_nat (length (pre ++ data))) by (rewrite length_app; lia).
    rewrite (IH (setattr inst n v) (inst_raw ++ data) (pre ++ data) post Hinst).
    cbn [set_fields foldl]. rewrite !length_app, <- !app_assoc.
    f_equal. f_equal. lia.
Qed.

(** ** Rebuilding *)

Lemma rebuild_fields_spec (self : Struct) (names : list string)
    (datas : list (list byte)) (raw0 : list byte) :
  Forall2 (fun n data => rebuild_field self n = Ok data) names datas ->
  rebuild_fields self names raw0 = Ok (raw0 ++ concat datas).
Proof.
  intros H. revert raw0. induction H as [|n data names datas Hn _ IH]; intros raw0.
  - cbn. rewrite app_nil_r. reflexivity.
  - cbn [rebuild_fields concat]. rewrite Hn, bind_ok, IH, <- app_assoc.
    reflexivity.
Qed.

Lemma uint_tag_type (tag : Z) :
  is_uint_tag tag = true -> Z.land type_mask tag = type_uint.
Proof.
  unfold is_uint_tag. intros H. apply Z.eqb_eq in H.
  rewrite <- H, Z.land_assoc. reflexivity.
Qed.

Lemma size_mask_bound (tag : Z) : 0 <= Z.land size_mask tag <= size_mask.
Proof.
  assert (E : Z.land size_mask tag = tag mod 65536).
  { change size_mask with (Z.ones 16).
    rewrite Z.land_comm, Z.land_ones by lia. reflexivity. }
  rewrite E. pose proof (Z.mod_pos_bound tag 65536 ltac:(lia)).
  unfold size_mask. lia.
Qed.

Lemma rebuild_decoded_field (self : Struct) (n : string) (tag : Z)
    (data : list byte) (v : py_value) :
  _field_sizes self !! n = Some (SizeInt tag) ->
  attrs self !! n = Some v ->
  codec_tag tag = true ->
  Z.of_nat (length data) = Z.land size_mask tag ->
  decode_int_field tag data (byte_order_of self) = Ok v ->
  rebuild_field self n = Ok (rebuilt_slice tag data).
Proof.
  intros Hsz Hat Htag Hlen Hdec.
  unfold rebuild_field. rewrite Hsz, Hat.
  unfold decode_int_field in Hdec. unfold rebuilt_slice, is_str_tag.
  destruct (Z.land type_mask tag =? type_str) eqn:Es.
  { destruct (utf8_decode data) as [s|] eqn:Eu; [|discriminate].
    injection Hdec as <-. rewrite (utf8_strip_roundtrip data s Eu). reflexivity. }
  destruct (Z.land type_mask tag =? type_bytes) eqn:Eb.
  { injection Hdec as <-. reflexivity. }
  unfold codec_tag, is_str_tag, is_bytes_tag in Htag. rewrite Es, Eb in Htag.
  rewrite !orb_false_r in Htag.
  rewrite (uint_tag_type tag Htag) in Hdec. cbn in Hdec. injection Hdec as <-.
  unfold is_uint_tag in Htag. apply Z.eqb_eq in Htag.
  pose proof (size_mask_bound tag) as Hb. rewrite <- Hlen in Hb.
  rewrite Htag in Hlen. rewrite <- Hlen. apply int_to_from_bytes.
  unfold size_mask, ssize_t_max in *. lia.
Qed.

Lemma decode_int_field_ok (tag : Z) (data : list byte) (bo : byte_order) :
  valid_slot tag data -> exists v, decode_int_field tag data bo = Ok v.
Proof.
  intros (Htag & _ & Hstr). unfold decode_int_field.
  unfold is_str_tag in Hstr.
  destruct (Z.land type_mask tag =? type_str) eqn:Es.
  { destruct (Hstr eq_refl) as [s ->]. eauto. }
  destruct (Z.land type_mask tag =? type_bytes) eqn:Eb; [eauto|].
  unfold codec_tag, is_str_tag, is_bytes_tag in Htag. rewrite Es, Eb in Htag.
  rewrite !orb_false_r in Htag. rewrite (uint_tag_type tag Htag). cbn. eauto.
Qed.

Lemma layout_exists d bo names tags datas :
  Forall2 (fun f sz => d !! f = Some sz) names (SizeInt <$> tags) ->
  Forall2 valid_slot tags datas ->
  exists vs, layout d bo names tags datas vs.
Proof.
  intros Hn Ht. revert names Hn.
  induction Ht as [|tag data tags datas Hv _ IH]; intros names Hn.
  - apply Forall2_nil_inv_r in Hn as ->. exists []. constructor.
  - cbn [fmap list_fmap] in Hn.
    apply Forall2_cons_inv_r in Hn as (n & names' & Hd & Hn & ->).
    destruct (IH names' Hn) as (vs & Hl).
    destruct (decode_int_field_ok tag data bo Hv) as (v & Hdec).
    exists (v :: vs). constructor; [exact Hd|apply Hv|exact Hdec|exact Hl].
Qed.

Lemma layout_rebuild d bo names tags datas vs (self : Struct) :
  layout d bo names tags datas vs ->
  _field_sizes self = d -> byte_order_of self = bo ->
  Forall (fun tag => codec_tag tag = true) tags ->
  (forall n v, (n, v) ∈ zip names vs -> attrs self !! n = Some v) ->
  Forall2 (fun n data => rebuild_field self n = Ok data) names
    (zip_with rebuilt_slice tags datas).
Proof.
  intros Hl Hd Hbo. induction Hl as [|n tag data v names tags datas vs H1 H2 H3 _ IH];
    intros Htags Hat; [constructor|].
  apply Forall_cons in Htags as [Htag Htags].
  cbn [zip_with]. constructor.
  - apply (rebuild_decoded_field self n tag data v); try done.
    + congruence.
    + apply Hat. cbn. apply list_elem_of_here.
    + congruence.
  - apply IH; [exact Htags|]. intros n' v' Hin. apply Hat. cbn.
    apply list_elem_of_further, Hin.
Qed.

(** ** [pre_init] leaves the fields alone *)

Lemma bitfield_loop_frame (names : list string) (self self' : Struct)
    (value : py_value) (sizes : list Z) (i : nat) (cur : Z) :
  bitfield_loop self value sizes i names cur = Ok self' ->
  same_engine self self' /\
  forall n, n ∉ names -> attrs self' !! n = attrs self !! n.
Proof.
  revert self i cur. induction names as [|bf rest IH]; intros self i cur H.
  - injection H as <-. split; [apply same_engine_refl|done].
  - cbn [bitfield_loop] in H.
    destruct (sizes !! i) as [bf_size|]; [|discriminate].
    destruct (int_of_ones bf_size) as [mask|]; [|discriminate].
    rewrite bind_ok in H. destruct value as [|v| | |]; try discriminate.
    apply IH in H as [Hs Ha]. split.
    + eapply same_engine_trans; [apply same_engine_setattr|exact Hs].
    + intros n Hn. apply not_elem_of_cons in Hn as [Hne Hn].
      rewrite Ha by exact Hn. cbn [setattr attrs].
      apply lookup_insert_ne. congruence.
Qed.

Lemma pre_init_frame (self self' : Struct) :
  pre_init self = Ok self' ->
  same_engine self self' /\
  forall n, n ∉ bitfield_names (cls self) -> attrs self' !! n = attrs self !! n.
Proof.
  unfold pre_init, bitfield_names. destruct (kind (cls self)) as [|names sizes].
  - intros [= <-]. split; [apply same_engine_refl|done].
  - destruct (negb _); [discriminate|].
    destruct (attrs self !! "value"%string) as [value|]; [|discriminate].
    apply bitfield_loop_frame.
Qed.

Lemma materialize_frame (self self' : Struct) :
  materialize self = Ok self' ->
  cls self' = cls self /\ _fields self' = _fields self /\
  _field_sizes self' = _field_sizes self /\
  byte_order_of self' = byte_order_of self /\
  forall n, n ∉ bitfield_names (cls self) -> attrs self' !! n = attrs self !! n.
Proof.
  unfold materialize, post_init. intros H.
  apply bind_inv in H as (s1 & Hp & [= <-]).
  apply pre_init_frame in Hp as ((?&?&?&?&?) & Ha).
  cbn [set_initialized cls _fields _field_sizes byte_order_of attrs].
  repeat split; try congruence. exact Ha.
Qed.

Lemma materialize_plain (self : Struct) :
  kind (cls self) = PlainStruct ->
  materialize self = Ok (set_initialized self true).
Proof. intros H. unfold materialize, pre_init. rewrite H. reflexivity. Qed.

(** ** Decoding, then reading [raw] *)

Lemma flat_class_depth (c : struct_class) (tags : list Z) :
  _SIZES c = SizeInt <$> tags -> class_depth c = O.
Proof.
  destruct c as [nm k names sizes size init]. cbn [_SIZES class_depth].
  intros ->. induction tags as [|t ts IH]; [reflexivity|exact IH].
Qed.

Lemma field_not_raw (c : struct_class) (n : string) :
  well_formed c -> n ∈ _FIELDNAMES c -> n ≠ "raw"%string.
Proof.
  intros (_ & _ & Hres & _) Hn ->.
  rewrite Forall_app in Hres. destruct Hres as [Hres _].
  rewrite Forall_forall in Hres. apply (Hres _ Hn).
  unfold reserved_names. set_solver.
Qed.

Lemma field_not_bitfield (c : struct_class) (n : string) :
  well_formed c -> n ∈ _FIELDNAMES c -> n ∉ bitfield_names c.
Proof.
  intros (_ & _ & _ & Hbf) Hn Hin.
  rewrite Forall_forall in Hbf. exact (Hbf _ Hin Hn).
Qed.

Lemma decode_then_raw (c : struct_class) (tags : list Z)
    (datas : list (list byte)) (bo : byte_order) :
  well_formed c ->
  _SIZES c = SizeInt <$> tags ->
  Forall2 valid_slot tags datas ->
  SIZE c = Z.of_nat (length (concat datas)) ->
  (kind c = PlainStruct ->
   exists inst, create_with_bytes c (concat datas) bo = Ok inst) /\
  (forall inst, create_with_bytes c (concat datas) bo = Ok inst ->
   raw inst = Ok (concat (zip_with rebuilt_slice tags datas))).
Proof.
  intros Hwf Hsizes Hslots Hsize.
  pose proof Hwf as (Hnd & Hlen & _).
  destruct (new_instance_spec c bo Hnd Hlen)
    as (inst0 & Hnew & Hcls & Hfields & Hbo & _ & Hlook).
  rewrite Hsizes in Hlook.
  destruct (layout_exists (_field_sizes inst0) bo _ _ _ Hlook Hslots) as (vs & Hlay).
  destruct (layout_lengths _ _ _ _ _ _ Hlay) as (Hlvs & _ & _).
  set (inst1 := setattr (set_fields inst0 (zip (_FIELDNAMES c) vs)) "raw"
                  (VBytes (concat datas))).
  assert (Hrun : create_with_bytes c (concat datas) bo = materialize inst1).
  { unfold create_with_bytes. rewrite (flat_class_depth c tags Hsizes).
    cbn [create_with_bytes_rec]. rewrite Hnew, bind_ok.
    rewrite py_slice_prefix, Hsize, Nat2Z.id, take_ge by lia.
    rewrite Hfields.
    pose proof (decode_fields_layout (fun _ _ => Err RecursionError)
      _ _ _ _ _ _ Hlay inst0 [] [] [] eq_refl) as Hloop.
    cbn [app length] in Hloop. rewrite app_nil_r in Hloop.
    change (Z.of_nat 0) with 0 in Hloop. rewrite Hloop, bind_ok. reflexivity. }
  destruct (same_engine_set_fields (zip (_FIELDNAMES c) vs) inst0)
    as (Hc1 & Hf1 & Hs1 & Hb1 & _).
  assert (Hcls1 : cls inst1 = c) by (cbn [inst1 setattr cls]; congruence).
  split.
  - intros Hplain. rewrite Hrun, materialize_plain by congruence. eauto.
  - intros inst Hinst. rewrite Hrun in Hinst.
    apply materialize_frame in Hinst as (Hc & Hf & Hs & Hb & Ha).
    unfold raw, _rebuild_raw. rewrite Hf. cbn [inst1 setattr _fields].
    rewrite <- Hf1, Hfields.
    apply (rebuild_fields_spec inst (_FIELDNAMES c) _ []).
    apply (layout_rebuild _ _ _ _ _ _ inst Hlay).
    + rewrite Hs. cbn [inst1 setattr _field_sizes]. congruence.
    + rewrite Hb. cbn [inst1 setattr byte_order_of]. congruence.
    + apply Forall_forall. intros tag Htag.
      apply list_elem_of_lookup in Htag as [k Hk].
      destruct (Forall2_lookup_l _ _ _ _ _ Hslots Hk) as (data & _ & Hv).
      apply Hv.
    + intros n v Hin.
      assert (Hn : n ∈ _FIELDNAMES c).
      { apply (elem_of_zip_l _ _ _ _ Hin). }
      rewrite Ha by (rewrite Hcls1; apply field_not_bitfield; assumption).
      cbn [inst1 setattr attrs].
      rewrite lookup_insert_ne
        by (intros E; apply (field_not_raw c n Hwf Hn); congruence).
      apply set_fields_lookup; [|exact Hin].
      rewrite fst_zip by lia. exact Hnd.
Qed.

(** ** Signed integers *)

Lemma land_sign_bit (u k : Z) :
  0 <= k -> (Z.land u (Z.shiftl 1 k) =? 0) = negb (Z.testbit u k).
Proof.
  intros Hk. rewrite Z.shiftl_1_l.
  assert (H : Z.land u (2 ^ k) = if Z.testbit u k then 2 ^ k else 0).
  { apply Z.bits_inj'. intros n Hn. rewrite Z.land_spec, Z.pow2_bits_eqb by lia.
    destruct (Z.eqb_spec k n) as [->|Hne].
    - destruct (Z.testbit u n); [rewrite Z.pow2_bits_true by lia; reflexivity|].
      rewrite Z.bits_0. reflexivity.
    - rewrite andb_false_r.
      destruct (Z.testbit u k); [rewrite Z.pow2_bits_false by lia; reflexivity|].
      rewrite Z.bits_0. reflexivity. }
  rewrite H. destruct (Z.testbit u k); [|reflexivity].
  apply Z.eqb_neq. pose proof (Z.pow_pos_nonneg 2 k). lia.
Qed.

Lemma uint_to_int_spec (uint bits : Z) :
  0 < bits ->
  _uint_to_int uint bits
  = Ok (if Z.testbit uint (bits - 1) then uint - 2 ^ bits else uint).
Proof.
  intros Hb. unfold _uint_to_int.
  destruct (Z.ltb_spec (bits - 1) 0); [lia|].
  rewrite land_sign_bit, negb_involutive, Z.shiftl_1_l by lia.
  destruct (Z.testbit uint (bits - 1)); reflexivity.
Qed.

(** The sign bit of a [bits]-bit pattern is set exactly from [2^(bits-1)] on. *)
Lemma sign_bit_threshold (u bits : Z) :
  0 < bits -> 0 <= u < 2 ^ bits ->
  Z.testbit u (bits - 1) = (2 ^ (bits - 1) <=? u).
Proof.
  intros Hb Hu.
  assert (Hp : 2 ^ bits = 2 * 2 ^ (bits - 1))
    by (rewrite <- Z.pow_succ_r by lia; f_equal; lia).
  pose proof (Z.pow_pos_nonneg 2 (bits - 1) ltac:(lia) ltac:(lia)) as Hh.
  assert (Hq : 0 <= u / 2 ^ (bits - 1) < 2)
    by (split; [apply Z.div_pos; lia|apply Z.div_lt_upper_bound; lia]).
  pose proof (Z.div_mod u (2 ^ (bits - 1)) ltac:(lia)) as Hdm.
  pose proof (Z.mod_pos_bound u (2 ^ (bits - 1)) Hh) as Hm.
  destruct (Z.testbit u (bits - 1)) eqn:E.
  - apply Z.testbit_true in E; [|lia]. symmetry. apply Z.leb_le.
    assert (u / 2 ^ (bits - 1) = 1).
    { destruct (Z.eq_dec (u / 2 ^ (bits - 1)) 0) as [E0|]; [|lia].
      rewrite E0 in E. discriminate. }
    nia.
  - symmetry. apply Z.leb_gt.
    assert (u / 2 ^ (bits - 1) = 0).
    { destruct (Z.eq_dec (u / 2 ^ (bits - 1)) 1) as [E1|]; [|lia].
      assert (Z.testbit u (bits - 1) = true)
        by (apply Z.testbit_true; [lia|rewrite E1; reflexivity]).
      congruence. }
    nia.
Qed.

Lemma uint_to_int_twos_complement (u bits : Z) :
  0 < bits -> 0 <= u < 2 ^ bits ->
  twos_complement u bits
    (if Z.testbit u (bits - 1) then u - 2 ^ bits else u).
Proof.
  intros Hb Hu. rewrite sign_bit_threshold by assumption.
  assert (Hp : 2 ^ bits = 2 * 2 ^ (bits - 1))
    by (rewrite <- Z.pow_succ_r by lia; f_equal; lia).
  unfold twos_complement.
  destruct (Z.leb_spec (2 ^ (bits - 1)) u).
  - split; [lia|].
    replace (u - 2 ^ bits) with (u + (-1) * 2 ^ bits) by lia.
    rewrite Z.mod_add, Z.mod_small; lia.
  - split; [lia|]. apply Z.mod_small. lia.
Qed.

(** C5.  A signed integer field of width 1, 2, 4 or 8 bytes decodes to the
    unsigned reading of its slice in the given byte order, less [2^(8w)]
    when bit [8w - 1] is set, and this is the two's-complement value of the
    bit pattern. *)
Theorem signed_field_twos_complement (w : Z) (data : list byte) (bo : byte_order) :
  w ∈ [1; 2; 4; 8] ->
  Z.of_nat (length data) = w ->
  let u := int_from_bytes data bo in
  let v := if Z.testbit u (w * 8 - 1) then u - 2 ^ (w * 8) else u in
  decode_int_field (Z.lor type_sint w) data bo = Ok (VInt v) /\
  twos_complement u (w * 8) v.
Proof.
  intros Hw Hlen u v.
  assert (Hw0 : 0 < w).
  { clear -Hw. repeat (apply elem_of_cons in Hw as [->|Hw]); try lia.
    apply elem_of_nil in Hw. done. }
  assert (Hu : 0 <= u < 2 ^ (w * 8)).
  { assert (Hr : 0 <= u < 256 ^ Z.of_nat (length data)).
    { subst u. destruct bo; cbn [int_from_bytes];
        [|rewrite <- (length_reverse data)]; apply from_bytes_le_range. }
    rewrite Hlen in Hr. replace (2 ^ (w * 8)) with (256 ^ w); [exact Hr|].
    change 256 with (2 ^ 8). rewrite <- Z.pow_mul_r by lia. f_equal. lia. }
  assert (Hpos : 0 < w * 8) by lia.
  split; [|apply uint_to_int_twos_complement; assumption].
  assert (Hdec : forall tag, Z.land type_mask tag = type_sint ->
            Z.land size_mask tag = w ->
            decode_int_field tag data bo = Ok (VInt v)).
  { intros tag Ht Hs. unfold decode_int_field. rewrite Ht, Hs. cbn [Z.eqb type_sint
      type_str type_bytes type_uint Pos.eqb].
    fold u. rewrite uint_to_int_spec by exact Hpos. reflexivity. }
  repeat (apply elem_of_cons in Hw as [->|Hw]); [..|apply elem_of_nil in Hw; done];
    apply Hdec; reflexivity.
Qed.

Lemma signed_field_twos_complement_witness :
  decode_int_field int8_t [xff] Little = Ok (VInt (-1)) /\
  decode_int_field int8_t [x80] Little = Ok (VInt (-128)) /\
  decode_int_field int8_t [x7f] Big = Ok (VInt 127).
Proof.
  split; [|split].
  - apply (signed_field_twos_complement 1 [xff] Little);
      [apply list_elem_of_here|reflexivity].
  - apply (signed_field_twos_complement 1 [x80] Little);
      [apply list_elem_of_here|reflexivity].
  - apply (signed_field_twos_complement 1 [x7f] Big);
      [apply list_elem_of_here|reflexivity].
Defined.

(** ** Fixed-width text *)

Lemma strip_nul_no_nul (s : list Z) : 0 ∉ strip_nul s.
Proof.
  unfold strip_nul. intros H. apply list_elem_of_filter in H as [H _]. done.
Qed.

Lemma strip_nul_middle (a b : list Z) :
  strip_nul (a ++ 0 :: b) = strip_nul (a ++ b).
Proof.
  unfold strip_nul. rewrite !filter_app, filter_cons_False by (intros H; done).
  reflexivity.
Qed.

Lemma strip_nul_id (s : list Z) : 0 ∉ s -> strip_nul s = s.
Proof.
  unfold strip_nul. induction s as [|c t IH]; intros Hs; [reflexivity|].
  apply not_elem_of_cons in Hs as [Hc Ht].
  rewrite filter_cons_True by congruence. f_equal. apply IH, Ht.
Qed.

(** C7.  A text field decodes its slice as UTF-8 and drops every NUL
    character, wherever it stands; the 16-byte slot "__TEXT" followed by ten
    NUL bytes decodes to the six characters of "__TEXT". *)
Theorem text_field_strips_every_nul (tag : Z) (data : list byte)
    (bo : byte_order) (s : list Z) :
  is_str_tag tag = true ->
  utf8_decode data = Some s ->
  decode_int_field tag data bo = Ok (VStr (strip_nul s)) /\
  (0 ∉ strip_nul s) /\
  (forall a b, s = a ++ 0 :: b -> strip_nul s = strip_nul (a ++ b)) /\
  ((0 ∉ s) -> strip_nul s = s).
Proof.
  intros Htag Hdec. unfold is_str_tag in Htag. split; [|split; [|split]].
  - unfold decode_int_field. rewrite Htag, Hdec. reflexivity.
  - apply strip_nul_no_nul.
  - intros a b ->. apply strip_nul_middle.
  - apply strip_nul_id.
Qed.

Lemma text_field_strips_every_nul_witness :
  decode_int_field (char_t 16)
    [x5f; x5f; x54; x45; x58; x54; x00; x00; x00; x00; x00; x00; x00; x00;
     x00; x00] Little
  = Ok (VStr [95; 95; 84; 69; 88; 84]).
Proof.
  apply (text_field_strips_every_nul (char_t 16)
           [x5f; x5f; x54; x45; x58; x54; x00; x00; x00; x00; x00; x00; x00;
            x00; x00; x00] Little
           [95; 95; 84; 69; 88; 84; 0; 0; 0; 0; 0; 0; 0; 0; 0; 0]);
    reflexivity.
Defined.

(** The same through [create_with_bytes], on the [segname] of a
    [segment_command]. *)
Example segname_decodes :
  field_of (create_with_bytes segment_command text_segment Little) "segname"
  = Some (VStr [95; 95; 84; 69; 88; 84]).
Proof. vm_compute. reflexivity. Qed.

(** ** Decoding and rebuilding *)

Lemma rebuilt_exact_slots (tags : list Z) (datas : list (list byte)) :
  Forall2 exact_slot tags datas -> zip_with rebuilt_slice tags datas = datas.
Proof.
  induction 1 as [|tag data tags datas [_ Hn] _ IH]; [reflexivity|].
  cbn [zip_with]. rewrite IH. f_equal. unfold rebuilt_slice.
  destruct (is_str_tag tag); [|reflexivity].
  apply strip_nul_bytes_id, Hn. reflexivity.
Qed.

(** C1, as the code has it.  For a well-formed class (its names outside
    [reserved_names]) of unsigned-integer, bytes and text fields and a
    buffer of [SIZE] bytes whose text slots are valid UTF-8 without NUL
    bytes, the [raw] of the decoded instance is the buffer, in both byte
    orders. *)
Theorem decode_rebuild_roundtrip (c : struct_class) (tags : list Z)
    (datas : list (list byte)) (bo : byte_order) :
  well_formed c ->
  _SIZES c = SizeInt <$> tags ->
  Forall2 exact_slot tags datas ->
  SIZE c = Z.of_nat (length (concat datas)) ->
  (kind c = PlainStruct ->
   exists inst, create_with_bytes c (concat datas) bo = Ok inst) /\
  (forall inst, create_with_bytes c (concat datas) bo = Ok inst ->
   raw inst = Ok (concat datas)).
Proof.
  intros Hwf Hsizes Hslots Hsize.
  assert (Hvalid : Forall2 valid_slot tags datas).
  { eapply Forall2_impl; [exact Hslots|]. intros tag data [Hv _]. exact Hv. }
  destruct (decode_then_raw c tags datas bo Hwf Hsizes Hvalid Hsize) as [Hok Hraw].
  split; [exact Hok|]. intros inst Hinst.
  rewrite (Hraw inst Hinst), (rebuilt_exact_slots tags datas Hslots). reflexivity.
Qed.

Lemma segment_command_well_formed : well_formed segment_command.
Proof. by_evaluation. Defined.

Lemma decode_rebuild_roundtrip_witness :
  exists inst,
    create_with_bytes segment_command (concat full_name_slots) Big = Ok inst /\
    raw inst = Ok (concat full_name_slots).
Proof.
  destruct (decode_rebuild_roundtrip segment_command segment_command_tags
              full_name_slots Big) as [Hok Hraw].
  - exact segment_command_well_formed.
  - reflexivity.
  - by_evaluation.
  - reflexivity.
  - destruct (Hok eq_refl) as [inst Hinst]. exists inst.
    split; [exact Hinst|exact (Hraw inst Hinst)].
Defined.

Example raw_of_text_segment :
  raw_of_decoded segment_command text_segment Little = Ok text_segment_raw.
Proof. vm_compute. reflexivity. Qed.

Lemma raw_of_decoded_inv (c : struct_class) (B r : list byte) (bo : byte_order) :
  raw_of_decoded c B bo = Ok r ->
  exists inst, create_with_bytes c B bo = Ok inst /\ raw inst = Ok r.
Proof. apply bind_inv. Qed.

(** C1 fails on a text slot padded with NUL bytes: the [raw] of the decoded
    [text_segment] has lost the ten NUL bytes of [segname]. *)
Lemma padded_text_not_rebuilt :
  Z.of_nat (length text_segment) = SIZE segment_command /\
  exists inst,
    create_with_bytes segment_command text_segment Little = Ok inst /\
    raw inst ≠ Ok text_segment.
Proof.
  split; [reflexivity|].
  destruct (raw_of_decoded_inv _ _ _ _ raw_of_text_segment) as (inst & Hinst & Hraw).
  exists inst. split; [exact Hinst|].
  rewrite Hraw. intros [=].
Qed.

(** ** The length of [raw] *)

Lemma length_strip_nul_bytes (data : list byte) :
  (length (strip_nul_bytes data) + count_nul data = length data)%nat.
Proof.
  unfold strip_nul_bytes, count_nul. induction data as [|b t IH]; [reflexivity|].
  destruct (decide (byte_val b = 0)) as [Hb|Hb].
  - rewrite filter_cons_False by (intros H; exact (H Hb)).
    rewrite filter_cons_True by exact Hb. cbn [length]. lia.
  - rewrite filter_cons_True by exact Hb.
    rewrite filter_cons_False by exact Hb. cbn [length]. lia.
Qed.

Lemma length_rebuilt_slices (tags : list Z) (datas : list (list byte)) :
  length tags = length datas ->
  (length (concat (zip_with rebuilt_slice tags datas)) + nul_bytes tags datas
   = length (concat datas))%nat.
Proof.
  revert datas. induction tags as [|tag tags IH]; intros [|data datas] Hlen;
    try discriminate; [reflexivity|].
  injection Hlen as Hlen. specialize (IH datas Hlen).
  unfold nul_bytes in *. cbn [zip_with concat foldr]. rewrite !length_app.
  unfold rebuilt_slice at 1. pose proof (length_strip_nul_bytes data).
  destruct (is_str_tag tag); lia.
Qed.

(** C9, as the code has it.  For a well-formed class (its names outside
    [reserved_names]) of unsigned-integer, bytes and text fields, the [raw]
    of an instance decoded from a buffer of [SIZE] bytes has [SIZE] bytes
    less the NUL bytes that stood in the text slots. *)
Theorem raw_length_after_decode (c : struct_class) (tags : list Z)
    (datas : list (list byte)) (bo : byte_order) :
  well_formed c ->
  _SIZES c = SizeInt <$> tags ->
  Forall2 valid_slot tags datas ->
  SIZE c = Z.of_nat (length (concat datas)) ->
  (kind c = PlainStruct ->
   exists inst, create_with_bytes c (concat datas) bo = Ok inst) /\
  (forall inst, create_with_bytes c (concat datas) bo = Ok inst ->
   exists r, raw inst = Ok r /\
     Z.of_nat (length r) = SIZE c - Z.of_nat (nul_bytes tags datas)).
Proof.
  intros Hwf Hsizes Hslots Hsize.
  destruct (decode_then_raw c tags datas bo Hwf Hsizes Hslots Hsize) as [Hok Hraw].
  split; [exact Hok|]. intros inst Hinst. eexists. split; [exact (Hraw inst Hinst)|].
  pose proof (length_rebuilt_slices tags datas (Forall2_length _ _ _ Hslots)).
  lia.
Qed.

Lemma raw_length_after_decode_witness :
  exists inst r,
    create_with_bytes segment_command (concat text_segment_slots) Little
    = Ok inst /\
    raw inst = Ok r /\
    Z.of_nat (length r)
    = SIZE segment_command
      - Z.of_nat (nul_bytes segment_command_tags text_segment_slots).
Proof.
  destruct (raw_length_after_decode segment_command segment_command_tags
              text_segment_slots Little) as [Hok Hraw].
  - exact segment_command_well_formed.
  - reflexivity.
  - by_evaluation.
  - reflexivity.
  - destruct (Hok eq_refl) as [inst Hinst].
    destruct (Hraw inst Hinst) as (r & Hr & Hlen).
    exists inst, r. split; [exact Hinst|]. split; [exact Hr|exact Hlen].
Defined.

Example text_segment_nul_bytes :
  concat text_segment_slots = text_segment /\
  nul_bytes segment_command_tags text_segment_slots = 10%nat.
Proof. split; vm_compute; reflexivity. Qed.

(** C9 fails on the decoded [text_segment]: its [raw] has 46 bytes, not the
    56 of [SIZE]. *)
Lemma padded_text_raw_is_short :
  exists inst r,
    create_with_bytes segment_command text_segment Little = Ok inst /\
    raw inst = Ok r /\ length r = 46%nat /\
    Z.of_nat (length r) ≠ SIZE segment_command.
Proof.
  destruct (raw_of_decoded_inv _ _ _ _ raw_of_text_segment) as (inst & Hinst & Hraw).
  exists inst, text_segment_raw. split; [exact Hinst|]. split; [exact Hraw|].
  split; [reflexivity|]. vm_compute. discriminate.
Qed.

(** ** The length of the buffer *)

Lemma create_with_bytes_excess (c : struct_class) (B extra : list byte)
    (bo : byte_order) :
  Z.of_nat (length B) = SIZE c ->
  create_with_bytes c (B ++ extra) bo = create_with_bytes c B bo.
Proof.
  intros Hlen. unfold create_with_bytes. cbn [create_with_bytes_rec].
  rewrite !py_slice_prefix by lia. rewrite <- Hlen, Nat2Z.id.
  rewrite take_app_length, take_ge by lia. reflexivity.
Qed.

Lemma decode_int_field_total (tag : Z) (data : list byte) (bo : byte_order) :
  total_tag tag = true -> exists v, decode_int_field tag data bo = Ok v.
Proof.
  unfold total_tag, is_str_tag, decode_int_field. intros H.
  apply andb_true_iff in H as [Hs Ht]. apply negb_true_iff in Hs. rewrite Hs.
  destruct (Z.land type_mask tag =? type_bytes); [eauto|].
  destruct (Z.land type_mask tag =? type_uint); [eauto|].
  destruct (Z.land type_mask tag =? type_sint); [|eauto].
  cbn in Ht. apply Z.ltb_lt in Ht.
  rewrite uint_to_int_spec by lia. cbn. eauto.
Qed.

Lemma decode_fields_total nested raw bo d (names : list string) (tags : list Z) :
  Forall2 (fun n tag => d !! n = Some (SizeInt tag)) names tags ->
  Forall (fun tag => total_tag tag = true) tags ->
  forall inst inst_raw off, _field_sizes inst = d ->
  exists st', decode_fields nested raw bo names (inst, inst_raw, off) = Ok st' /\
    same_engine inst st'.1.1.
Proof.
  induction 1 as [|n tag names tags Hn _ IH]; intros Htags inst inst_raw off Hd.
  - eexists. split; [reflexivity|apply same_engine_refl].
  - apply Forall_cons in Htags as [Htag Htags].
    cbn [decode_fields decode_field]. rewrite Hd, Hn.
    destruct (decode_int_field_total tag
                (py_slice raw off (off + Z.land size_mask tag)) bo Htag)
      as (v & ->).
    rewrite !bind_ok.
    destruct (IH Htags (setattr inst n v)
                (inst_raw ++ py_slice raw off (off + Z.land size_mask tag))
                (off + Z.land size_mask tag) Hd) as (st' & -> & Hs).
    eexists. split; [reflexivity|].
    eapply same_engine_trans; [apply same_engine_setattr|exact Hs].
Qed.

(** C2 fails on a truncated buffer: five bytes decode as a [fat_header]
    without an error, the second field from the one byte left to it. *)
Lemma truncated_buffer_decodes :
  Z.of_nat (length truncated_fat_header) < SIZE fat_header /\
  is_ok (create_with_bytes fat_header truncated_fat_header Little) = true /\
  field_of (create_with_bytes fat_header truncated_fat_header Little) "magic"
  = Some (VInt 0x04030201) /\
  field_of (create_with_bytes fat_header truncated_fat_header Little) "nfat_archs"
  = Some (VInt 5).
Proof. repeat split; vm_compute; reflexivity. Qed.

(** ** Both constructors end in [materialize] *)

Lemma foldl_setattr_same_engine (l : list (string * Z)) (a : Struct) :
  same_engine a (foldl (fun self '(n, z) => setattr self n (VInt z)) a l).
Proof.
  revert a. induction l as [|[n z] t IH]; intros a; [apply same_engine_refl|].
  eapply same_engine_trans; [apply (same_engine_setattr a n (VInt z))|apply IH].
Qed.

Lemma new_instance_inv (c : struct_class) (bo : byte_order) (inst : Struct) :
  new_instance c bo = Ok inst ->
  cls inst = c /\ _fields inst = _FIELDNAMES c /\ byte_order_of inst = bo /\
  build_field_sizes (_FIELDNAMES c) (_SIZES c) 0 ∅ = Ok (_field_sizes inst).
Proof.
  unfold new_instance. intros H. apply bind_inv in H as (d & Hd & [= <-]).
  match goal with |- context [foldl ?f ?a ?l] =>
    destruct (foldl_setattr_same_engine l a) as (H1 & H2 & H3 & H4 & _)
  end.
  rewrite <- H1, <- H2, <- H3, <- H4. repeat split. exact Hd.
Qed.

Lemma decode_field_same_engine nested raw bo (st st' : Struct * list byte * Z)
    (field : string) :
  decode_field nested raw bo st field = Ok st' -> same_engine st.1.1 st'.1.1.
Proof.
  destruct st as [[inst inst_raw] off]. unfold decode_field.
  destruct (_field_sizes inst !! field) as [[tag|ch]|]; [| |discriminate];
    intros H; apply bind_inv in H as (v & _ & [= <-]); apply same_engine_setattr.
Qed.

Lemma decode_fields_same_engine nested raw bo (names : list string)
    (st st' : Struct * list byte * Z) :
  decode_fields nested raw bo names st = Ok st' -> same_engine st.1.1 st'.1.1.
Proof.
  revert st. induction names as [|n names IH]; intros st H.
  - injection H as <-. apply same_engine_refl.
  - cbn [decode_fields] in H. apply bind_inv in H as (st1 & H1 & H2).
    eapply same_engine_trans;
      [eapply decode_field_same_engine, H1|apply IH, H2].
Qed.

Lemma create_with_bytes_rec_inv (n : nat) (c : struct_class) (raw : list byte)
    (bo : byte_order) (inst : Struct) :
  create_with_bytes_rec n c raw bo = Ok inst ->
  exists inst1, cls inst1 = c /\ byte_order_of inst1 = bo /\
    materialize inst1 = Ok inst.
Proof.
  destruct n as [|n]; [discriminate|]. cbn [create_with_bytes_rec]. intros H.
  apply bind_inv in H as (inst0 & Hnew & H).
  apply bind_inv in H as ([[inst1 inst_raw] off] & Hloop & H).
  apply new_instance_inv in Hnew as (Hc & _ & Hb & _).
  apply decode_fields_same_engine in Hloop as (Hc1 & _ & _ & Hb1 & _).
  cbn in Hc1, Hb1.
  exists (setattr inst1 "raw" (VBytes inst_raw)).
  cbn [setattr cls byte_order_of]. repeat split; congruence.
Qed.

Lemma set_values_same_engine (names : list string) (values : list py_value)
    (i : nat) (a b : Struct) :
  set_values a names values i = Ok b -> same_engine a b.
Proof.
  revert a i. induction names as [|n names IH]; intros a i H.
  - injection H as <-. apply same_engine_refl.
  - cbn [set_values] in H. destruct (values !! i) as [v|]; [|discriminate].
    eapply same_engine_trans; [apply (same_engine_setattr a n v)|eapply IH, H].
Qed.

Lemma create_with_values_inv (c : struct_class) (values : list py_value)
    (bo : byte_order) (inst : Struct) :
  create_with_values c values bo = Ok inst ->
  exists inst1, cls inst1 = c /\ byte_order_of inst1 = bo /\
    is_ok (_rebuild_raw inst1) = true /\ materialize inst1 = Ok inst.
Proof.
  unfold create_with_values. intros H.
  apply bind_inv in H as (inst0 & Hnew & H).
  apply bind_inv in H as (inst1 & Hset & H).
  apply bind_inv in H as (r & Hraw & H).
  apply new_instance_inv in Hnew as (Hc & _ & Hb & _).
  apply set_values_same_engine in Hset as (Hc1 & _ & _ & Hb1 & _).
  exists inst1. rewrite Hraw. repeat split; congruence.
Qed.

(** ** Bit fields *)

Lemma bit_offset_S (sizes : list Z) (i : nat) (b : Z) :
  sizes !! i = Some b -> bit_offset sizes (S i) = bit_offset sizes i + b.
Proof.
  intros H. unfold bit_offset. rewrite (take_S_r _ _ _ H), foldr_app.
  cbn [foldr]. generalize (take i sizes). intros l.
  induction l as [|x l IH]; cbn [foldr]; lia.
Qed.

Lemma iter_ones (n : nat) :
  Nat.iter n (fun acc => 2 * acc + 1) 0 = 2 ^ Z.of_nat n - 1.
Proof.
  induction n as [|n IH]; [reflexivity|].
  rewrite Nat2Z.inj_succ, Z.pow_succ_r, Nat.iter_succ, IH by lia. lia.
Qed.

Lemma int_of_ones_spec (bf_size : Z) :
  0 < bf_size <= ssize_t_max ->
  int_of_ones bf_size = Ok (Z.shiftl 1 bf_size - 1).
Proof.
  intros H. unfold int_of_ones. destruct (Z.leb_spec bf_size 0); [lia|].
  destruct (Z.ltb_spec ssize_t_max bf_size); [lia|].
  rewrite iter_ones, Z2Nat.id, Z.shiftl_1_l by lia. reflexivity.
Qed.

Lemma widths_within (sizes : list Z) (bound : Z) :
  Forall (fun b => 0 < b) sizes -> foldr Z.add 0 sizes <= bound ->
  Forall (fun b => b <= bound) sizes.
Proof.
  intros Hpos. revert bound. induction Hpos as [|b sizes Hb Hpos IH];
    intros bound Hsum; [constructor|].
  cbn [foldr] in Hsum.
  assert (0 <= foldr Z.add 0 sizes).
  { clear IH Hsum. induction Hpos as [|x xs]; cbn [foldr]; lia. }
  constructor; [lia|]. apply IH. lia.
Qed.

Lemma widths_fit (sizes : list Z) (size : Z) :
  Forall (fun b => 0 < b) sizes -> foldr Z.add 0 sizes = size * 8 ->
  size <= size_mask -> Forall (fun b => b <= ssize_t_max) sizes.
Proof.
  intros Hpos Hsum Hsize.
  eapply Forall_impl; [apply (widths_within sizes (size * 8) Hpos); lia|].
  intros b Hb. cbn beta in Hb. unfold size_mask, ssize_t_max in *. lia.
Qed.

Lemma bitfield_loop_spec (sizes : list Z) (v : Z) (names : list string) :
  Forall (fun b => 0 < b) sizes ->
  Forall (fun b => b <= ssize_t_max) sizes ->
  forall (self : Struct) (i : nat),
  NoDup names -> (i + length names <= length sizes)%nat ->
  exists self',
    bitfield_loop self (VInt v) sizes i names (bit_offset sizes i) = Ok self' /\
    forall k name b, names !! k = Some name -> sizes !! (i + k)%nat = Some b ->
      attrs self' !! name
      = Some (VInt (Z.land (Z.shiftr v (bit_offset sizes (i + k)))
                      (Z.shiftl 1 b - 1))).
Proof.
  intros Hpos Hmax. induction names as [|bf rest IH]; intros self i Hnd Hlen.
  - exists self. split; [reflexivity|]. intros k name b Hk. discriminate.
  - apply NoDup_cons in Hnd as [Hbf Hnd]. cbn [length] in Hlen.
    cbn [bitfield_loop].
    destruct (sizes !! i) as [b0|] eqn:Eb; [|apply lookup_ge_None in Eb; lia].
    assert (Hb0 : 0 < b0 <= ssize_t_max).
    { rewrite Forall_forall in Hpos, Hmax.
      split; [apply Hpos|apply Hmax]; apply list_elem_of_lookup; eauto. }
    rewrite int_of_ones_spec, bind_ok by exact Hb0.
    rewrite <- (bit_offset_S sizes i b0 Eb).
    destruct (IH (setattr self bf
                    (VInt (Z.land (Z.shiftr v (bit_offset sizes i))
                             (Z.shiftl 1 b0 - 1)))) (S i) Hnd ltac:(lia))
      as (self' & Hloop & Hv).
    exists self'. split; [exact Hloop|]. intros [|k] name b Hk Hb.
    + injection Hk as <-. rewrite Nat.add_0_r in *.
      apply bitfield_loop_frame in Hloop as [_ Hframe].
      rewrite Hframe by exact Hbf. cbn [setattr attrs].
      rewrite lookup_insert_eq. congruence.
    + replace (i + S k)%nat with (S i + k)%nat in * by lia.
      apply (Hv k name b Hk Hb).
Qed.

(** C6.  [pre_init] of a bit-field overlay gives sub-field [i], of width
    [b_i], the value [(v >> offset_i) & ((1 << b_i) - 1)] of the backing
    value [v], where [offset_i] is the sum of the widths before it.  The
    instance and the names of the sub-fields leave the engine's own
    attributes alone, and [SIZE] is a size that a tag holds. *)
Theorem bitfield_split (self : Struct) (names : list string) (sizes : list Z)
    (v : Z) :
  intact self ->
  kind (cls self) = BitFieldStruct names sizes ->
  unreserved names ->
  SIZE (cls self) <= size_mask ->
  attrs self !! "value"%string = Some (VInt v) ->
  NoDup names ->
  (length names <= length sizes)%nat ->
  Forall (fun b => 0 < b) sizes ->
  foldr Z.add 0 sizes = SIZE (cls self) * 8 ->
  exists self',
    pre_init self = Ok self' /\
    forall i name b, names !! i = Some name -> sizes !! i = Some b ->
      attrs self' !! name
      = Some (VInt (Z.land (Z.shiftr v (bit_offset sizes i))
                      (Z.shiftl 1 b - 1))).
Proof.
  intros _ Hkind _ Hsize Hvalue Hnd Hlen Hpos Hsum. unfold pre_init.
  rewrite Hkind, Hsum, Z.eqb_refl, Hvalue. cbn [negb].
  apply (bitfield_loop_spec sizes v names Hpos
           (widths_fit _ _ Hpos Hsum Hsize) self 0%nat Hnd). lia.
Qed.

Lemma bitfield_split_witness :
  exists self',
    pre_init (bits_with_value 5) = Ok self' /\
    attrs self' !! "low"%string = Some (VInt 1) /\
    attrs self' !! "mid"%string = Some (VInt 1) /\
    attrs self' !! "high"%string = Some (VInt 0).
Proof.
  destruct (bitfield_split (bits_with_value 5) ["low"; "mid"; "high"]%string
              [2; 2; 28] 5) as (self' & Hpre & Hv).
  - by_evaluation.
  - reflexivity.
  - by_evaluation.
  - by_evaluation.
  - vm_compute. reflexivity.
  - by_evaluation.
  - vm_compute. lia.
  - by_evaluation.
  - reflexivity.
  - exists self'. split; [exact Hpre|].
    split; [exact (Hv 0%nat _ _ eq_refl eq_refl)|].
    split; [exact (Hv 1%nat _ _ eq_refl eq_refl)|].
    exact (Hv 2%nat _ _ eq_refl eq_refl).
Defined.

(** The same through [create_with_bytes], from the four bytes of
    [0x00000005]. *)
Example bits_of_five :
  let r := create_with_bytes bits_2_2_28 [x05; x00; x00; x00] Little in
  field_of r "low" = Some (VInt 1) /\ field_of r "mid" = Some (VInt 1) /\
  field_of r "high" = Some (VInt 0).
Proof. repeat split; vm_compute; reflexivity. Qed.

(** A sub-field of width 0 makes [int('1' * 0, 2)] raise. *)
Example zero_width_bitfield : int_of_ones 0 = Err ValueError.
Proof. reflexivity. Qed.

(** ** The width check *)

(** C8.  When the bit widths of a [BitFieldStruct] subclass do not add up to
    [SIZE * 8], [pre_init] raises [AssertionError] on every intact
    instance, and neither constructor returns an instance of a well-formed
    class; [create_with_bytes] raises [AssertionError] itself for an
    overlay of one field. *)
Theorem bitfield_width_mismatch (c : struct_class) (names : list string)
    (sizes : list Z) :
  kind c = BitFieldStruct names sizes ->
  foldr Z.add 0 sizes ≠ SIZE c * 8 ->
  (forall self, cls self = c -> intact self ->
     pre_init self = Err AssertionError) /\
  (well_formed c ->
   forall raw bo, is_ok (create_with_bytes c raw bo) = false) /\
  (well_formed c ->
   forall values bo, is_ok (create_with_values c values bo) = false) /\
  (forall tag raw bo,
     _FIELDNAMES c = ["value"%string] -> _SIZES c = [SizeInt tag] ->
     unreserved (init_attrs c).*1 ->
     total_tag tag = true ->
     create_with_bytes c raw bo = Err AssertionError).
Proof.
  intros Hkind Hsum.
  assert (Hpre : forall self, cls self = c -> pre_init self = Err AssertionError).
  { intros self Hc. unfold pre_init. rewrite Hc, Hkind.
    destruct (Z.eqb_spec (foldr Z.add 0 sizes) (SIZE c * 8)); [done|reflexivity]. }
  assert (Hmat : forall self inst, cls self = c -> materialize self ≠ Ok inst).
  { intros self inst Hc. unfold materialize. rewrite (Hpre self Hc). discriminate. }
  split; [intros self Hc _; exact (Hpre self Hc)|]. split; [|split].
  - intros _ raw bo. destruct (create_with_bytes c raw bo) as [inst|e] eqn:E;
      [|reflexivity].
    apply create_with_bytes_rec_inv in E as (inst1 & Hc & _ & Hm).
    destruct (Hmat inst1 inst Hc Hm).
  - intros _ values bo.
    destruct (create_with_values c values bo) as [inst|e] eqn:E; [|reflexivity].
    apply create_with_values_inv in E as (inst1 & Hc & _ & _ & Hm).
    destruct (Hmat inst1 inst Hc Hm).
  - intros tag raw bo Hnames Hsizes _ Htag.
    unfold create_with_bytes. rewrite (flat_class_depth c [tag] Hsizes).
    cbn [create_with_bytes_rec].
    destruct (new_instance_spec c bo) as (inst0 & Hnew & Hc & Hf & _ & _ & Hlook).
    { rewrite Hnames. apply NoDup_singleton. }
    { rewrite Hnames, Hsizes. reflexivity. }
    rewrite Hnew, bind_ok, Hf. rewrite Hsizes in Hlook.
    change [SizeInt tag] with (@SizeInt struct_class <$> [tag]) in Hlook.
    apply Forall2_fmap_r in Hlook.
    assert (Htags : Forall (fun t => total_tag t = true) [tag])
      by (apply Forall_singleton; exact Htag).
    destruct (decode_fields_total (fun _ _ => Err RecursionError)
                (py_slice raw 0 (SIZE c)) bo _ _ _ Hlook Htags inst0 [] 0 eq_refl)
      as ([[inst1 inst_raw] off] & -> & Hs).
    rewrite bind_ok. unfold materialize. rewrite Hpre; [reflexivity|].
    destruct Hs as (Hc1 & _). cbn in Hc1. cbn [setattr cls]. congruence.
Qed.

Lemma bitfield_width_mismatch_witness :
  create_with_bytes bits_2_2_27 [x05; x00; x00; x00] Little
  = Err AssertionError /\
  is_ok (create_with_bytes bits_2_2_27 [x05; x00; x00; x00] Big) = false /\
  is_ok (create_with_values bits_2_2_27 [VInt 5] Little) = false.
Proof.
  destruct (bitfield_width_mismatch bits_2_2_27 ["low"; "mid"; "high"]%string
              [2; 2; 27]) as (_ & Hdecode & Hvalues & Hbytes).
  - reflexivity.
  - vm_compute. discriminate.
  - split; [|split; [apply Hdecode|apply Hvalues]; by_evaluation].
    apply (Hbytes uint32_t); [reflexivity|reflexivity|by_evaluation|reflexivity].
Defined.

(** ** Nested records *)

Lemma build_field_sizes_range (fields : list string)
    (sizes : list (field_size struct_class)) (index : nat)
    (d d' : gmap string (field_size struct_class)) :
  build_field_sizes fields sizes index d = Ok d' ->
  forall f sz, d' !! f = Some sz -> sz ∈ sizes \/ d !! f = Some sz.
Proof.
  revert index d. induction fields as [|f0 t IH]; intros index d H f sz Hf.
  - injection H as <-. right. exact Hf.
  - cbn [build_field_sizes] in H.
    destruct (sizes !! index) as [sz0|] eqn:E; [|discriminate].
    destruct (IH _ _ H f sz Hf) as [Hin|Hd]; [left; exact Hin|].
    destruct (decide (f0 = f)) as [->|Hne].
    + rewrite lookup_insert_eq in Hd. injection Hd as <-. left.
      apply list_elem_of_lookup. eauto.
    + rewrite lookup_insert_ne in Hd by exact Hne. right. exact Hd.
Qed.

Lemma class_depth_nested (c ch : struct_class) :
  SizeCls ch ∈ _SIZES c -> (class_depth ch < class_depth c)%nat.
Proof.
  destruct c as [nm k names sizes size init]. cbn [_SIZES class_depth].
  induction sizes as [|sz sizes IH]; intros Hin.
  - apply elem_of_nil in Hin. destruct Hin.
  - cbn [foldr]. apply elem_of_cons in Hin as [<-|Hin]; [lia|].
    specialize (IH Hin). destruct sz; lia.
Qed.

(** The loop depends on the recursive call at the classes of
    [_field_sizes] only. *)
Lemma decode_fields_ext nested1 nested2 raw bo
    (d : gmap string (field_size struct_class)) (names : list string) :
  (forall f ch data, d !! f = Some (SizeCls ch) ->
     nested1 ch data = nested2 ch data) ->
  forall st, _field_sizes st.1.1 = d ->
    decode_fields nested1 raw bo names st = decode_fields nested2 raw bo names st.
Proof.
  intros Hext. induction names as [|n names IH]; intros st Hd; [reflexivity|].
  cbn [decode_fields].
  assert (Hstep : decode_field nested1 raw bo st n = decode_field nested2 raw bo st n).
  { destruct st as [[inst inst_raw] off]. cbn in Hd. unfold decode_field.
    rewrite Hd. destruct (d !! n) as [[tag|ch]|] eqn:E; try reflexivity.
    rewrite (Hext n ch _ E). reflexivity. }
  rewrite Hstep. destruct (decode_field nested2 raw bo st n) as [st1|e] eqn:E;
    [|reflexivity].
  rewrite !bind_ok. apply IH.
  apply decode_field_same_engine in E as (_ & _ & <- & _). exact Hd.
Qed.

Lemma create_with_bytes_rec_depth (n : nat) :
  forall m c raw bo,
    (class_depth c < n)%nat -> (class_depth c < m)%nat ->
    create_with_bytes_rec n c raw bo = create_with_bytes_rec m c raw bo.
Proof.
  induction n as [|n IH]; intros m c raw bo Hn Hm; [lia|].
  destruct m as [|m]; [lia|]. cbn [create_with_bytes_rec].
  destruct (new_instance c bo) as [inst0|e] eqn:Enew; [|reflexivity].
  rewrite !bind_ok.
  apply new_instance_inv in Enew as (_ & _ & _ & Hbuild).
  rewrite (decode_fields_ext
             (fun value data => create_with_bytes_rec n value data Little)
             (fun value data => create_with_bytes_rec m value data Little)
             _ _ (_field_sizes inst0)); [reflexivity| |reflexivity].
  intros f ch data Hf.
  destruct (build_field_sizes_range _ _ _ _ _ Hbuild f _ Hf) as [Hin|Hemp];
    [|rewrite lookup_empty in Hemp; discriminate].
  apply class_depth_nested in Hin. apply IH; lia.
Qed.

(** Any depth above that of the class gives [create_with_bytes]. *)
Lemma create_with_bytes_rec_enough (n : nat) (c : struct_class)
    (raw : list byte) (bo : byte_order) :
  (class_depth c < n)%nat ->
  create_with_bytes_rec n c raw bo = create_with_bytes c raw bo.
Proof. intros H. apply create_with_bytes_rec_depth; lia. Qed.

Lemma decode_field_inv nested raw bo (inst : Struct) (inst_raw : list byte)
    (off : Z) (n : string) (sz : field_size struct_class)
    (st' : Struct * list byte * Z) :
  _field_sizes inst !! n = Some sz ->
  decode_field nested raw bo (inst, inst_raw, off) n = Ok st' ->
  exists v, st' = (setattr inst n v,
                   inst_raw ++ py_slice raw off (off + field_width sz),
                   off + field_width sz) /\
    match sz with
    | SizeInt tag =>
      decode_int_field tag (py_slice raw off (off + field_width sz)) bo = Ok v
    | SizeCls ch =>
      exists child, v = VStruct child /\
        nested ch (py_slice raw off (off + field_width sz)) = Ok child
    end.
Proof.
  intros Hsz. unfold decode_field. rewrite Hsz. destruct sz as [tag|ch];
    intros H; apply bind_inv in H as (v & Hv & [= <-]); cbn [field_width]; eauto.
Qed.

Lemma decode_fields_frame nested raw bo (names : list string)
    (st st' : Struct * list byte * Z) (n : string) :
  decode_fields nested raw bo names st = Ok st' ->
  n ∉ names -> attrs st'.1.1 !! n = attrs st.1.1 !! n.
Proof.
  revert st. induction names as [|f names IH]; intros st H Hn.
  - injection H as <-. reflexivity.
  - apply not_elem_of_cons in Hn as [Hne Hn]. cbn [decode_fields] in H.
    apply bind_inv in H as (st1 & H1 & H2). rewrite (IH st1 H2 Hn).
    destruct st as [[inst inst_raw] off]. unfold decode_field in H1.
    destruct (_field_sizes inst !! f) as [[tag|ch]|]; [| |discriminate];
      apply bind_inv in H1 as (v & _ & [= <-]); cbn [setattr attrs fst];
      apply lookup_insert_ne; congruence.
Qed.

Lemma decode_fields_nested_field nested raw bo
    (d : gmap string (field_size struct_class)) (names : list string)
    (sizes : list (field_size struct_class)) :
  Forall2 (fun n sz => d !! n = Some sz) names sizes ->
  NoDup names ->
  forall inst inst_raw off st' i f ch,
    _field_sizes inst = d ->
    decode_fields nested raw bo names (inst, inst_raw, off) = Ok st' ->
    names !! i = Some f -> sizes !! i = Some (SizeCls ch) ->
    exists child,
      nested ch (py_slice raw (off + field_offset sizes i)
                   (off + field_offset sizes i + SIZE ch)) = Ok child /\
      attrs st'.1.1 !! f = Some (VStruct child).
Proof.
  induction 1 as [|n sz names sizes Hn _ IH];
    intros Hnd inst inst_raw off st' i f ch Hd Hrun Hi Hsz; [discriminate|].
  apply NoDup_cons in Hnd as [Hnot Hnd]. cbn [decode_fields] in Hrun.
  apply bind_inv in Hrun as (st1 & H1 & H2).
  rewrite <- Hd in Hn.
  destruct (decode_field_inv _ _ _ _ _ _ _ _ _ Hn H1) as (v & -> & Hv).
  destruct i as [|i].
  - injection Hi as <-. injection Hsz as ->.
    destruct Hv as (child & -> & Hchild). exists child.
    unfold field_offset. cbn [take fmap list_fmap foldr field_width] in *.
    rewrite Z.add_0_r. split; [exact Hchild|].
    rewrite (decode_fields_frame _ _ _ _ _ _ n H2 Hnot).
    cbn [setattr attrs fst]. apply lookup_insert_eq.
  - destruct (IH Hnd (setattr inst n v) _ _ st' i f ch Hd H2 Hi Hsz)
      as (child & Hchild & Hattr).
    exists child. split; [|exact Hattr].
    unfold field_offset in *. cbn [take fmap list_fmap foldr].
    rewrite <- Hchild. f_equal; f_equal; lia.
Qed.

(** C10.  A nested field is decoded by [create_with_bytes] of its class on
    its slice in little-endian order, whatever byte order the parent was
    given. *)
Theorem nested_decode_is_little_endian (p ch : struct_class) (raw : list byte)
    (bo : byte_order) (inst : Struct) (i : nat) (f : string) :
  well_formed p ->
  _FIELDNAMES p !! i = Some f ->
  _SIZES p !! i = Some (SizeCls ch) ->
  create_with_bytes p raw bo = Ok inst ->
  exists child,
    attrs inst !! f = Some (VStruct child) /\
    create_with_bytes ch
      (py_slice (py_slice raw 0 (SIZE p)) (field_offset (_SIZES p) i)
         (field_offset (_SIZES p) i + SIZE ch)) Little = Ok child /\
    byte_order_of child = Little.
Proof.
  intros Hwf Hf Hsz Hrun. pose proof Hwf as (Hnd & Hlen & _).
  destruct (new_instance_spec p bo Hnd Hlen)
    as (inst0 & Hnew & Hcls & Hfields & _ & _ & Hlook).
  unfold create_with_bytes in Hrun. cbn [create_with_bytes_rec] in Hrun.
  rewrite Hnew, bind_ok, Hfields in Hrun.
  apply bind_inv in Hrun as ([[inst1 inst_raw] off] & Hloop & Hmat).
  destruct (decode_fields_nested_field _ _ _ _ _ _ Hlook Hnd
              inst0 [] 0 _ i f ch eq_refl Hloop Hf Hsz)
    as (child & Hchild & Hattr).
  cbn [fst] in Hattr. rewrite !Z.add_0_l in Hchild.
  assert (Hin : f ∈ _FIELDNAMES p) by (apply list_elem_of_lookup; eauto).
  assert (Hdepth : (class_depth ch < class_depth p)%nat).
  { apply class_depth_nested, list_elem_of_lookup. eauto. }
  rewrite create_with_bytes_rec_enough in Hchild by exact Hdepth.
  exists child. split; [|split; [exact Hchild|]].
  - apply materialize_frame in Hmat as (_ & _ & _ & _ & Ha).
    rewrite Ha.
    + cbn [setattr attrs]. rewrite lookup_insert_ne; [exact Hattr|].
      intros E. apply (field_not_raw p f Hwf Hin). congruence.
    + apply decode_fields_same_engine in Hloop as (Hc1 & _). cbn in Hc1.
      cbn [setattr cls]. rewrite <- Hc1, Hcls.
      apply field_not_bitfield; assumption.
  - apply create_with_bytes_rec_inv in Hchild as (c1 & _ & Hb & Hm).
    apply materialize_frame in Hm as (_ & _ & _ & Hb' & _). congruence.
Qed.

Example tagged_header_decodes :
  exists inst, create_with_bytes tagged_header tagged_header_bytes Big = Ok inst.
Proof. vm_compute. eauto. Qed.

Lemma nested_decode_is_little_endian_witness :
  exists inst child,
    create_with_bytes tagged_header tagged_header_bytes Big = Ok inst /\
    attrs inst !! "header"%string = Some (VStruct child) /\
    create_with_bytes fat_header
      (py_slice (py_slice tagged_header_bytes 0 (SIZE tagged_header))
         (field_offset (_SIZES tagged_header) 1)
         (field_offset (_SIZES tagged_header) 1 + SIZE fat_header)) Little
    = Ok child /\
    byte_order_of child = Little.
Proof.
  destruct tagged_header_decodes as [inst Hinst].
  destruct (nested_decode_is_little_endian tagged_header fat_header
              tagged_header_bytes Big inst 1 "header") as (child & Hchild).
  - by_evaluation.
  - reflexivity.
  - reflexivity.
  - exact Hinst.
  - exists inst, child. split; [exact Hinst|exact Hchild].
Defined.

(** In a parent read big-endian, the integers of the nested header are
    still read little-endian. *)
Example nested_header_values :
  let r := create_with_bytes tagged_header tagged_header_bytes Big in
  field_of r "tag" = Some (VInt 1) /\
  match field_of r "header" with
  | Some (VStruct child) =>
    byte_order_of child = Little /\
    attrs child !! "magic"%string = Some (VInt 0xbebafeca) /\
    attrs child !! "nfat_archs"%string = Some (VInt 0x02000000)
  | _ => False
  end.
Proof. vm_compute. repeat split; reflexivity. Qed.

(** ** Encoding values *)

(** Unsigned, bytes and text values of the slot widths come back from the
    round trip, the text without its NUL padding. *)
Example segment_values_round_trip :
  let values :=
    [VInt 1; VInt 56;
     VStr [95; 95; 84; 69; 88; 84; 0; 0; 0; 0; 0; 0; 0; 0; 0; 0];
     VInt 4096; VInt 16384; VInt 0; VInt 16384; VInt 5; VInt 5; VInt 2;
     VInt 0] in
  let r := decode_of_values segment_command values Big in
  raw_length (raw_of_values segment_command values Big) = Some 56 /\
  field_of r "segname" = Some (VStr [95; 95; 84; 69; 88; 84]) /\
  field_of r "vmaddr" = Some (VInt 4096) /\
  field_of r "nsects" = Some (VInt 2).
Proof. split; [|split; [|split]]; vm_compute; reflexivity. Qed.

(** C3 fails on a signed field.  [_rebuild_raw] takes the whole tag of the
    field for its size and encodes unsigned: the value -1 of a signed byte
    is refused, and the value 1 is encoded in [0x10001] bytes, from which a
    big-endian decode reads 0. *)
Theorem signed_value_round_trip_fails :
  create_with_values signed_byte [VInt (-1)] Little = Err OverflowError /\
  raw_length (raw_of_values signed_byte [VInt 1] Big) = Some 65537 /\
  field_of (decode_of_values signed_byte [VInt 1] Big) "delta" = Some (VInt 0).
Proof. split; [|split]; vm_compute; reflexivity. Qed.

(** ** Values that do not fit *)

(** On a field with a plain width for a tag, [_rebuild_raw] refuses an
    integer outside [0, 256^width). *)
Lemma unsigned_overflow_rejected (self : Struct) (n : string) (w v : Z) :
  _field_sizes self !! n = Some (SizeInt w) -> 0 <= w ->
  attrs self !! n = Some (VInt v) -> v < 0 \/ 256 ^ w <= v ->
  rebuild_field self n = Err OverflowError.
Proof.
  intros Hsz Hw Hv Hrange. unfold rebuild_field. rewrite Hsz, Hv.
  apply int_to_bytes_overflow; assumption.
Qed.

Example uint32_overflow_rejected :
  create_with_values fat_header [VInt (2 ^ 32); VInt 0] Little
  = Err OverflowError.
Proof. vm_compute. reflexivity. Qed.

(** C4 fails on a signed field: 256 does not fit in the one byte of
    [signed_byte], and [raw] is built all the same, of [0x10001] bytes. *)
Theorem signed_overflow_not_rejected :
  is_ok (create_with_values signed_byte [VInt 256] Little) = true /\
  raw_length (raw_of_values signed_byte [VInt 256] Little) = Some 65537.
Proof. split; vm_compute; reflexivity. Qed.

(** * Further properties of the engine *)

(** ** What [raw] holds after a decode *)

(** X1.  For a well-formed class of unsigned-integer, bytes and text
    fields, the [raw] of an instance decoded from a buffer of [SIZE] bytes
    is that buffer with the NUL bytes of its text slots deleted and every
    other byte in place. *)
Theorem raw_after_decode (c : struct_class) (tags : list Z)
    (datas : list (list byte)) (bo : byte_order) :
  well_formed c ->
  _SIZES c = SizeInt <$> tags ->
  Forall2 valid_slot tags datas ->
  SIZE c = Z.of_nat (length (concat datas)) ->
  forall inst, create_with_bytes c (concat datas) bo = Ok inst ->
    raw inst
    = Ok (concat (zip_with (fun tag data =>
                              if is_str_tag tag then strip_nul_bytes data
                              else data) tags datas)).
Proof.
  intros Hwf Hsizes Hslots Hsize inst Hinst.
  exact (proj2 (decode_then_raw c tags datas bo Hwf Hsizes Hslots Hsize)
           inst Hinst).
Qed.

Lemma raw_after_decode_witness :
  exists inst,
    create_with_bytes segment_command (concat text_segment_slots) Little
    = Ok inst /\
    raw inst = Ok text_segment_raw.
Proof.
  destruct (raw_of_decoded_inv _ _ _ _ raw_of_text_segment) as (inst & Hinst & _).
  exists inst. split; [exact Hinst|].
  apply (raw_after_decode segment_command segment_command_tags
           text_segment_slots Little).
  - exact segment_command_well_formed.
  - reflexivity.
  - by_evaluation.
  - reflexivity.
  - exact Hinst.
Defined.

(** ** The arity of the constructors *)

Lemma build_field_sizes_error (fields : list string)
    (sizes : list (field_size struct_class)) (index : nat)
    (d : gmap string (field_size struct_class)) (e : exception) :
  build_field_sizes fields sizes index d = Err e -> e = IndexError.
Proof.
  revert index d. induction fields as [|f t IH]; intros index d H;
    [discriminate|].
  cbn [build_field_sizes] in H. destruct (sizes !! index); [eauto|].
  congruence.
Qed.

Lemma build_field_sizes_short (fields : list string)
    (sizes : list (field_size struct_class)) (index : nat)
    (d : gmap string (field_size struct_class)) :
  (index <= length sizes < index + length fields)%nat ->
  build_field_sizes fields sizes index d = Err IndexError.
Proof.
  revert index d. induction fields as [|f t IH]; intros index d H;
    [cbn [length] in H; lia|].
  cbn [build_field_sizes length] in *.
  destruct (sizes !! index) as [sz|] eqn:E; [|reflexivity].
  apply lookup_lt_Some in E. apply IH. lia.
Qed.

Lemma set_values_short (fields : list string) (values : list py_value)
    (inst : Struct) (i : nat) :
  (i <= length values < i + length fields)%nat ->
  set_values inst fields values i = Err IndexError.
Proof.
  revert inst i. induction fields as [|f t IH]; intros inst i H;
    [cbn [length] in H; lia|].
  cbn [set_values length] in *.
  destruct (values !! i) as [v|] eqn:E; [|reflexivity].
  apply lookup_lt_Some in E. apply IH. lia.
Qed.

Lemma set_values_app (fields : list string) (values extra : list py_value)
    (inst : Struct) (i : nat) :
  (i + length fields <= length values)%nat ->
  set_values inst fields (values ++ extra) i = set_values inst fields values i.
Proof.
  revert inst i. induction fields as [|f t IH]; intros inst i H; [reflexivity|].
  cbn [set_values length] in *. rewrite lookup_app_l by lia.
  destruct (values !! i) as [v|]; [|reflexivity]. apply IH. lia.
Qed.

(** X2.  [create_with_values] raises [IndexError] when it is given fewer
    values than the class has fields (the fields and the defaults of
    [__init__] having names outside [reserved_names]), and ignores the
    values beyond the last field. *)
Theorem create_with_values_arity (c : struct_class) (values : list py_value)
    (bo : byte_order) :
  (unreserved (_FIELDNAMES c ++ (init_attrs c).*1) ->
   (length values < length (_FIELDNAMES c))%nat ->
   create_with_values c values bo = Err IndexError) /\
  ((length (_FIELDNAMES c) <= length values)%nat ->
   forall extra,
     create_with_values c (values ++ extra) bo = create_with_values c values bo).
Proof.
  split.
  - intros _ Hlen. unfold create_with_values.
    destruct (new_instance c bo) as [inst0|e] eqn:Enew.
    + rewrite bind_ok.
      apply new_instance_inv in Enew as (_ & -> & _).
      rewrite set_values_short by lia. reflexivity.
    + unfold new_instance in Enew.
      destruct (build_field_sizes _ _ _ _) as [d|e'] eqn:Eb; [discriminate|].
      injection Enew as <-. rewrite (build_field_sizes_error _ _ _ _ _ Eb).
      reflexivity.
  - intros Hlen extra. unfold create_with_values.
    destruct (new_instance c bo) as [inst0|e] eqn:Enew; [|reflexivity].
    rewrite !bind_ok. apply new_instance_inv in Enew as (_ & Hf & _).
    rewrite set_values_app by (rewrite Hf; lia). reflexivity.
Qed.

Lemma create_with_values_arity_witness :
  create_with_values fat_header [VInt 1] Little = Err IndexError /\
  create_with_values fat_header ([VInt 1; VInt 2] ++ [VInt 3]) Little
  = create_with_values fat_header [VInt 1; VInt 2] Little.
Proof.
  split.
  - apply (proj1 (create_with_values_arity fat_header [VInt 1] Little)).
    + by_evaluation.
    + vm_compute. lia.
  - apply (proj2 (create_with_values_arity fat_header [VInt 1; VInt 2] Little)).
    vm_compute. lia.
Defined.

(** X3.  A class that declares fewer [_SIZES] than [_FIELDNAMES] cannot be
    instantiated: both constructors raise [IndexError], whatever the input. *)
Theorem too_few_sizes (c : struct_class) :
  (length (_SIZES c) < length (_FIELDNAMES c))%nat ->
  (forall raw bo, create_with_bytes c raw bo = Err IndexError) /\
  (forall values bo, create_with_values c values bo = Err IndexError).
Proof.
  intros Hlen.
  assert (Hnew : forall bo, new_instance c bo = Err IndexError).
  { intros bo. unfold new_instance.
    rewrite build_field_sizes_short by lia. reflexivity. }
  split.
  - intros raw bo. unfold create_with_bytes. cbn [create_with_bytes_rec].
    rewrite Hnew. reflexivity.
  - intros values bo. unfold create_with_values. rewrite Hnew. reflexivity.
Qed.

Lemma too_few_sizes_witness :
  create_with_bytes lone_size [x01; x02] Big = Err IndexError /\
  create_with_values lone_size [VInt 1; VInt 2] Big = Err IndexError.
Proof.
  destruct (too_few_sizes lone_size) as [Hb Hv]; [vm_compute; lia|].
  split; [apply Hb|apply Hv].
Defined.

(** ** Integers in [_rebuild_raw] *)

Lemma int_to_bytes_in_range (v size : Z) (bo : byte_order) :
  0 <= size <= ssize_t_max -> 0 <= v < 256 ^ size ->
  exists data, int_to_bytes v size bo = Ok data.
Proof.
  intros Hs Hv. unfold int_to_bytes.
  rewrite ssize_t_fits by (unfold ssize_t_max in *; lia).
  destruct (Z.ltb_spec size 0); [lia|].
  destruct (Z.ltb_spec v 0); [lia|].
  rewrite overflow_check by lia.
  destruct (Z.leb_spec (256 ^ size) v); [lia|]. eauto.
Qed.

Lemma int_field_encodes (self : Struct) (n : string) (size v : Z) :
  _field_sizes self !! n = Some (SizeInt size) ->
  attrs self !! n = Some (VInt v) ->
  0 <= size <= ssize_t_max -> 0 <= v < 256 ^ size ->
  exists data, rebuild_field self n = Ok data /\
    Z.of_nat (length data) = size /\
    int_from_bytes data (byte_order_of self) = v.
Proof.
  intros Hsz Hat Hs Hv. unfold rebuild_field. rewrite Hsz, Hat.
  destruct (int_to_bytes_in_range v size (byte_order_of self) Hs Hv)
    as (data & Hd).
  exists data. split; [exact Hd|].
  destruct (int_from_to_bytes _ _ _ _ Hd) as [H1 H2]. split; assumption.
Qed.

Lemma intact_size (self : Struct) (n : string) (size : Z) :
  intact self -> _field_sizes self !! n = Some (SizeInt size) ->
  size <= ssize_t_max.
Proof.
  intros (_ & _ & Hsmall) Hn. pose proof (Hsmall n _ Hn) as H.
  cbn in H. change max_tag with 262143 in H. unfold ssize_t_max. lia.
Qed.

(** X4.  On an intact instance, [_rebuild_raw] encodes an integer value of
    a field in as many bytes as the field's entry of [_SIZES] says, without
    loss: the bytes read back as the same integer.  It raises
    [OverflowError] exactly when the value is negative or does not fit in
    that many bytes. *)
Theorem integer_field_encoding (self : Struct) (n : string) (size v : Z) :
  intact self ->
  n ∉ reserved_names ->
  _field_sizes self !! n = Some (SizeInt size) ->
  attrs self !! n = Some (VInt v) ->
  0 <= size ->
  (0 <= v < 256 ^ size ->
   exists data, rebuild_field self n = Ok data /\
     Z.of_nat (length data) = size /\
     int_from_bytes data (byte_order_of self) = v) /\
  (v < 0 \/ 256 ^ size <= v -> rebuild_field self n = Err OverflowError).
Proof.
  intros Hin _ Hsz Hat Hs. pose proof (intact_size self n size Hin Hsz) as Hmax.
  split.
  - intros Hv. apply int_field_encodes; [assumption..|lia|exact Hv].
  - intros Hv. unfold rebuild_field. rewrite Hsz, Hat.
    apply int_to_bytes_overflow; assumption.
Qed.

Lemma integer_field_encoding_witness :
  (exists data,
     rebuild_field (bits_with_value 0xfeedface) "value" = Ok data /\
     Z.of_nat (length data) = 4 /\
     int_from_bytes data Little = 0xfeedface) /\
  rebuild_field (bits_with_value (2 ^ 32)) "value" = Err OverflowError.
Proof.
  split.
  - apply (proj1 (integer_field_encoding (bits_with_value 0xfeedface) "value"
                    4 0xfeedface ltac:(by_evaluation) ltac:(by_evaluation)
                    eq_refl eq_refl ltac:(lia))).
    vm_compute. split; [discriminate|reflexivity].
  - apply (proj2 (integer_field_encoding (bits_with_value (2 ^ 32)) "value"
                    4 (2 ^ 32) ltac:(by_evaluation) ltac:(by_evaluation)
                    eq_refl eq_refl ltac:(lia))).
    right. vm_compute. discriminate.
Defined.

(** ** Every signed value has its bit pattern *)

(** X5.  For a width of 1, 2, 4 or 8 bytes, every integer of the signed
    range is what a signed field decodes from the bytes of its
    two's-complement pattern, in either byte order. *)
Theorem signed_decode_of_pattern (w v : Z) (bo : byte_order) :
  w ∈ [1; 2; 4; 8] ->
  - 2 ^ (w * 8 - 1) <= v < 2 ^ (w * 8 - 1) ->
  let le := to_bytes_le (Z.to_nat w) (v mod 2 ^ (w * 8)) in
  decode_int_field (Z.lor type_sint w)
    (match bo with Little => le | Big => reverse le end) bo
  = Ok (VInt v).
Proof.
  intros Hw Hv le.
  assert (Hw0 : 0 < w).
  { clear -Hw. repeat (apply elem_of_cons in Hw as [->|Hw]); try lia.
    apply elem_of_nil in Hw. done. }
  assert (Hp : 2 ^ (w * 8) = 2 * 2 ^ (w * 8 - 1))
    by (rewrite <- Z.pow_succ_r by lia; f_equal; lia).
  assert (H256 : 256 ^ Z.of_nat (Z.to_nat w) = 2 ^ (w * 8)).
  { rewrite Z2Nat.id by lia. change 256 with (2 ^ 8).
    rewrite <- Z.pow_mul_r by lia. f_equal. lia. }
  pose proof (Z.pow_pos_nonneg 2 (w * 8 - 1) ltac:(lia) ltac:(lia)) as Hh.
  set (u := v mod 2 ^ (w * 8)) in *.
  assert (Hu : 0 <= u < 2 ^ (w * 8)) by (apply Z.mod_pos_bound; lia).
  assert (Hread : int_from_bytes
                    (match bo with Little => le | Big => reverse le end) bo = u).
  { subst le. destruct bo; cbn [int_from_bytes];
      [|rewrite reverse_involutive]; apply from_to_bytes_le; rewrite H256;
      exact Hu. }
  assert (Hval : (if Z.testbit u (w * 8 - 1) then u - 2 ^ (w * 8) else u) = v).
  { rewrite sign_bit_threshold by lia. subst u.
    destruct (Z.leb_spec (2 ^ (w * 8 - 1)) (v mod 2 ^ (w * 8))) as [Hge|Hlt].
    - destruct (Z_lt_le_dec v 0) as [Hneg|Hpos].
      + replace v with (v + 2 ^ (w * 8) + (-1) * 2 ^ (w * 8)) at 1 by lia.
        rewrite Z.mod_add, Z.mod_small by lia. lia.
      + rewrite Z.mod_small in Hge by lia. lia.
    - destruct (Z_lt_le_dec v 0) as [Hneg|Hpos].
      + replace v with (v + 2 ^ (w * 8) + (-1) * 2 ^ (w * 8)) in Hlt at 1 by lia.
        rewrite Z.mod_add, Z.mod_small in Hlt by lia. lia.
      + apply Z.mod_small. lia. }
  assert (Hdec : forall tag, Z.land type_mask tag = type_sint ->
            Z.land size_mask tag = w ->
            decode_int_field tag
              (match bo with Little => le | Big => reverse le end) bo
            = Ok (VInt v)).
  { intros tag Ht Hs. unfold decode_int_field. rewrite Ht, Hs, Hread.
    cbn [Z.eqb type_sint type_str type_bytes type_uint Pos.eqb].
    rewrite uint_to_int_spec by lia. rewrite Hval. reflexivity. }
  clear Hv Hp H256 Hh Hu Hread Hval.
  repeat (apply elem_of_cons in Hw as [->|Hw]); [..|apply elem_of_nil in Hw; done];
    apply Hdec; reflexivity.
Qed.

Lemma signed_decode_of_pattern_witness :
  decode_int_field int16_t [xfe; xff] Little = Ok (VInt (-2)) /\
  decode_int_field int16_t [xff; xfe] Big = Ok (VInt (-2)).
Proof.
  split.
  - apply (signed_decode_of_pattern 2 (-2) Little);
      [apply list_elem_of_further, list_elem_of_here|].
    vm_compute. split; [discriminate|reflexivity].
  - apply (signed_decode_of_pattern 2 (-2) Big);
      [apply list_elem_of_further, list_elem_of_here|].
    vm_compute. split; [discriminate|reflexivity].
Defined.

(** ** Assigning a field *)

Lemma rebuild_field_setattr_ne (self : Struct) (f n : string) (v : py_value) :
  n ≠ f -> rebuild_field (setattr self f v) n = rebuild_field self n.
Proof.
  intros Hne. unfold rebuild_field. cbn [setattr _field_sizes attrs byte_order_of].
  rewrite lookup_insert_ne by congruence. reflexivity.
Qed.

Lemma Forall2_off_slot {A B} (P Q : A -> B -> Prop) (f : A)
    (names : list A) (datas : list B) :
  f ∉ names -> Forall2 P names datas ->
  (forall n data, n ≠ f -> P n data -> Q n data) ->
  Forall2 Q names datas.
Proof.
  intros Hnot HP Hother. induction HP as [|n data names datas Hn HP IH];
    constructor.
  - apply Hother; [|exact Hn]. intros ->. apply Hnot, list_elem_of_here.
  - apply IH. intros H. apply Hnot, list_elem_of_further, H.
Qed.

Lemma Forall2_update_slot {A B} (P Q : A -> B -> Prop) (f : A) (new : B)
    (names : list A) (datas : list B) (i : nat) :
  NoDup names -> Forall2 P names datas -> names !! i = Some f ->
  (forall n data, n ≠ f -> P n data -> Q n data) -> Q f new ->
  Forall2 Q names (<[i := new]> datas).
Proof.
  intros Hnd HP. revert i. induction HP as [|n data names datas Hn HP IH];
    intros i Hi Hother Hnew; [discriminate|].
  apply NoDup_cons in Hnd as [Hnot Hnd]. destruct i as [|i].
  - injection Hi as ->. cbn. constructor; [exact Hnew|].
    apply (Forall2_off_slot P Q f); assumption.
  - cbn. constructor.
    + apply Hother; [|exact Hn]. intros ->. apply Hnot.
      apply list_elem_of_lookup. eauto.
    + apply IH; assumption.
Qed.

(** X6.  On an intact instance, assigning a field changes its slot of [raw]
    and nothing else: when
    [raw] was the concatenation of the encodings of the fields, after
    [setattr(self, f, v)] it is the same with the encoding of [v] in the
    place of that of field [f]. *)
Theorem raw_follows_assignment (self : Struct) (datas : list (list byte))
    (i : nat) (f : string) (v : py_value) (new : list byte) :
  intact self ->
  NoDup (_fields self) ->
  Forall2 (fun n data => rebuild_field self n = Ok data) (_fields self) datas ->
  _fields self !! i = Some f ->
  rebuild_field (setattr self f v) f = Ok new ->
  raw self = Ok (concat datas) /\
  raw (setattr self f v) = Ok (concat (<[i := new]> datas)).
Proof.
  intros _ Hnd Hall Hi Hnew. unfold raw, _rebuild_raw. split.
  - apply (rebuild_fields_spec self _ datas []). exact Hall.
  - cbn [setattr _fields].
    apply (rebuild_fields_spec (setattr self f v) (_fields self) _ []).
    apply (Forall2_update_slot _ _ f new _ _ i Hnd Hall Hi); [|exact Hnew].
    intros n data Hne Hn. rewrite rebuild_field_setattr_ne by exact Hne.
    exact Hn.
Qed.

(** ** The values of [create_with_values] *)

Lemma materialize_initialized (self self' : Struct) :
  materialize self = Ok self' -> initialized self' = true.
Proof.
  unfold materialize, post_init. intros H.
  apply bind_inv in H as (s1 & _ & [= <-]). reflexivity.
Qed.

Lemma set_values_frame (names : list string) (values : list py_value)
    (i : nat) (a b : Struct) (n : string) :
  set_values a names values i = Ok b -> n ∉ names ->
  attrs b !! n = attrs a !! n.
Proof.
  revert a i. induction names as [|f names IH]; intros a i H Hn.
  - injection H as <-. reflexivity.
  - apply not_elem_of_cons in Hn as [Hne Hn]. cbn [set_values] in H.
    destruct (values !! i) as [v|]; [|discriminate].
    rewrite (IH _ _ H Hn). cbn [setattr attrs].
    apply lookup_insert_ne. congruence.
Qed.

Lemma set_values_lookup (names : list string) (values : list py_value)
    (i : nat) (a b : Struct) (k : nat) (f : string) :
  NoDup names -> set_values a names values i = Ok b ->
  names !! k = Some f ->
  exists v, values !! (i + k)%nat = Some v /\ attrs b !! f = Some v.
Proof.
  revert a i k. induction names as [|f0 names IH]; intros a i k Hnd H Hk;
    [discriminate|].
  apply NoDup_cons in Hnd as [Hnot Hnd]. cbn [set_values] in H.
  destruct (values !! i) as [v|] eqn:Ev; [|discriminate].
  destruct k as [|k].
  - injection Hk as <-. exists v. rewrite Nat.add_0_r. split; [exact Ev|].
    rewrite (set_values_frame _ _ _ _ _ _ H Hnot). cbn [setattr attrs].
    apply lookup_insert_eq.
  - destruct (IH _ _ k Hnd H Hk) as (v' & Hv' & Ha).
    exists v'. split; [|exact Ha]. rewrite <- Hv'. f_equal. lia.
Qed.

(** X7.  An instance that [create_with_values] returns is initialized, has
    the class and the byte order that were given, and holds value [k] of
    the list under field name [k]. *)
Theorem create_with_values_fields (c : struct_class) (values : list py_value)
    (bo : byte_order) (inst : Struct) :
  well_formed c ->
  create_with_values c values bo = Ok inst ->
  cls inst = c /\ byte_order_of inst = bo /\ initialized inst = true /\
  forall k f, _FIELDNAMES c !! k = Some f ->
    exists v, values !! k = Some v /\ attrs inst !! f = Some v.
Proof.
  intros Hwf H. pose proof Hwf as (Hnd & _).
  unfold create_with_values in H.
  apply bind_inv in H as (inst0 & Hnew & H).
  apply bind_inv in H as (inst1 & Hset & H).
  apply bind_inv in H as (r & _ & Hmat).
  apply new_instance_inv in Hnew as (Hc & Hf & Hb & _).
  pose proof (set_values_same_engine _ _ _ _ _ Hset) as (Hc1 & _ & _ & Hb1 & _).
  pose proof (materialize_initialized _ _ Hmat) as Hinit.
  apply materialize_frame in Hmat as (Hc2 & _ & _ & Hb2 & Ha).
  repeat split; try congruence.
  intros k f Hk. rewrite Hf in Hset.
  destruct (set_values_lookup _ _ _ _ _ k f Hnd Hset Hk) as (v & Hv & Hat).
  exists v. split; [exact Hv|]. rewrite Ha; [exact Hat|].
  replace (cls inst1) with c by congruence.
  apply field_not_bitfield; [exact Hwf|]. apply list_elem_of_lookup. eauto.
Qed.

Example fat_header_of_values :
  create_with_values fat_header [VInt 0xcafebabe; VInt 2] Big
  = Ok fat_header_instance.
Proof. vm_compute. reflexivity. Qed.

Lemma create_with_values_fields_witness :
  cls fat_header_instance = fat_header /\
  byte_order_of fat_header_instance = Big /\
  initialized fat_header_instance = true /\
  forall k f, _FIELDNAMES fat_header !! k = Some f ->
    exists v, [VInt 0xcafebabe; VInt 2] !! k = Some v /\
      attrs fat_header_instance !! f = Some v.
Proof.
  apply (create_with_values_fields fat_header [VInt 0xcafebabe; VInt 2] Big).
  - by_evaluation.
  - exact fat_header_of_values.
Defined.

Lemma raw_follows_assignment_witness :
  raw fat_header_instance
  = Ok (concat [[xca; xfe; xba; xbe]; [x00; x00; x00; x02]]) /\
  raw (setattr fat_header_instance "nfat_archs" (VInt 3))
  = Ok (concat (<[1%nat := [x00; x00; x00; x03]]>
                  [[xca; xfe; xba; xbe]; [x00; x00; x00; x02]])).
Proof.
  apply (raw_follows_assignment fat_header_instance
           [[xca; xfe; xba; xbe]; [x00; x00; x00; x02]] 1 "nfat_archs"
           (VInt 3) [x00; x00; x00; x03]).
  - by_evaluation.
  - by_evaluation.
  - repeat constructor.
  - reflexivity.
  - reflexivity.
Defined.

(** ** The fields of a decoded instance *)

Lemma decode_fields_field nested raw bo
    (d : gmap string (field_size struct_class)) (names : list string)
    (sizes : list (field_size struct_class)) :
  Forall2 (fun n sz => d !! n = Some sz) names sizes ->
  NoDup names ->
  forall inst inst_raw off st' i f sz,
    _field_sizes inst = d ->
    decode_fields nested raw bo names (inst, inst_raw, off) = Ok st' ->
    names !! i = Some f -> sizes !! i = Some sz ->
    exists v, attrs st'.1.1 !! f = Some v /\
      let data := py_slice raw (off + field_offset sizes i)
                    (off + field_offset sizes i + field_width sz) in
      match sz with
      | SizeInt tag => decode_int_field tag data bo = Ok v
      | SizeCls ch => exists child, v = VStruct child /\ nested ch data = Ok child
      end.
Proof.
  induction 1 as [|n sz0 names sizes Hn _ IH];
    intros Hnd inst inst_raw off st' i f sz Hd Hrun Hi Hsz; [discriminate|].
  apply NoDup_cons in Hnd as [Hnot Hnd]. cbn [decode_fields] in Hrun.
  apply bind_inv in Hrun as (st1 & H1 & H2).
  rewrite <- Hd in Hn.
  destruct (decode_field_inv _ _ _ _ _ _ _ _ _ Hn H1) as (v & -> & Hv).
  destruct i as [|i].
  - injection Hi as <-. injection Hsz as <-. exists v.
    unfold field_offset. cbn [take fmap list_fmap foldr].
    rewrite Z.add_0_r. split; [|exact Hv].
    rewrite (decode_fields_frame _ _ _ _ _ _ n H2 Hnot).
    cbn [setattr attrs fst]. apply lookup_insert_eq.
  - destruct (IH Hnd (setattr inst n v) _ _ st' i f sz Hd H2 Hi Hsz)
      as (v' & Hattr & Hv').
    exists v'. split; [exact Hattr|].
    unfold field_offset in *. cbn [take fmap list_fmap foldr].
    cbn zeta in *.
    replace (off + (field_width sz0 + foldr Z.add 0 (field_width <$> take i sizes)))
      with (off + field_width sz0 + foldr Z.add 0 (field_width <$> take i sizes))
      by lia.
    exact Hv'.
Qed.

(** What [create_with_bytes] leaves under a field name: the value decoded
    from the field's slice of the first [SIZE] bytes. *)
Lemma decoded_field (p : struct_class) (raw : list byte) (bo : byte_order)
    (inst : Struct) (i : nat) (f : string) (sz : field_size struct_class) :
  well_formed p ->
  _FIELDNAMES p !! i = Some f -> _SIZES p !! i = Some sz ->
  create_with_bytes p raw bo = Ok inst ->
  _fields inst = _FIELDNAMES p /\ _field_sizes inst !! f = Some sz /\
  byte_order_of inst = bo /\
  exists v, attrs inst !! f = Some v /\
    match sz with
    | SizeInt tag =>
      decode_int_field tag
        (py_slice (py_slice raw 0 (SIZE p)) (field_offset (_SIZES p) i)
           (field_offset (_SIZES p) i + Z.land size_mask tag)) bo = Ok v
    | SizeCls ch => exists child, v = VStruct child
    end.
Proof.
  intros Hwf Hf Hsz Hrun. pose proof Hwf as (Hnd & Hlen & _).
  destruct (new_instance_spec p bo Hnd Hlen)
    as (inst0 & Hnew & Hcls & Hfields & Hbo & _ & Hlook).
  unfold create_with_bytes in Hrun. cbn [create_with_bytes_rec] in Hrun.
  rewrite Hnew, bind_ok, Hfields in Hrun.
  apply bind_inv in Hrun as ([[inst1 inst_raw] off] & Hloop & Hmat).
  destruct (decode_fields_field _ _ _ _ _ _ Hlook Hnd
              inst0 [] 0 _ i f sz eq_refl Hloop Hf Hsz) as (v & Hattr & Hv).
  cbn [fst] in Hattr. cbn zeta in Hv. rewrite !Z.add_0_l in Hv.
  pose proof (decode_fields_same_engine _ _ _ _ _ _ Hloop)
    as (Hc1 & Hf1 & Hs1 & Hb1 & _).
  cbn in Hc1, Hf1, Hs1, Hb1.
  apply materialize_frame in Hmat as (_ & Hf2 & Hs2 & Hb2 & Ha).
  cbn [setattr cls _fields _field_sizes byte_order_of attrs] in *.
  assert (Hin : f ∈ _FIELDNAMES p) by (apply list_elem_of_lookup; eauto).
  split; [congruence|]. split.
  { rewrite Hs2, <- Hs1.
    exact (Forall2_lookup_lr _ _ _ _ _ _ Hlook Hf Hsz). }
  split; [congruence|]. exists v. split.
  - rewrite Ha.
    + rewrite lookup_insert_ne; [exact Hattr|].
      intros E. apply (field_not_raw p f Hwf Hin). congruence.
    + rewrite <- Hc1, Hcls. apply field_not_bitfield; assumption.
  - destruct sz as [tag|ch]; [exact Hv|].
    destruct Hv as (child & -> & _). eauto.
Qed.

Lemma rebuild_fields_error (self : Struct) (names : list string) (n : string)
    (e : exception) (raw0 : list byte) :
  n ∈ names -> rebuild_field self n = Err e ->
  exists e', rebuild_fields self names raw0 = Err e'.
Proof.
  intros Hin Hn. revert raw0. induction names as [|f names IH]; intros raw0.
  - apply elem_of_nil in Hin. destruct Hin.
  - cbn [rebuild_fields]. destruct (rebuild_field self f) as [data|e0] eqn:Ef;
      [|eauto].
    rewrite bind_ok. apply elem_of_cons in Hin as [->|Hin]; [congruence|].
    apply IH, Hin.
Qed.

(** ** Nested records and [raw] *)

(** X8.  [_rebuild_raw] has no case for a nested instance: the [raw] of a
    decoded instance of a well-formed class with a nested field is never
    built, every read of it raises. *)
Theorem nested_field_blocks_raw (p ch : struct_class) (raw0 : list byte)
    (bo : byte_order) (inst : Struct) (i : nat) (f : string) :
  well_formed p ->
  _FIELDNAMES p !! i = Some f ->
  _SIZES p !! i = Some (SizeCls ch) ->
  create_with_bytes p raw0 bo = Ok inst ->
  rebuild_field inst f = Err AssertionError /\
  exists e, raw inst = Err e.
Proof.
  intros Hwf Hf Hsz Hrun.
  destruct (decoded_field p raw0 bo inst i f _ Hwf Hf Hsz Hrun)
    as (Hfields & Hsize & _ & v & Hattr & child & ->).
  assert (Hfield : rebuild_field inst f = Err AssertionError).
  { unfold rebuild_field. rewrite Hsize, Hattr. reflexivity. }
  split; [exact Hfield|].
  unfold raw, _rebuild_raw. rewrite Hfields.
  apply (rebuild_fields_error inst _ f AssertionError); [|exact Hfield].
  apply list_elem_of_lookup. eauto.
Qed.

Lemma nested_field_blocks_raw_witness :
  exists inst,
    create_with_bytes tagged_header tagged_header_bytes Big = Ok inst /\
    rebuild_field inst "header" = Err AssertionError /\
    exists e, raw inst = Err e.
Proof.
  destruct tagged_header_decodes as [inst Hinst]. exists inst.
  split; [exact Hinst|].
  apply (nested_field_blocks_raw tagged_header fat_header tagged_header_bytes
           Big inst 1 "header").
  - by_evaluation.
  - reflexivity.
  - reflexivity.
  - exact Hinst.
Defined.

(** ** The range of decoded integers *)

Lemma py_slice_length {A} (l : list A) (a w : Z) :
  0 <= w -> Z.of_nat (length (py_slice l a (a + w))) <= w.
Proof.
  intros Hw. unfold py_slice, py_clamp. rewrite length_take, length_drop.
  destruct (Z.ltb_spec a 0), (Z.ltb_spec (a + w) 0); lia.
Qed.

Lemma int_from_bytes_range (data : list byte) (bo : byte_order) (w : Z) :
  Z.of_nat (length data) <= w -> 0 <= int_from_bytes data bo < 256 ^ w.
Proof.
  intros Hlen.
  assert (Hr : 0 <= int_from_bytes data bo < 256 ^ Z.of_nat (length data)).
  { destruct bo; cbn [int_from_bytes];
      [|rewrite <- (length_reverse data)]; apply from_bytes_le_range. }
  assert (256 ^ Z.of_nat (length data) <= 256 ^ w)
    by (apply Z.pow_le_mono_r; lia).
  lia.
Qed.

(** X9.  Whatever the buffer, complete or truncated, a decoded unsigned
    field of width [w] holds an integer of [0, 256^w) and a decoded signed
    field one of [-2^(8w-1), 2^(8w-1)). *)
Theorem decoded_integers_fit (p : struct_class) (raw0 : list byte)
    (bo : byte_order) (inst : Struct) (i : nat) (f : string) (tag : Z) :
  well_formed p ->
  _FIELDNAMES p !! i = Some f ->
  _SIZES p !! i = Some (SizeInt tag) ->
  create_with_bytes p raw0 bo = Ok inst ->
  let w := Z.land size_mask tag in
  (Z.land type_mask tag = type_uint ->
   exists v, attrs inst !! f = Some (VInt v) /\ 0 <= v < 256 ^ w) /\
  (Z.land type_mask tag = type_sint ->
   exists v, attrs inst !! f = Some (VInt v) /\
     - 2 ^ (w * 8 - 1) <= v < 2 ^ (w * 8 - 1)).
Proof.
  intros Hwf Hf Hsz Hrun w.
  destruct (decoded_field p raw0 bo inst i f _ Hwf Hf Hsz Hrun)
    as (_ & _ & _ & v & Hattr & Hdec).
  assert (Hw : 0 <= w).
  { subst w. apply Z.land_nonneg. left. unfold size_mask. lia. }
  fold w in Hdec.
  set (data := py_slice (py_slice raw0 0 (SIZE p)) (field_offset (_SIZES p) i)
                 (field_offset (_SIZES p) i + w)) in *.
  pose proof (py_slice_length (py_slice raw0 0 (SIZE p))
                (field_offset (_SIZES p) i) w Hw) as Hlen.
  fold data in Hlen.
  pose proof (int_from_bytes_range data bo w Hlen) as Hu.
  unfold decode_int_field in Hdec. fold w in Hdec. split; intros Ht.
  - rewrite Ht in Hdec. cbn in Hdec. injection Hdec as <-. eauto.
  - rewrite Ht in Hdec.
    cbn [Z.eqb type_sint type_str type_bytes type_uint Pos.eqb] in Hdec.
    apply bind_inv in Hdec as (v' & Hv' & [= <-]).
    assert (Hpos : 0 < w * 8).
    { unfold _uint_to_int in Hv'.
      destruct (Z.ltb_spec (w * 8 - 1) 0); [discriminate|lia]. }
    rewrite uint_to_int_spec in Hv' by exact Hpos. injection Hv' as <-.
    exists (if Z.testbit (int_from_bytes data bo) (w * 8 - 1)
            then int_from_bytes data bo - 2 ^ (w * 8)
            else int_from_bytes data bo).
    split; [exact Hattr|].
    apply uint_to_int_twos_complement; [exact Hpos|].
    replace (2 ^ (w * 8)) with (256 ^ w); [exact Hu|].
    change 256 with (2 ^ 8). rewrite <- Z.pow_mul_r by lia. f_equal. lia.
Qed.

(** A class of tags that decode from any slice decodes from any buffer. *)
Lemma total_class_decodes (c : struct_class) (tags : list Z) (B : list byte)
    (bo : byte_order) :
  well_formed c -> kind c = PlainStruct ->
  _SIZES c = SizeInt <$> tags ->
  Forall (fun tag => total_tag tag = true) tags ->
  exists inst, create_with_bytes c B bo = Ok inst.
Proof.
  intros Hwf Hplain Hsizes Htags. pose proof Hwf as (Hnd & Hlen & _).
  destruct (new_instance_spec c bo Hnd Hlen)
    as (inst0 & Hnew & Hcls & Hfields & _ & _ & Hlook).
  rewrite Hsizes in Hlook. apply Forall2_fmap_r in Hlook.
  unfold create_with_bytes. rewrite (flat_class_depth c tags Hsizes).
  cbn [create_with_bytes_rec]. rewrite Hnew, bind_ok, Hfields.
  destruct (decode_fields_total (fun _ _ => Err RecursionError)
              (py_slice B 0 (SIZE c)) bo _ _ _ Hlook Htags inst0 [] 0 eq_refl)
    as ([[inst1 inst_raw] off] & -> & Hs).
  rewrite bind_ok, materialize_plain; [eauto|].
  destruct Hs as (Hc & _). cbn in Hc. cbn [setattr cls]. congruence.
Qed.

(** C2, as the code has it.  [create_with_bytes] checks no length.  Bytes
    beyond [SIZE] are ignored; from a shorter buffer every field is decoded
    from what is left of its slice, so that a well-formed plain class of
    integer and bytes fields decodes from any buffer. *)
Theorem decode_checks_no_length :
  (forall c B extra bo,
     Z.of_nat (length B) = SIZE c ->
     create_with_bytes c (B ++ extra) bo = create_with_bytes c B bo) /\
  (forall c tags B bo,
     well_formed c -> kind c = PlainStruct ->
     _SIZES c = SizeInt <$> tags ->
     Forall (fun tag => total_tag tag = true) tags ->
     exists inst,
       create_with_bytes c B bo = Ok inst /\
       forall i f tag,
         _FIELDNAMES c !! i = Some f -> tags !! i = Some tag ->
         exists v,
           attrs inst !! f = Some v /\
           decode_int_field tag
             (py_slice (py_slice B 0 (SIZE c)) (field_offset (_SIZES c) i)
                (field_offset (_SIZES c) i + Z.land size_mask tag)) bo
           = Ok v).
Proof.
  split; [exact create_with_bytes_excess|].
  intros c tags B bo Hwf Hplain Hsizes Htags.
  destruct (total_class_decodes c tags B bo Hwf Hplain Hsizes Htags)
    as [inst Hinst].
  exists inst. split; [exact Hinst|]. intros i f tag Hi Ht.
  assert (Hsz : _SIZES c !! i = Some (SizeInt tag))
    by (rewrite Hsizes, list_lookup_fmap, Ht; reflexivity).
  destruct (decoded_field c B bo inst i f _ Hwf Hi Hsz Hinst)
    as (_ & _ & _ & v & Hv & Hdec).
  exists v. split; [exact Hv|exact Hdec].
Qed.

Lemma decode_checks_no_length_witness :
  create_with_bytes fat_header
    ([xca; xfe; xba; xbe; x00; x00; x00; x02] ++ [xff; xff]) Big
  = create_with_bytes fat_header [xca; xfe; xba; xbe; x00; x00; x00; x02] Big /\
  exists inst,
    create_with_bytes fat_header truncated_fat_header Little = Ok inst /\
    forall i f tag,
      _FIELDNAMES fat_header !! i = Some f ->
      [uint32_t; uint32_t] !! i = Some tag ->
      exists v,
        attrs inst !! f = Some v /\
        decode_int_field tag
          (py_slice (py_slice truncated_fat_header 0 (SIZE fat_header))
             (field_offset (_SIZES fat_header) i)
             (field_offset (_SIZES fat_header) i + Z.land size_mask tag))
          Little
        = Ok v.
Proof.
  split.
  - apply (proj1 decode_checks_no_length). reflexivity.
  - apply (proj2 decode_checks_no_length fat_header [uint32_t; uint32_t]).
    + by_evaluation.
    + reflexivity.
    + reflexivity.
    + by_evaluation.
Defined.

Lemma decoded_integers_fit_witness :
  exists inst,
    create_with_bytes fat_header truncated_fat_header Little = Ok inst /\
    exists v, attrs inst !! "nfat_archs"%string = Some (VInt v) /\
      0 <= v < 256 ^ Z.land size_mask uint32_t.
Proof.
  destruct (total_class_decodes fat_header [uint32_t; uint32_t]
              truncated_fat_header Little) as [inst Hinst].
  - by_evaluation.
  - reflexivity.
  - reflexivity.
  - by_evaluation.
  - exists inst. split; [exact Hinst|].
    apply (proj1 (decoded_integers_fit fat_header truncated_fat_header Little
                    inst 1 "nfat_archs" uint32_t ltac:(by_evaluation)
                    eq_refl eq_refl Hinst)).
    reflexivity.
Defined.

(** ** Unsigned records *)

Lemma py_slice_concat {A} (datas : list (list A)) (k : nat) (d : list A) :
  datas !! k = Some d ->
  py_slice (concat datas) (Z.of_nat (length (concat (take k datas))))
    (Z.of_nat (length (concat (take k datas))) + Z.of_nat (length d)) = d.
Proof.
  intros Hk. rewrite <- (take_drop_middle datas k d Hk) at 1.
  rewrite concat_app. cbn [concat]. apply py_slice_middle.
Qed.

Lemma field_offset_of_slots (tags : list Z) (datas : list (list byte)) (k : nat) :
  Forall2 (fun tag d => Z.of_nat (length d) = Z.land size_mask tag) tags datas ->
  field_offset (SizeInt <$> tags) k = Z.of_nat (length (concat (take k datas))).
Proof.
  intros H. revert k. induction H as [|tag d tags datas Hd _ IH]; intros k.
  - destruct k; reflexivity.
  - destruct k as [|k]; [reflexivity|].
    unfold field_offset in *. cbn [fmap list_fmap take foldr concat field_width].
    rewrite length_app, Nat2Z.inj_add, <- IH, Hd. reflexivity.
Qed.

Lemma Forall2_choice {A B} (P : A -> B -> Prop) (l : list A) :
  Forall (fun x => exists y, P x y) l -> exists k, Forall2 P l k.
Proof.
  induction 1 as [|x l [y Hy] _ [k Hk]]; [exists []; constructor|].
  exists (y :: k). constructor; assumption.
Qed.

Lemma sum_of_slot_lengths (tags : list Z) (datas : list (list byte)) :
  Forall2 (fun tag d => Z.of_nat (length d) = tag) tags datas ->
  Z.of_nat (length (concat datas)) = foldr Z.add 0 tags.
Proof.
  induction 1 as [|tag d tags datas Hd _ IH]; [reflexivity|].
  cbn [concat foldr]. rewrite length_app. lia.
Qed.

Lemma decoded_field_engine (p : struct_class) (raw0 : list byte)
    (bo : byte_order) (inst : Struct) :
  well_formed p -> create_with_bytes p raw0 bo = Ok inst ->
  _fields inst = _FIELDNAMES p /\ byte_order_of inst = bo.
Proof.
  intros Hwf Hrun. unfold create_with_bytes in Hrun.
  cbn [create_with_bytes_rec] in Hrun.
  apply bind_inv in Hrun as (inst0 & Hnew & Hrun).
  apply bind_inv in Hrun as ([[inst1 inst_raw] off] & Hloop & Hmat).
  apply new_instance_inv in Hnew as (_ & Hf & Hb & _).
  apply decode_fields_same_engine in Hloop as (_ & Hf1 & _ & Hb1 & _).
  cbn in Hf1, Hb1.
  apply materialize_frame in Hmat as (_ & Hf2 & _ & Hb2 & _).
  cbn [setattr _fields byte_order_of] in *. split; congruence.
Qed.

(** X10.  For a well-formed class of unsigned fields whose [SIZE] is the
    sum of the widths, the [raw] of an instance decoded from any buffer, complete or
    truncated, has exactly [SIZE] bytes, and decoding that [raw] gives every
    field the value it had. *)
Theorem unsigned_record_raw_is_canonical (c : struct_class) (tags : list Z)
    (raw0 : list byte) (bo : byte_order) :
  well_formed c -> kind c = PlainStruct ->
  _SIZES c = SizeInt <$> tags ->
  Forall (fun tag => is_uint_tag tag = true) tags ->
  SIZE c = foldr Z.add 0 tags ->
  exists inst r inst',
    create_with_bytes c raw0 bo = Ok inst /\
    raw inst = Ok r /\ Z.of_nat (length r) = SIZE c /\
    create_with_bytes c r bo = Ok inst' /\
    forall f, f ∈ _FIELDNAMES c -> attrs inst' !! f = attrs inst !! f.
Proof.
  intros Hwf Hplain Hsizes Htags Hsize. pose proof Hwf as (Hnd & Hlen & _).
  assert (Hmask : forall tag, tag ∈ tags ->
            Z.land size_mask tag = tag /\ Z.land type_mask tag = type_uint).
  { intros tag Hin. rewrite Forall_forall in Htags.
    pose proof (Htags tag Hin) as Ht. split; [|apply uint_tag_type, Ht].
    unfold is_uint_tag in Ht. apply Z.eqb_eq in Ht. exact Ht. }
  assert (Htotal : Forall (fun tag => total_tag tag = true) tags).
  { apply Forall_forall. intros tag Hin. destruct (Hmask tag Hin) as [_ Ht].
    unfold total_tag, is_str_tag. rewrite Ht. reflexivity. }
  destruct (total_class_decodes c tags raw0 bo Hwf Hplain Hsizes Htotal)
    as [inst Hinst].
  assert (Hfield : forall k n tag,
            _FIELDNAMES c !! k = Some n -> tags !! k = Some tag ->
            exists d, rebuild_field inst n = Ok d /\
              Z.of_nat (length d) = tag /\
              attrs inst !! n = Some (VInt (int_from_bytes d bo))).
  { intros k n tag Hn Htag.
    assert (Hsz : _SIZES c !! k = Some (SizeInt tag))
      by (rewrite Hsizes, list_lookup_fmap, Htag; reflexivity).
    destruct (Hmask tag) as [Hs Ht]; [apply list_elem_of_lookup; eauto|].
    destruct (decoded_field c raw0 bo inst k n _ Hwf Hn Hsz Hinst)
      as (_ & Hfs & Hbo & v & Hattr & Hdec).
    rewrite Hs in Hdec. unfold decode_int_field in Hdec.
    rewrite Ht in Hdec. cbn in Hdec. injection Hdec as <-.
    match type of Hattr with context [int_from_bytes ?data bo] =>
      pose proof (int_from_bytes_range data bo tag) as Hr;
      pose proof (py_slice_length (py_slice raw0 0 (SIZE c))
                    (field_offset (_SIZES c) k) tag) as Hl
    end.
    assert (Htag0 : 0 <= tag).
    { rewrite <- Hs. apply Z.land_nonneg. left. unfold size_mask. lia. }
    specialize (Hr (Hl Htag0)).
    assert (Htag1 : 0 <= tag <= ssize_t_max).
    { pose proof (size_mask_bound tag) as Hb. rewrite Hs in Hb.
      unfold size_mask, ssize_t_max in *. lia. }
    destruct (int_field_encodes inst n tag _ Hfs Hattr Htag1 Hr)
      as (d & Hd & Hdl & Hdv).
    exists d. rewrite Hbo in Hdv. rewrite Hdv. auto. }
  assert (Hall : Forall2 (fun n tag => exists d, rebuild_field inst n = Ok d /\
                    Z.of_nat (length d) = tag /\
                    attrs inst !! n = Some (VInt (int_from_bytes d bo)))
                   (_FIELDNAMES c) tags).
  { apply Forall2_same_length_lookup. split.
    - rewrite Hlen, Hsizes, length_fmap. reflexivity.
    - intros k n tag. apply Hfield. }
  assert (Hdatas : exists datas,
            Forall2 (fun n d => rebuild_field inst n = Ok d /\
                       attrs inst !! n = Some (VInt (int_from_bytes d bo)))
              (_FIELDNAMES c) datas /\
            Forall2 (fun tag d => Z.of_nat (length d) = tag) tags datas).
  { clear -Hall. induction Hall as [|n tag names tags (d & H1 & H2 & H3) _ IH].
    - exists []. split; constructor.
    - destruct IH as (datas & Ha & Hb). exists (d :: datas).
      split; constructor; auto. }
  destruct Hdatas as (datas & Hnames & Hlens).
  destruct (decoded_field_engine c raw0 bo inst Hwf Hinst) as (Hfields & _).
  assert (Hraw : raw inst = Ok (concat datas)).
  { unfold raw, _rebuild_raw. rewrite Hfields.
    apply (rebuild_fields_spec inst _ datas []).
    eapply Forall2_impl; [exact Hnames|]. intros n d [H _]. exact H. }
  pose proof (sum_of_slot_lengths tags datas Hlens) as Hsum.
  assert (Hslots : Forall2 (fun tag d => Z.of_nat (length d)
                                         = Z.land size_mask tag) tags datas).
  { apply Forall2_same_length_lookup. split; [eapply Forall2_length, Hlens|].
    intros k tag d Htag Hd.
    rewrite (proj1 (Hmask tag ltac:(apply list_elem_of_lookup; eauto))).
    exact (Forall2_lookup_lr _ _ _ _ _ _ Hlens Htag Hd). }
  destruct (total_class_decodes c tags (concat datas) bo Hwf Hplain Hsizes Htotal)
    as [inst' Hinst'].
  exists inst, (concat datas), inst'.
  split; [exact Hinst|]. split; [exact Hraw|]. split; [lia|].
  split; [exact Hinst'|].
  intros f Hf. apply list_elem_of_lookup in Hf as [k Hk].
  destruct (Forall2_lookup_l _ _ _ _ _ Hnames Hk) as (d & Hd & _ & Hattr).
  assert (Htag : exists tag, tags !! k = Some tag).
  { destruct (Forall2_lookup_r _ _ _ _ _ Hlens Hd) as (tag & Htag & _). eauto. }
  destruct Htag as [tag Htag].
  assert (Hsz : _SIZES c !! k = Some (SizeInt tag))
    by (rewrite Hsizes, list_lookup_fmap, Htag; reflexivity).
  destruct (Hmask tag) as [Hs Ht]; [apply list_elem_of_lookup; eauto|].
  destruct (decoded_field c (concat datas) bo inst' k f _ Hwf Hk Hsz Hinst')
    as (_ & _ & _ & v & Hattr' & Hdec).
  rewrite Hattr, Hattr'. f_equal.
  rewrite py_slice_prefix, take_ge in Hdec by lia.
  rewrite Hsizes, (field_offset_of_slots tags datas k Hslots), Hs in Hdec.
  unfold decode_int_field in Hdec. rewrite Ht in Hdec.
  cbn [Z.eqb type_str type_bytes type_uint Pos.eqb] in Hdec.
  rewrite <- (Forall2_lookup_lr _ _ _ _ _ _ Hlens Htag Hd) in Hdec.
  rewrite (py_slice_concat datas k d Hd) in Hdec.
  congruence.
Qed.

Lemma unsigned_record_raw_is_canonical_witness :
  exists inst r inst',
    create_with_bytes fat_header truncated_fat_header Big = Ok inst /\
    raw inst = Ok r /\ Z.of_nat (length r) = SIZE fat_header /\
    create_with_bytes fat_header r Big = Ok inst' /\
    forall f, f ∈ _FIELDNAMES fat_header -> attrs inst' !! f = attrs inst !! f.
Proof.
  apply (unsigned_record_raw_is_canonical fat_header [uint32_t; uint32_t]).
  - by_evaluation.
  - reflexivity.
  - reflexivity.
  - by_evaluation.
  - reflexivity.
Defined.

(** Five bytes read big-endian as a [fat_header]: the second field is read
    from the one byte left, and [raw] has the eight bytes of the two values. *)
Example truncated_fat_header_raw :
  raw_of_decoded fat_header truncated_fat_header Big
  = Ok [x01; x02; x03; x04; x00; x00; x00; x05].
Proof. vm_compute. reflexivity. Qed.

(** ** The sub-fields of a bit field hold all of its bits *)

Lemma bit_offset_nonneg (sizes : list Z) (i : nat) :
  Forall (fun b => 0 < b) sizes -> 0 <= bit_offset sizes i.
Proof.
  intros H. unfold bit_offset. revert i.
  induction H as [|b sizes Hb _ IH]; intros [|i]; cbn [take foldr]; try lia.
  specialize (IH i). lia.
Qed.

Lemma mask_is_mod (v o b : Z) :
  0 <= o -> 0 <= b ->
  Z.land (Z.shiftr v o) (Z.shiftl 1 b - 1) = (v / 2 ^ o) mod 2 ^ b.
Proof.
  intros Ho Hb. rewrite Z.shiftr_div_pow2, Z.shiftl_1_l by lia.
  replace (2 ^ b - 1) with (Z.ones b) by (rewrite Z.ones_equiv; lia).
  apply Z.land_ones. lia.
Qed.

Lemma split_bits_lookup (sizes : list Z) (v : Z) (i : nat) (b : Z) :
  Forall (fun b => 0 < b) sizes -> sizes !! i = Some b ->
  split_bits sizes v !! i = Some ((v / 2 ^ bit_offset sizes i) mod 2 ^ b).
Proof.
  intros H. revert v i. induction H as [|b0 sizes Hb0 Hpos IH]; intros v i Hi;
    [discriminate|].
  destruct i as [|i].
  - injection Hi as <-. cbn. rewrite Z.div_1_r. reflexivity.
  - change (split_bits (b0 :: sizes) v !! S i)
      with (split_bits sizes (v / 2 ^ b0) !! i).
    change ((b0 :: sizes) !! S i) with (sizes !! i) in Hi.
    rewrite (IH (v / 2 ^ b0) i Hi). f_equal. f_equal.
    unfold bit_offset. cbn [take foldr]. fold (bit_offset sizes i).
    pose proof (bit_offset_nonneg sizes i Hpos).
    rewrite Z.pow_add_r, Z.div_div by (try apply Z.pow_pos_nonneg; lia).
    reflexivity.
Qed.

Lemma length_split_bits (sizes : list Z) (v : Z) :
  length (split_bits sizes v) = length sizes.
Proof.
  revert v. induction sizes as [|b sizes IH]; intros v; [reflexivity|].
  cbn [split_bits length]. rewrite IH. reflexivity.
Qed.

Lemma join_split_bits (sizes : list Z) (v : Z) :
  Forall (fun b => 0 < b) sizes ->
  join_bits sizes (split_bits sizes v) = v mod 2 ^ foldr Z.add 0 sizes.
Proof.
  intros H. revert v. induction H as [|b sizes Hb Hpos IH]; intros v.
  - cbn. rewrite Z.mod_1_r. reflexivity.
  - cbn [split_bits join_bits foldr]. rewrite IH.
    assert (0 <= foldr Z.add 0 sizes).
    { clear -Hpos. induction Hpos; cbn [foldr]; lia. }
    rewrite Z.pow_add_r by lia.
    rewrite Z.rem_mul_r by (try apply Z.pow_pos_nonneg; try lia;
                            apply Z.pow_nonzero; lia).
    reflexivity.
Qed.

(** X11.  On an intact instance, with sub-field names outside
    [reserved_names] and a [SIZE] that a tag holds, the sub-fields that
    [pre_init] sets hold all the bits of the backing value and no others: each lies in [0, 2^b) for its width [b],
    and joined again, the first one lowest, they give the backing value. *)
Theorem bitfield_split_is_lossless (self : Struct) (names : list string)
    (sizes : list Z) (v : Z) :
  intact self ->
  kind (cls self) = BitFieldStruct names sizes ->
  unreserved names ->
  SIZE (cls self) <= size_mask ->
  attrs self !! "value"%string = Some (VInt v) ->
  NoDup names ->
  length names = length sizes ->
  Forall (fun b => 0 < b) sizes ->
  foldr Z.add 0 sizes = SIZE (cls self) * 8 ->
  0 <= v < 2 ^ (SIZE (cls self) * 8) ->
  exists self' vals,
    pre_init self = Ok self' /\
    Forall2 (fun name x => attrs self' !! name = Some (VInt x)) names vals /\
    Forall2 (fun b x => 0 <= x < 2 ^ b) sizes vals /\
    join_bits sizes vals = v.
Proof.
  intros _ Hkind _ Hsize Hvalue Hnd Hlen Hpos Hsum Hv.
  destruct (bitfield_loop_spec sizes v names Hpos
              (widths_fit _ _ Hpos Hsum Hsize) self 0%nat Hnd ltac:(lia))
    as (self' & Hloop & Hsub).
  exists self', (split_bits sizes v). split; [|split; [|split]].
  - unfold pre_init. rewrite Hkind, Hsum, Z.eqb_refl, Hvalue. exact Hloop.
  - apply Forall2_same_length_lookup. split;
      [rewrite length_split_bits; exact Hlen|].
    intros i name x Hname Hx.
    destruct (lookup_lt_is_Some_2 sizes i) as [b Hb];
      [rewrite <- Hlen; eapply lookup_lt_Some, Hname|].
    rewrite (split_bits_lookup sizes v i b Hpos Hb) in Hx. injection Hx as <-.
    rewrite (Hsub i name b Hname Hb). cbn [Nat.add].
    assert (0 < b) by (rewrite Forall_forall in Hpos; apply Hpos;
                       apply list_elem_of_lookup; eauto).
    rewrite mask_is_mod by (try apply bit_offset_nonneg; try assumption; lia).
    reflexivity.
  - apply Forall2_same_length_lookup. split;
      [rewrite length_split_bits; reflexivity|].
    intros i b x Hb Hx.
    rewrite (split_bits_lookup sizes v i b Hpos Hb) in Hx. injection Hx as <-.
    assert (0 < b) by (rewrite Forall_forall in Hpos; apply Hpos;
                       apply list_elem_of_lookup; eauto).
    apply Z.mod_pos_bound, Z.pow_pos_nonneg; lia.
  - rewrite join_split_bits, Hsum by exact Hpos. apply Z.mod_small, Hv.
Qed.

Lemma bitfield_split_is_lossless_witness :
  exists self' vals,
    pre_init (bits_with_value 0xdeadbeef) = Ok self' /\
    Forall2 (fun name x => attrs self' !! name = Some (VInt x))
      ["low"; "mid"; "high"]%string vals /\
    Forall2 (fun b x => 0 <= x < 2 ^ b) [2; 2; 28] vals /\
    join_bits [2; 2; 28] vals = 0xdeadbeef.
Proof.
  apply (bitfield_split_is_lossless (bits_with_value 0xdeadbeef)).
  - by_evaluation.
  - reflexivity.
  - by_evaluation.
  - by_evaluation.
  - vm_compute. reflexivity.
  - by_evaluation.
  - reflexivity.
  - by_evaluation.
  - reflexivity.
  - vm_compute. split; [discriminate|reflexivity].
Defined.

(** ** UTF-8, from strings to bytes and back *)

Lemma utf8_decode_1 (b0 : byte) (rest : list byte) :
  byte_val b0 < 128 ->
  utf8_decode (b0 :: rest) = cons (byte_val b0) <$> utf8_decode rest.
Proof.
  intros H. cbn [utf8_decode].
  destruct (Z.ltb_spec (byte_val b0) 128); [reflexivity|lia].
Qed.

Lemma utf8_decode_2 (b0 b1 : byte) (rest : list byte) :
  194 <= byte_val b0 <= 223 -> is_cont b1 = true ->
  utf8_decode (b0 :: b1 :: rest)
  = cons ((byte_val b0 - 192) * 64 + (byte_val b1 - 128)) <$> utf8_decode rest.
Proof.
  intros H0 H1. cbn [utf8_decode]. rewrite H1.
  destruct (Z.ltb_spec (byte_val b0) 128); [lia|].
  destruct (Z.leb_spec 194 (byte_val b0)); [|lia].
  destruct (Z.leb_spec (byte_val b0) 223); [|lia]. reflexivity.
Qed.

Lemma utf8_decode_3 (b0 b1 b2 : byte) (rest : list byte) :
  224 <= byte_val b0 <= 239 ->
  in_range (second_lo (byte_val b0)) (second_hi (byte_val b0)) b1 = true ->
  is_cont b2 = true ->
  utf8_decode (b0 :: b1 :: b2 :: rest)
  = cons ((byte_val b0 - 224) * 4096 + (byte_val b1 - 128) * 64
          + (byte_val b2 - 128)) <$> utf8_decode rest.
Proof.
  intros H0 H1 H2. cbn [utf8_decode]. rewrite H1, H2.
  destruct (Z.ltb_spec (byte_val b0) 128); [lia|].
  destruct (Z.leb_spec 194 (byte_val b0)); [|lia].
  destruct (Z.leb_spec (byte_val b0) 223); [lia|].
  destruct (Z.leb_spec 224 (byte_val b0)); [|lia].
  destruct (Z.leb_spec (byte_val b0) 239); [|lia]. reflexivity.
Qed.

Lemma utf8_decode_4 (b0 b1 b2 b3 : byte) (rest : list byte) :
  240 <= byte_val b0 <= 244 ->
  in_range (second_lo (byte_val b0)) (second_hi (byte_val b0)) b1 = true ->
  is_cont b2 = true -> is_cont b3 = true ->
  utf8_decode (b0 :: b1 :: b2 :: b3 :: rest)
  = cons ((byte_val b0 - 240) * 262144 + (byte_val b1 - 128) * 4096
          + (byte_val b2 - 128) * 64 + (byte_val b3 - 128))
      <$> utf8_decode rest.
Proof.
  intros H0 H1 H2 H3. cbn [utf8_decode]. rewrite H1, H2, H3.
  destruct (Z.ltb_spec (byte_val b0) 128); [lia|].
  destruct (Z.leb_spec 194 (byte_val b0)); [|lia].
  destruct (Z.leb_spec (byte_val b0) 223); [lia|].
  destruct (Z.leb_spec 224 (byte_val b0)); [|lia].
  destruct (Z.leb_spec (byte_val b0) 239); [lia|].
  destruct (Z.leb_spec 240 (byte_val b0)); [|lia].
  destruct (Z.leb_spec (byte_val b0) 244); [|lia]. reflexivity.
Qed.

Lemma is_cont_of (y : Z) : 128 <= y <= 191 -> is_cont (byte_of y) = true.
Proof.
  intros H. unfold is_cont. rewrite byte_val_of by lia.
  apply andb_true_iff. split; apply Z.leb_le; lia.
Qed.

Lemma in_range_second_of (x y : Z) :
  128 <= y <= 191 ->
  (x = 224 -> 160 <= y) -> (x = 237 -> y <= 159) ->
  (x = 240 -> 144 <= y) -> (x = 244 -> y <= 143) ->
  in_range (second_lo x) (second_hi x) (byte_of y) = true.
Proof.
  intros Hy H1 H2 H3 H4. unfold in_range, second_lo, second_hi.
  rewrite byte_val_of by lia.
  apply andb_true_iff. split; apply Z.leb_le.
  - destruct (Z.eqb_spec x 224); [lia|]. destruct (Z.eqb_spec x 240); lia.
  - destruct (Z.eqb_spec x 237); [lia|]. destruct (Z.eqb_spec x 244); lia.
Qed.

Lemma decode_encoded_char (c : Z) (cb rest : list byte) :
  utf8_encode_char c = Some cb ->
  utf8_decode (cb ++ rest) = cons c <$> utf8_decode rest.
Proof.
  unfold utf8_encode_char.
  destruct (Z.ltb_spec c 0) as [|H0]; [discriminate|].
  destruct (Z.ltb_spec c 128) as [H1|H1].
  { intros [= <-]. cbn [app]. rewrite utf8_decode_1;
      rewrite byte_val_of by lia; [reflexivity|lia]. }
  destruct (Z.ltb_spec c 2048) as [H2|H2].
  { intros [= <-]. cbn [app].
    assert (Hq : 2 <= c / 64 <= 31) by (Z.div_mod_to_equations; lia).
    assert (Hr : 0 <= c mod 64 < 64) by (apply Z.mod_pos_bound; lia).
    assert (Hc : c = 64 * (c / 64) + c mod 64) by (apply Z.div_mod; lia).
    rewrite utf8_decode_2.
    - rewrite !byte_val_of by lia. do 2 f_equal. lia.
    - rewrite byte_val_of by lia. lia.
    - apply is_cont_of. lia. }
  destruct (Z.leb_spec 55296 c) as [H3|H3], (Z.ltb_spec c 57344) as [H3'|H3'];
    cbn [andb]; try discriminate; try lia.
  - (* 57344 <= c *)
    destruct (Z.ltb_spec c 65536) as [H4|H4].
    + intros [= <-]. cbn [app].
      assert (Hq : 14 <= c / 4096 <= 15) by (Z.div_mod_to_equations; lia).
      assert (Hm : 0 <= (c / 64) mod 64 < 64) by (apply Z.mod_pos_bound; lia).
      assert (Hr : 0 <= c mod 64 < 64) by (apply Z.mod_pos_bound; lia).
      assert (Hc : c = 4096 * (c / 4096) + 64 * ((c / 64) mod 64) + c mod 64)
        by (Z.div_mod_to_equations; lia).
      rewrite utf8_decode_3.
      * rewrite !byte_val_of by lia. do 2 f_equal. lia.
      * rewrite byte_val_of by lia. lia.
      * rewrite byte_val_of by lia. apply in_range_second_of; lia.
      * apply is_cont_of. lia.
    + destruct (Z.ltb_spec c 1114112) as [H5|H5]; [|discriminate].
      intros [= <-]. cbn [app].
      assert (Hq : 0 <= c / 262144 <= 4) by (Z.div_mod_to_equations; lia).
      assert (Hn : 0 <= (c / 4096) mod 64 < 64) by (apply Z.mod_pos_bound; lia).
      assert (Hm : 0 <= (c / 64) mod 64 < 64) by (apply Z.mod_pos_bound; lia).
      assert (Hr : 0 <= c mod 64 < 64) by (apply Z.mod_pos_bound; lia).
      assert (Hc : c = 262144 * (c / 262144) + 4096 * ((c / 4096) mod 64)
                       + 64 * ((c / 64) mod 64) + c mod 64)
        by (Z.div_mod_to_equations; lia).
      rewrite utf8_decode_4.
      * rewrite !byte_val_of by lia. do 2 f_equal. lia.
      * rewrite byte_val_of by lia. lia.
      * rewrite byte_val_of by lia. apply in_range_second_of; lia.
      * apply is_cont_of. lia.
      * apply is_cont_of. lia.
  - (* c < 55296 *)
    destruct (Z.ltb_spec c 65536) as [H4|H4]; [|lia].
    intros [= <-]. cbn [app].
    assert (Hq : 0 <= c / 4096 <= 13) by (Z.div_mod_to_equations; lia).
    assert (Hm : 0 <= (c / 64) mod 64 < 64) by (apply Z.mod_pos_bound; lia).
    assert (Hr : 0 <= c mod 64 < 64) by (apply Z.mod_pos_bound; lia).
    assert (Hc : c = 4096 * (c / 4096) + 64 * ((c / 64) mod 64) + c mod 64)
      by (Z.div_mod_to_equations; lia).
    rewrite utf8_decode_3.
    + rewrite !byte_val_of by lia. do 2 f_equal. lia.
    + rewrite byte_val_of by lia. lia.
    + rewrite byte_val_of by lia. apply in_range_second_of; lia.
    + apply is_cont_of. lia.
Qed.

(** Decoding an encoded string gives back the string. *)
Lemma utf8_decode_encode (s : list Z) (bs : list byte) :
  utf8_encode s = Some bs -> utf8_decode bs = Some s.
Proof.
  revert bs. induction s as [|c t IH]; intros bs H.
  - injection H as <-. reflexivity.
  - cbn [utf8_encode] in H.
    destruct (utf8_encode_char c) as [cb|] eqn:Ec; [|discriminate].
    destruct (utf8_encode t) as [r|] eqn:Et; [|discriminate].
    injection H as <-. rewrite (decode_encoded_char c cb r Ec), (IH r eq_refl).
    reflexivity.
Qed.

(** ** From values to bytes and back *)

Lemma set_values_ok (names : list string) (values : list py_value)
    (inst : Struct) (i : nat) :
  (i + length names <= length values)%nat ->
  exists inst', set_values inst names values i = Ok inst'.
Proof.
  revert inst i. induction names as [|f names IH]; intros inst i H;
    [eexists; reflexivity|].
  cbn [set_values length] in *.
  destruct (values !! i) as [v|] eqn:E; [|apply lookup_ge_None in E; lia].
  apply IH. lia.
Qed.

Lemma rebuild_fields_set_initialized (self : Struct) (b : bool)
    (names : list string) (raw0 : list byte) :
  rebuild_fields (set_initialized self b) names raw0
  = rebuild_fields self names raw0.
Proof.
  revert raw0. induction names as [|n names IH]; intros raw0; [reflexivity|].
  cbn [rebuild_fields].
  change (rebuild_field (set_initialized self b) n) with (rebuild_field self n).
  destruct (rebuild_field self n); [rewrite !bind_ok; apply IH|reflexivity].
Qed.

(** What [_rebuild_raw] and then a decode make of a conforming value. *)
Lemma conforms_rebuild (self : Struct) (n : string) (tag : Z) (v : py_value) :
  _field_sizes self !! n = Some (SizeInt tag) ->
  attrs self !! n = Some v ->
  conforms tag v ->
  exists d, rebuild_field self n = Ok d /\
    valid_slot tag d /\
    decode_int_field tag d (byte_order_of self) = Ok (normalized v).
Proof.
  intros Hsz Hat Hc. unfold rebuild_field. rewrite Hsz, Hat.
  unfold valid_slot, codec_tag, decode_int_field.
  destruct v as [|z|s|b|]; cbn [conforms normalized] in *; try contradiction.
  - (* an integer *)
    destruct Hc as [Htag Hz]. pose proof (uint_tag_type tag Htag) as Ht.
    pose proof Htag as Hs. unfold is_uint_tag in Hs. apply Z.eqb_eq in Hs.
    assert (Htag0 : 0 <= tag <= ssize_t_max).
    { pose proof (size_mask_bound tag) as Hb. rewrite Hs in Hb.
      unfold size_mask, ssize_t_max in *. lia. }
    destruct (int_to_bytes_in_range z tag (byte_order_of self) Htag0 Hz)
      as (d & Hd).
    destruct (int_from_to_bytes _ _ _ _ Hd) as [Hv Hl].
    exists d. rewrite Htag, Ht, Hs, Hv. unfold is_str_tag. rewrite Ht.
    repeat split; try assumption. discriminate.
  - (* text *)
    destruct Hc as [Htag Hs]. destruct (utf8_encode s) as [bs|] eqn:Eu;
      [|destruct Hs].
    exists bs. rewrite Htag, orb_true_r.
    pose proof Htag as Ht. unfold is_str_tag in Ht. rewrite Ht.
    rewrite (utf8_decode_encode s bs Eu). repeat split; eauto.
  - (* bytes *)
    destruct Hc as [Htag Hl]. exists b. rewrite Htag, orb_true_r.
    pose proof Htag as Ht. unfold is_bytes_tag in Ht. apply Z.eqb_eq in Ht.
    unfold is_str_tag. rewrite Ht. repeat split; try assumption. discriminate.
Qed.

Lemma sum_of_slot_widths (tags : list Z) (datas : list (list byte)) :
  Forall2 valid_slot tags datas ->
  Z.of_nat (length (concat datas)) = foldr Z.add 0 (Z.land size_mask <$> tags).
Proof.
  induction 1 as [|tag d tags datas (_ & Hd & _) _ IH]; [reflexivity|].
  cbn [concat foldr fmap list_fmap]. rewrite length_app. lia.
Qed.

(** X12.  For a well-formed class of unsigned-integer, bytes and text
    fields whose [SIZE] is the sum of the widths, and values that conform to the fields
    (an integer of the unsigned range, bytes of the width, text whose UTF-8
    encoding has the width), decoding the [raw] of the instance made of the
    values gives every field its value back, text without its NUL
    characters. *)
Theorem values_round_trip (c : struct_class) (tags : list Z)
    (values : list py_value) (bo : byte_order) :
  well_formed c -> kind c = PlainStruct ->
  _SIZES c = SizeInt <$> tags ->
  Forall2 conforms tags values ->
  SIZE c = foldr Z.add 0 (Z.land size_mask <$> tags) ->
  exists inst,
    decode_of_values c values bo = Ok inst /\
    Forall2 (fun n v => attrs inst !! n = Some (normalized v))
      (_FIELDNAMES c) values.
Proof.
  intros Hwf Hplain Hsizes Hconf Hsize. pose proof Hwf as (Hnd & Hlen & _).
  pose proof (Forall2_length _ _ _ Hconf) as Hlv.
  assert (Hlt : length (_FIELDNAMES c) = length tags)
    by (rewrite Hlen, Hsizes, length_fmap; reflexivity).
  destruct (new_instance_spec c bo Hnd Hlen)
    as (inst0 & Hnew & Hcls & Hfields & Hbo & _ & Hlook).
  destruct (set_values_ok (_FIELDNAMES c) values inst0 0 ltac:(lia))
    as (inst1 & Hset).
  pose proof (set_values_same_engine _ _ _ _ _ Hset) as (Hc1 & Hf1 & Hs1 & Hb1 & _).
  (* every field of [inst1] rebuilds to a slot that decodes to its value *)
  assert (Hall : Forall2 (fun n tv => exists d, rebuild_field inst1 n = Ok d /\
                    valid_slot tv.1 d /\
                    decode_int_field tv.1 d bo = Ok (normalized tv.2))
                   (_FIELDNAMES c) (zip tags values)).
  { apply Forall2_same_length_lookup. split; [rewrite length_zip; lia|].
    intros k n [tag v] Hn Htv. apply lookup_zip_Some in Htv as [Htag Hv].
    cbn [fst snd].
    destruct (set_values_lookup _ _ _ _ _ k n Hnd Hset Hn) as (v' & Hv' & Hat).
    cbn [Nat.add] in Hv'. rewrite Hv in Hv'. injection Hv' as <-.
    assert (Hsz : _field_sizes inst1 !! n = Some (SizeInt tag)).
    { rewrite <- Hs1. apply (Forall2_lookup_lr _ _ _ _ _ _ Hlook Hn).
      rewrite Hsizes, list_lookup_fmap, Htag. reflexivity. }
    destruct (conforms_rebuild inst1 n tag v Hsz Hat
                (Forall2_lookup_lr _ _ _ _ _ _ Hconf Htag Hv))
      as (d & Hd & Hvalid & Hdec).
    exists d. rewrite <- Hb1, Hbo in Hdec. auto. }
  assert (Hdatas : exists datas,
            Forall2 (fun n d => rebuild_field inst1 n = Ok d) (_FIELDNAMES c) datas /\
            Forall2 (fun tv d => valid_slot tv.1 d /\
                       decode_int_field tv.1 d bo = Ok (normalized tv.2))
              (zip tags values) datas).
  { clear -Hall. induction Hall as [|n tv names tvs (d & H1 & H2 & H3) _ IH].
    - exists []. split; constructor.
    - destruct IH as (datas & Ha & Hb). exists (d :: datas).
      split; constructor; auto. }
  destruct Hdatas as (datas & Hnames & Htvs).
  assert (Hvalid : Forall2 valid_slot tags datas).
  { apply Forall2_same_length_lookup. split.
    - rewrite <- (Forall2_length _ _ _ Htvs), length_zip. lia.
    - intros k tag d Htag Hd.
      destruct (lookup_lt_is_Some_2 values k) as [v Hv];
        [rewrite <- Hlv; eapply lookup_lt_Some, Htag|].
      assert (Htv : zip tags values !! k = Some (tag, v))
        by (apply lookup_zip_Some; auto).
      exact (proj1 (Forall2_lookup_lr _ _ _ _ _ _ Htvs Htv Hd)). }
  pose proof (sum_of_slot_widths tags datas Hvalid) as Hsum.
  assert (Hraw1 : _rebuild_raw inst1 = Ok (concat datas)).
  { unfold _rebuild_raw. rewrite <- Hf1, Hfields.
    apply (rebuild_fields_spec inst1 _ datas []). exact Hnames. }
  assert (Hvalues : raw_of_values c values bo = Ok (concat datas)).
  { unfold raw_of_values, create_with_values.
    rewrite Hnew, bind_ok, Hfields, Hset, bind_ok, Hraw1, bind_ok.
    rewrite materialize_plain by congruence. rewrite bind_ok.
    unfold raw, _rebuild_raw. cbn [set_initialized _fields].
    rewrite rebuild_fields_set_initialized. exact Hraw1. }
  destruct (proj1 (decode_then_raw c tags datas bo Hwf Hsizes Hvalid
                     ltac:(lia)) Hplain) as [inst Hinst].
  exists inst. split.
  { unfold decode_of_values. rewrite Hvalues, bind_ok. exact Hinst. }
  apply Forall2_same_length_lookup. split; [lia|].
  intros k n v Hn Hv.
  destruct (lookup_lt_is_Some_2 tags k) as [tag Htag];
    [rewrite <- Hlt; eapply lookup_lt_Some, Hn|].
  assert (Htv : zip tags values !! k = Some (tag, v))
    by (apply lookup_zip_Some; auto).
  destruct (Forall2_lookup_l _ _ _ _ _ Htvs Htv) as (d & Hd & _ & Hdec).
  cbn [fst snd] in Hdec.
  assert (Hsz : _SIZES c !! k = Some (SizeInt tag))
    by (rewrite Hsizes, list_lookup_fmap, Htag; reflexivity).
  destruct (decoded_field c (concat datas) bo inst k n _ Hwf Hn Hsz Hinst)
    as (_ & _ & _ & v' & Hattr & Hdec').
  rewrite py_slice_prefix, take_ge in Hdec' by lia.
  assert (Hslots : Forall2 (fun tag d => Z.of_nat (length d)
                                         = Z.land size_mask tag) tags datas).
  { eapply Forall2_impl; [exact Hvalid|]. intros t d' (_ & H & _). exact H. }
  rewrite Hsizes, (field_offset_of_slots tags datas k Hslots) in Hdec'.
  rewrite <- (Forall2_lookup_lr _ _ _ _ _ _ Hslots Htag Hd) in Hdec'.
  rewrite (py_slice_concat datas k d Hd) in Hdec'.
  congruence.
Qed.

Lemma values_round_trip_witness :
  exists inst,
    decode_of_values segment_command segment_values Big = Ok inst /\
    Forall2 (fun n v => attrs inst !! n = Some (normalized v))
      (_FIELDNAMES segment_command) segment_values.
Proof.
  apply (values_round_trip segment_command segment_command_tags).
  - exact segment_command_well_formed.
  - reflexivity.
  - reflexivity.
  - by_evaluation.
  - vm_compute. reflexivity.
Defined.

(** ** [serialize] *)

Lemma dict_set_keys {V} (d : list (string * V)) (k : string) (v : V) :
  (dict_set d k v).*1 = if decide (k ∈ d.*1) then d.*1 else d.*1 ++ [k].
Proof.
  induction d as [|[k' v'] d IH]; [reflexivity|]. cbn [dict_set].
  destruct (String.eqb_spec k' k) as [->|Hne].
  - cbn [fmap list_fmap fst]. rewrite decide_True by apply list_elem_of_here.
    reflexivity.
  - cbn [fmap list_fmap fst] in *. rewrite IH.
    destruct (decide (k ∈ d.*1)) as [Hin|Hin].
    + rewrite decide_True by (apply list_elem_of_further, Hin). reflexivity.
    + rewrite decide_False; [reflexivity|].
      intros [E|E]%elem_of_cons; [congruence|contradiction].
Qed.

Lemma dict_get_set_eq {V} (d : list (string * V)) (k : string) (v : V) :
  dict_get (dict_set d k v) k = Some v.
Proof.
  induction d as [|[k' v'] d IH]; cbn [dict_set dict_get].
  - rewrite String.eqb_refl. reflexivity.
  - destruct (String.eqb_spec k' k) as [->|Hne]; cbn [dict_get].
    + rewrite String.eqb_refl. reflexivity.
    + destruct (String.eqb_spec k' k); [contradiction|exact IH].
Qed.

Lemma dict_get_set_ne {V} (d : list (string * V)) (k k' : string) (v : V) :
  k ≠ k' -> dict_get (dict_set d k v) k' = dict_get d k'.
Proof.
  intros Hne. induction d as [|[k0 v0] d IH]; cbn [dict_set dict_get].
  - destruct (String.eqb_spec k k'); [contradiction|reflexivity].
  - destruct (String.eqb_spec k0 k) as [->|Hne0]; cbn [dict_get].
    + destruct (String.eqb_spec k k'); [contradiction|reflexivity].
    + rewrite IH. reflexivity.
Qed.

Lemma filter_ext_in {A} (P1 P2 : A -> Prop) `{!forall x, Decision (P1 x)}
    `{!forall x, Decision (P2 x)} (l : list A) :
  Forall (fun x => P1 x <-> P2 x) l -> filter P1 l = filter P2 l.
Proof.
  induction 1 as [|x l Hx _ IH]; [reflexivity|]. rewrite !filter_cons, IH.
  destruct (decide (P1 x)), (decide (P2 x)); tauto.
Qed.

(** The loop of [serialize]: the keys that were there stay in their places,
    the new fields follow in their order, and every field has its item. *)
Lemma serialize_fields_spec (items : gmap string (result serial))
    (fields : list string) :
  NoDup fields ->
  (forall f, f ∈ fields -> exists s, items !! f = Some (Ok s)) ->
  forall d, exists d',
    serialize_fields items fields d = Ok d' /\
    d'.*1 = d.*1 ++ filter (fun f => f ∉ d.*1) fields /\
    (forall f s, f ∈ fields -> items !! f = Some (Ok s) -> dict_get d' f = Some s) /\
    (forall k, k ∉ fields -> dict_get d' k = dict_get d k).
Proof.
  induction fields as [|f fields IH]; intros Hnd Hall d.
  - exists d. cbn [serialize_fields]. rewrite filter_nil, app_nil_r.
    split; [reflexivity|]. split; [reflexivity|]. split; [|reflexivity].
    intros f s Hin. apply elem_of_nil in Hin. destruct Hin.
  - apply NoDup_cons in Hnd as [Hnotin Hnd].
    destruct (Hall f (list_elem_of_here _ _)) as (s & Hs).
    cbn [serialize_fields]. rewrite Hs, bind_ok.
    destruct (IH Hnd (fun g Hg => Hall g (list_elem_of_further _ _ _ Hg))
                (dict_set d f s)) as (d' & Hrun & Hkeys & Hval & Hold).
    exists d'. split; [exact Hrun|]. split; [|split].
    + rewrite Hkeys, dict_set_keys, filter_cons.
      destruct (decide (f ∈ d.*1)) as [Hin|Hin].
      * rewrite decide_False by (intros H; exact (H Hin)). reflexivity.
      * rewrite decide_True by exact Hin. rewrite <- app_assoc. cbn [app].
        do 2 f_equal. apply filter_ext_in. apply Forall_forall.
        intros g Hg. rewrite not_elem_of_app, list_elem_of_singleton.
        split; [tauto|]. intros H. split; [exact H|]. intros ->. contradiction.
    + intros g s' [->|Hg]%elem_of_cons Hitem.
      * rewrite (Hold f Hnotin), dict_get_set_eq. congruence.
      * eapply Hval; eassumption.
    + intros k [Hk Hkn]%not_elem_of_cons.
      rewrite (Hold k Hkn). apply dict_get_set_ne. congruence.
Qed.

(** What [serialize] returns for an instance whose fields all have a value
    that serializes. *)
Lemma serialize_spec (self : Struct) :
  NoDup (_fields self) ->
  attrs self !! "serialize"%string = None ->
  attrs self !! "__getattribute__"%string = None ->
  (forall f, f ∈ _fields self ->
     exists v, attrs self !! f = Some v /\ is_ok (serialize_item v) = true) ->
  exists d,
    serialize self = Ok (SDict d) /\
    d.*1 = "type"%string :: filter (fun f => f ≠ "type"%string) (_fields self) /\
    (forall f v, f ∈ _fields self -> attrs self !! f = Some v ->
       exists s, serialize_item v = Ok s /\ dict_get d f = Some s) /\
    ("type"%string ∉ _fields self ->
     dict_get d "type"%string
     = Some (SStr (str_of_string (__name__ (cls self))))).
Proof.
  intros Hnd Hser Hget Hall.
  destruct (serialize_fields_spec (serialize_item <$> attrs self) (_fields self)
              Hnd) with (d := [("type"%string,
                                SStr (str_of_string (__name__ (cls self))))])
    as (d & Hrun & Hkeys & Hval & Hold).
  { intros f Hf. destruct (Hall f Hf) as (v & Hv & Hok).
    rewrite lookup_fmap, Hv. cbn [fmap option_fmap option_map].
    destruct (serialize_item v) as [s|e]; [eauto|discriminate]. }
  exists d. split; [|split; [|split]].
  - unfold serialize. cbn [serialize_item]. rewrite Hser, Hget.
    fold serialize_item. rewrite Hrun. reflexivity.
  - rewrite Hkeys. cbn [fmap list_fmap fst app]. f_equal.
    apply list_filter_iff. intros f.
    rewrite list_elem_of_singleton. reflexivity.
  - intros f v Hf Hv. destruct (Hall f Hf) as (v' & Hv' & Hok).
    assert (v' = v) as -> by congruence.
    destruct (serialize_item v) as [s|e] eqn:Es; [|discriminate].
    exists s. split; [reflexivity|]. apply Hval; [exact Hf|].
    rewrite lookup_fmap, Hv. cbn [fmap option_fmap option_map].
    rewrite Es. reflexivity.
  - intros Hno. rewrite (Hold _ Hno). reflexivity.
Qed.

Lemma decode_int_field_serializes (tag : Z) (data : list byte)
    (bo : byte_order) (v : py_value) :
  decode_int_field tag data bo = Ok v -> is_ok (serialize_item v) = true.
Proof.
  unfold decode_int_field.
  destruct (_ =? type_str).
  { destruct (utf8_decode data); [|discriminate]. intros [= <-]. reflexivity. }
  destruct (_ =? type_bytes); [intros [= <-]; reflexivity|].
  destruct (_ =? type_uint); [intros [= <-]; reflexivity|].
  destruct (_ =? type_sint); [|intros [= <-]; reflexivity].
  intros H. apply bind_inv in H as (x & _ & [= <-]). reflexivity.
Qed.

Lemma foldl_setattr_absent (l : list (string * Z)) (a : Struct) (k : string) :
  k ∉ l.*1 ->
  attrs (foldl (fun self '(n, z) => setattr self n (VInt z)) a l) !! k
  = attrs a !! k.
Proof.
  revert a. induction l as [|[n z] l IH]; intros a Hk; [reflexivity|].
  cbn [fmap list_fmap fst] in Hk. apply not_elem_of_cons in Hk as [Hne Hk].
  cbn [foldl]. rewrite (IH _ Hk). cbn [setattr attrs].
  apply lookup_insert_ne. congruence.
Qed.

(** The attributes of a decoded instance are the defaults of [__init__],
    the fields, [raw] and the bit fields. *)
Lemma decoded_absent (n : nat) (p : struct_class) (raw0 : list byte)
    (bo : byte_order) (inst : Struct) (k : string) :
  create_with_bytes_rec n p raw0 bo = Ok inst ->
  k ∉ (init_attrs p).*1 ++ _FIELDNAMES p ++ bitfield_names p ->
  k ≠ "raw"%string ->
  attrs inst !! k = None.
Proof.
  intros Hrun Hk Hraw. destruct n as [|n]; [discriminate|].
  apply not_elem_of_app in Hk as [Hinit Hk].
  apply not_elem_of_app in Hk as [Hfield Hbit].
  cbn [create_with_bytes_rec] in Hrun.
  apply bind_inv in Hrun as (inst0 & Hnew & Hrun).
  apply bind_inv in Hrun as ([[inst1 inst_raw] off] & Hloop & Hmat).
  pose proof (new_instance_inv _ _ _ Hnew) as (Hc & Hf & _).
  pose proof (decode_fields_same_engine _ _ _ _ _ _ Hloop) as (Hc1 & _).
  cbn in Hc1.
  apply materialize_frame in Hmat as (_ & _ & _ & _ & Ha).
  cbn [setattr cls attrs] in Ha. rewrite Ha by (rewrite <- Hc1, Hc; exact Hbit).
  rewrite lookup_insert_ne by congruence.
  pose proof (decode_fields_frame _ _ _ _ _ _ k Hloop) as Hframe.
  cbn [fst] in Hframe. rewrite Hframe by (rewrite Hf; exact Hfield).
  unfold new_instance in Hnew.
  apply bind_inv in Hnew as (d & _ & [= <-]).
  rewrite foldl_setattr_absent by exact Hinit. reflexivity.
Qed.

(** The value of a field after decoding with any depth of recursion left. *)
Lemma decoded_field_rec (n : nat) (p : struct_class) (raw0 : list byte)
    (bo : byte_order) (inst : Struct) (i : nat) (f : string)
    (sz : field_size struct_class) :
  well_formed p ->
  _FIELDNAMES p !! i = Some f -> _SIZES p !! i = Some sz ->
  create_with_bytes_rec (S n) p raw0 bo = Ok inst ->
  _fields inst = _FIELDNAMES p /\
  exists v, attrs inst !! f = Some v /\
    match sz with
    | SizeInt tag => exists data, decode_int_field tag data bo = Ok v
    | SizeCls ch =>
      exists child data,
        v = VStruct child /\ create_with_bytes_rec n ch data Little = Ok child
    end.
Proof.
  intros Hwf Hf Hsz Hrun. pose proof Hwf as (Hnd & Hlen & _).
  destruct (new_instance_spec p bo Hnd Hlen)
    as (inst0 & Hnew & Hcls & Hfields & Hbo & _ & Hlook).
  cbn [create_with_bytes_rec] in Hrun.
  rewrite Hnew, bind_ok, Hfields in Hrun.
  apply bind_inv in Hrun as ([[inst1 inst_raw] off] & Hloop & Hmat).
  destruct (decode_fields_field _ _ _ _ _ _ Hlook Hnd
              inst0 [] 0 _ i f sz eq_refl Hloop Hf Hsz) as (v & Hattr & Hv).
  cbn [fst] in Hattr. cbn zeta in Hv.
  pose proof (decode_fields_same_engine _ _ _ _ _ _ Hloop)
    as (Hc1 & Hf1 & _).
  cbn in Hc1, Hf1.
  apply materialize_frame in Hmat as (_ & Hf2 & _ & _ & Ha).
  cbn [setattr cls _fields attrs] in *.
  assert (Hin : f ∈ _FIELDNAMES p) by (apply list_elem_of_lookup; eauto).
  split; [congruence|]. exists v. split.
  - rewrite Ha.
    + rewrite lookup_insert_ne; [exact Hattr|].
      intros E. apply (field_not_raw p f Hwf Hin). congruence.
    + rewrite <- Hc1, Hcls. apply field_not_bitfield; assumption.
  - destruct sz as [tag|ch]; [eauto|].
    destruct Hv as (child & -> & Hchild). eauto.
Qed.

Lemma every_class_here (P : struct_class -> bool) (c : struct_class) :
  every_class P c = true -> P c = true.
Proof.
  destruct c. cbn [every_class]. intros H%andb_prop. apply H.
Qed.

Lemma every_class_nested (P : struct_class -> bool) (c ch : struct_class)
    (i : nat) :
  every_class P c = true -> _SIZES c !! i = Some (SizeCls ch) ->
  every_class P ch = true.
Proof.
  destruct c as [nm k names sizes size init]. cbn [every_class _SIZES].
  intros [_ H]%andb_prop Hi. rewrite forallb_forall in H.
  apply (H (SizeCls ch)). apply list_elem_of_In, list_elem_of_lookup. eauto.
Qed.

(** Every field of a decoded instance has a value that serializes, and the
    method [serialize] is not shadowed. *)
Lemma decoded_serializes (n : nat) :
  forall (p : struct_class) (raw0 : list byte) (bo : byte_order) (inst : Struct),
    serializable p = true ->
    create_with_bytes_rec n p raw0 bo = Ok inst ->
    _fields inst = _FIELDNAMES p /\
    attrs inst !! "serialize"%string = None /\
    attrs inst !! "__getattribute__"%string = None /\
    forall f, f ∈ _fields inst ->
      exists v, attrs inst !! f = Some v /\ is_ok (serialize_item v) = true.
Proof.
  induction n as [|n IH]; intros p raw0 bo inst Hp Hrun; [discriminate|].
  pose proof (every_class_here _ _ Hp) as Hkeep.
  apply bool_decide_eq_true in Hkeep as [Hwf Hname].
  apply Forall_cons in Hname as [Hname Hname'].
  apply Forall_cons in Hname' as [Hname' _].
  assert (Hfields : _fields inst = _FIELDNAMES p).
  { destruct (create_with_bytes_rec_inv _ _ _ _ _ Hrun) as (inst1 & Hc & _ & Hm).
    cbn [create_with_bytes_rec] in Hrun.
    apply bind_inv in Hrun as (inst0 & Hnew & Hrun).
    apply bind_inv in Hrun as ([[inst2 inst_raw] off] & Hloop & Hmat).
    apply new_instance_inv in Hnew as (_ & Hf & _).
    apply decode_fields_same_engine in Hloop as (_ & Hf1 & _). cbn in Hf1.
    apply materialize_frame in Hmat as (_ & Hf2 & _).
    cbn [setattr _fields] in Hf2. congruence. }
  split; [exact Hfields|]. split.
  { eapply decoded_absent; [exact Hrun|exact Hname|discriminate]. }
  split.
  { eapply decoded_absent; [exact Hrun|exact Hname'|discriminate]. }
  intros f Hf. rewrite Hfields in Hf.
  apply list_elem_of_lookup in Hf as (i & Hi).
  pose proof Hwf as (Hnd & Hlen & _).
  destruct (lookup_lt_is_Some_2 (_SIZES p) i) as (sz & Hsz).
  { rewrite <- Hlen. eapply lookup_lt_Some, Hi. }
  destruct (decoded_field_rec n p raw0 bo inst i f sz Hwf Hi Hsz Hrun)
    as (_ & v & Hv & Hcase).
  exists v. split; [exact Hv|]. destruct sz as [tag|ch].
  - destruct Hcase as (data & Hdec).
    eapply decode_int_field_serializes, Hdec.
  - destruct Hcase as (child & data & -> & Hchild).
    pose proof (every_class_nested _ _ _ _ Hp Hsz) as Hch.
    destruct (IH ch data Little child Hch Hchild) as (Hf' & Hs' & Hg' & Hall').
    pose proof (every_class_here _ _ Hch) as Hkeep'.
    apply bool_decide_eq_true in Hkeep' as [(Hnd' & _) _].
    destruct (serialize_spec child) as (d & Hd & _);
      [congruence|exact Hs'|exact Hg'|exact Hall'|].
    unfold serialize in Hd. rewrite Hd. reflexivity.
Qed.



(** The dictionary of [symbol_instance]: the entry [type] holds the field,
    not the class name. *)
Example serialize_symbol_instance :
  serialize symbol_instance
  = Ok (SDict [("type", SInt 15); ("str_index", SInt 1); ("sect_index", SInt 1);
               ("desc", SInt 0); ("value", SInt 4096)]%string).
Proof. vm_compute. reflexivity. Qed.

(** X14.  Every instance that [create_with_bytes] returns serializes,
    nested instances included (the classes being well formed, with no
    attribute named as a method that [serialize] calls): the dictionary has the key [type], then
    the fields in their order, each with the serialized value of the
    decoded field, and the class name under [type] unless a field has that
    name. *)
Theorem decoded_instance_serializes (p : struct_class) (raw0 : list byte)
    (bo : byte_order) (inst : Struct) :
  serializable p = true ->
  create_with_bytes p raw0 bo = Ok inst ->
  exists d,
    serialize inst = Ok (SDict d) /\
    d.*1 = "type"%string :: filter (fun f => f ≠ "type"%string) (_FIELDNAMES p) /\
    (forall f, f ∈ _FIELDNAMES p ->
       exists v s, attrs inst !! f = Some v /\ serialize_item v = Ok s /\
         dict_get d f = Some s) /\
    ("type"%string ∉ _FIELDNAMES p ->
     dict_get d "type"%string = Some (SStr (str_of_string (__name__ p)))).
Proof.
  intros Hp Hrun. unfold create_with_bytes in Hrun.
  destruct (decoded_serializes _ _ _ _ _ Hp Hrun) as (Hf & Hs & Hg & Hall).
  pose proof (every_class_here _ _ Hp) as Hkeep.
  apply bool_decide_eq_true in Hkeep as [(Hnd & _) _].
  destruct (create_with_bytes_rec_inv _ _ _ _ _ Hrun) as (inst1 & Hc & _ & Hm).
  apply materialize_frame in Hm as (Hc' & _).
  destruct (serialize_spec inst) as (d & Hd & Hkeys & Hval & Htype);
    [congruence|exact Hs|exact Hg|exact Hall|].
  rewrite Hf, Hc', Hc in *.
  exists d. split; [exact Hd|]. split; [exact Hkeys|]. split; [|exact Htype].
  intros f Hin. destruct (Hall f Hin) as (v & Hv & _).
  destruct (Hval f v Hin Hv) as (s & Hsv & Hget). eauto.
Qed.

Lemma decoded_instance_serializes_witness :
  exists inst d,
    create_with_bytes tagged_header tagged_header_bytes Big = Ok inst /\
    serialize inst = Ok (SDict d) /\
    d.*1 = "type"%string
           :: filter (fun f => f ≠ "type"%string) (_FIELDNAMES tagged_header) /\
    (forall f, f ∈ _FIELDNAMES tagged_header ->
       exists v s, attrs inst !! f = Some v /\ serialize_item v = Ok s /\
         dict_get d f = Some s) /\
    ("type"%string ∉ _FIELDNAMES tagged_header ->
     dict_get d "type"%string
     = Some (SStr (str_of_string (__name__ tagged_header)))).
Proof.
  destruct tagged_header_decodes as [inst Hinst].
  destruct (decoded_instance_serializes tagged_header tagged_header_bytes Big
              inst) as (d & H); [vm_compute; reflexivity|exact Hinst|].
  exists inst, d. split; [exact Hinst|exact H].
Defined.

(** The dictionary of the decoded [tagged_header_bytes]. *)
Example serialize_tagged_header :
  (inst ← create_with_bytes tagged_header tagged_header_bytes Big;
   serialize inst)
  = Ok (SDict
          [("type", SStr (str_of_string "tagged_header")); ("tag", SInt 1);
           ("header",
            SDict [("type", SStr (str_of_string "fat_header"));
                   ("magic", SInt 0xbebafeca); ("nfat_archs", SInt 0x02000000)])
          ]%string).
Proof. vm_compute. reflexivity. Qed.

(** ** The record classes of the module *)

(** A class whose declarations agree: well formed, plain, with fields of
    unsigned integers, bytes and text only, and a [SIZE] that is the sum of
    the widths of the fields. *)
Lemma structs_module_consistent :
  Forall (fun c =>
            well_formed c /\ kind c = PlainStruct /\
            _SIZES c = SizeInt <$> class_tags c /\
            Forall (fun tag => codec_tag tag = true) (class_tags c) /\
            SIZE c = foldr Z.add 0 (Z.land size_mask <$> class_tags c))
    structs_module.
Proof.
  repeat apply Forall_cons_2; try apply Forall_nil_2;
    (split; [by_evaluation|]; split; [reflexivity|]; split; [reflexivity|];
     split; [by_evaluation|vm_compute; reflexivity]).
Qed.

(** X15.  Every record class of the module declares a [SIZE] that is the
    total width of its fields: whatever the class and the byte order, a
    buffer made of one slice of the right width per field (text slices
    valid UTF-8) has [SIZE] bytes, is decoded, and the [raw] of the instance
    is the buffer again, less the NUL bytes of its text slices. *)
Theorem module_record_round_trip (c : struct_class) (datas : list (list byte))
    (bo : byte_order) :
  c ∈ structs_module ->
  Forall2 valid_slot (class_tags c) datas ->
  Z.of_nat (length (concat datas)) = SIZE c /\
  exists inst,
    create_with_bytes c (concat datas) bo = Ok inst /\
    raw inst = Ok (concat (zip_with rebuilt_slice (class_tags c) datas)).
Proof.
  intros Hc Hslots.
  pose proof (proj1 (Forall_forall _ _) structs_module_consistent c Hc)
    as (Hwf & Hplain & Hsizes & Htags & Hsize).
  assert (Hlen : Z.of_nat (length (concat datas)) = SIZE c).
  { rewrite Hsize. apply sum_of_slot_widths, Hslots. }
  split; [exact Hlen|].
  destruct (decode_then_raw c (class_tags c) datas bo Hwf Hsizes Hslots
              (eq_sym Hlen)) as (Hex & Hraw).
  destruct (Hex Hplain) as (inst & Hinst).
  exists inst. split; [exact Hinst|]. apply Hraw, Hinst.
Qed.

Lemma module_record_round_trip_witness :
  Z.of_nat (length (concat uuid_slots)) = SIZE uuid_command /\
  exists inst,
    create_with_bytes uuid_command (concat uuid_slots) Big = Ok inst /\
    raw inst
    = Ok (concat (zip_with rebuilt_slice (class_tags uuid_command) uuid_slots)).
Proof.
  apply (module_record_round_trip uuid_command uuid_slots Big).
  - unfold structs_module.
    repeat (apply list_elem_of_here || apply list_elem_of_further).
  - by_evaluation.
Defined.

(** ** Fresh instances *)

Lemma to_bytes_le_zero (n : nat) : to_bytes_le n 0 = replicate n x00.
Proof.
  induction n as [|n IH]; [reflexivity|]. cbn [to_bytes_le replicate].
  change (0 mod 256) with 0. change (0 / 256) with 0. rewrite IH. reflexivity.
Qed.

Lemma int_to_bytes_zero (size : Z) (bo : byte_order) :
  0 <= size <= ssize_t_max ->
  int_to_bytes 0 size bo = Ok (replicate (Z.to_nat size) x00).
Proof.
  intros Hs. unfold int_to_bytes.
  rewrite ssize_t_fits by (unfold ssize_t_max in *; lia).
  destruct (Z.ltb_spec size 0); [lia|].
  cbn [Z.ltb Z.compare bit_length Z.eqb].
  destruct (Z.ltb_spec (size * 8) 0); [lia|].
  rewrite to_bytes_le_zero. destruct bo; [reflexivity|].
  rewrite reverse_replicate. reflexivity.
Qed.

Lemma foldl_setattr_zero (l : list (string * Z)) (a : Struct) (n : string) :
  Forall (fun nz => nz.2 = 0) l ->
  attrs a !! n = Some (VInt 0) \/ n ∈ l.*1 ->
  attrs (foldl (fun self '(n, z) => setattr self n (VInt z)) a l) !! n
  = Some (VInt 0).
Proof.
  revert a. induction l as [|[n0 z0] l IH]; intros a Hz Hn.
  - destruct Hn as [Hn|Hn]; [exact Hn|]. apply elem_of_nil in Hn. destruct Hn.
  - apply Forall_cons in Hz as [Hz0 Hz]. cbn [snd] in Hz0. subst z0.
    cbn [foldl]. apply IH; [exact Hz|]. cbn [setattr attrs].
    destruct (decide (n0 = n)) as [->|Hne].
    + left. apply lookup_insert_eq.
    + rewrite lookup_insert_ne by exact Hne.
      destruct Hn as [Hn|Hn]; [left; exact Hn|].
      cbn [fmap list_fmap fst] in Hn.
      apply elem_of_cons in Hn as [Hn|Hn]; [congruence|right; exact Hn].
Qed.

Lemma concat_zeros (tags : list Z) :
  Forall (fun tag => 0 <= tag) tags ->
  concat ((fun tag => replicate (Z.to_nat tag) x00) <$> tags)
  = replicate (Z.to_nat (foldr Z.add 0 tags)) x00.
Proof.
  induction 1 as [|tag tags Ht Hts IH]; [reflexivity|].
  cbn [fmap list_fmap concat foldr]. rewrite IH.
  assert (0 <= foldr Z.add 0 tags).
  { clear IH. induction Hts as [|t ts]; cbn [foldr]; lia. }
  rewrite Z2Nat.inj_add, replicate_add by lia. reflexivity.
Qed.

Lemma max_tag_fits (tag : Z) :
  0 <= tag <= max_tag -> 0 <= tag <= ssize_t_max.
Proof. change max_tag with 262143. unfold ssize_t_max. lia. Qed.

Lemma rebuild_zero_fields (self : Struct) (names : list string)
    (tags : list Z) :
  Forall2 (fun f tag => _field_sizes self !! f = Some (SizeInt tag)) names tags ->
  Forall (fun tag => 0 <= tag <= max_tag) tags ->
  (forall f, f ∈ names -> attrs self !! f = Some (VInt 0)) ->
  Forall2 (fun f data => rebuild_field self f = Ok data) names
    ((fun tag => replicate (Z.to_nat tag) x00) <$> tags).
Proof.
  induction 1 as [|f tag names tags Hf _ IH]; intros Htags Hattr;
    [constructor|].
  apply Forall_cons in Htags as [Htag Htags].
  cbn [fmap list_fmap]. constructor.
  - unfold rebuild_field. rewrite Hf.
    rewrite (Hattr f) by apply list_elem_of_here.
    apply int_to_bytes_zero, max_tag_fits, Htag.
  - apply IH; [exact Htags|]. intros g Hg.
    apply Hattr, list_elem_of_further, Hg.
Qed.

(** X16.  For a well-formed class whose entries of [_SIZES] are tags, the
    [raw] of a freshly constructed instance, whose fields all hold the
    default 0 of [__init__], is made of zero bytes, as many as the sum of
    the entries of [_SIZES]: each entry counts whole, its type bits
    included, so that a text or bytes field of 16 bytes gives many more
    than 16. *)
Theorem fresh_instance_raw (c : struct_class) (tags : list Z)
    (bo : byte_order) :
  well_formed c ->
  _SIZES c = SizeInt <$> tags ->
  Forall (fun tag => 0 <= tag <= max_tag) tags ->
  Forall (fun f => f ∈ (init_attrs c).*1) (_FIELDNAMES c) ->
  Forall (fun nz => nz.2 = 0) (init_attrs c) ->
  exists inst,
    new_instance c bo = Ok inst /\
    raw inst = Ok (replicate (Z.to_nat (foldr Z.add 0 tags)) x00).
Proof.
  intros Hwf Hsizes Htags Hinit Hzero. pose proof Hwf as (Hnd & Hlen & _).
  destruct (new_instance_spec c bo Hnd Hlen)
    as (inst & Hnew & Hcls & Hfields & Hbo & _ & Hlook).
  exists inst. split; [exact Hnew|].
  unfold raw, _rebuild_raw.
  rewrite <- concat_zeros
    by (eapply Forall_impl; [exact Htags|]; intros tag Htag; apply Htag).
  rewrite <- (app_nil_l (concat _)). apply rebuild_fields_spec.
  rewrite Hfields. rewrite Hsizes in Hlook. apply Forall2_fmap_r in Hlook.
  apply rebuild_zero_fields; [exact Hlook|exact Htags|].
  intros f Hf. unfold new_instance in Hnew.
  apply bind_inv in Hnew as (d & _ & [= <-]).
  apply foldl_setattr_zero; [exact Hzero|]. right.
  rewrite Forall_forall in Hinit. apply Hinit, Hf.
Qed.

Lemma fresh_instance_raw_witness :
  exists inst,
    new_instance segment_command Little = Ok inst /\
    raw inst
    = Ok (replicate (Z.to_nat (foldr Z.add 0 segment_command_tags)) x00).
Proof.
  apply (fresh_instance_raw segment_command segment_command_tags Little).
  - exact segment_command_well_formed.
  - reflexivity.
  - by_evaluation.
  - by_evaluation.
  - by_evaluation.
Defined.

(** The entries of [_SIZES] of a [segment_command], whose [SIZE] is 56, sum
    to 131128. *)
Example segment_command_tags_sum :
  foldr Z.add 0 segment_command_tags = 131128 /\ SIZE segment_command = 56.
Proof. split; reflexivity. Qed.

Lemma rebuild_fields_first_error (self : Struct) (names : list string)
    (n : string) (e : exception) :
  Forall (fun f => is_ok (rebuild_field self f) = true \/
                   rebuild_field self f = Err e) names ->
  n ∈ names -> rebuild_field self n = Err e ->
  forall raw0, rebuild_fields self names raw0 = Err e.
Proof.
  intros Hall Hin Hn. induction Hall as [|f names Hf _ IH]; intros raw0.
  - apply elem_of_nil in Hin. destruct Hin.
  - cbn [rebuild_fields]. destruct Hf as [Hf|Hf]; [|rewrite Hf; reflexivity].
    destruct (rebuild_field self f) as [data|e0] eqn:Ef; [|discriminate].
    rewrite bind_ok. apply IH.
    apply elem_of_cons in Hin as [->|Hin]; [congruence|exact Hin].
Qed.

(** X17.  When the [__init__] of a well-formed class, whose entries of
    [_SIZES] are tags, gives some field no default, a freshly constructed
    instance has no value for it and reading its [raw] raises
    [AttributeError], the other defaults being 0.  (No field has the name
    of an attribute of the class, which the lookup would find instead.) *)
Theorem missing_default_blocks_raw (c : struct_class) (tags : list Z)
    (bo : byte_order) (f : string) :
  well_formed c ->
  _SIZES c = SizeInt <$> tags ->
  Forall (fun tag => 0 <= tag <= max_tag) tags ->
  Forall (fun nz => nz.2 = 0) (init_attrs c) ->
  Forall (fun n => class_attribute n = false) (_FIELDNAMES c) ->
  f ∈ _FIELDNAMES c ->
  f ∉ (init_attrs c).*1 ->
  exists inst,
    new_instance c bo = Ok inst /\
    rebuild_field inst f = Err AttributeError /\
    raw inst = Err AttributeError.
Proof.
  intros Hwf Hsizes Htags Hzero _ Hf Hinit. pose proof Hwf as (Hnd & Hlen & _).
  destruct (new_instance_spec c bo Hnd Hlen)
    as (inst & Hnew & Hcls & Hfields & Hbo & _ & Hlook).
  exists inst. split; [exact Hnew|].
  rewrite Hsizes in Hlook. apply Forall2_fmap_r in Hlook.
  unfold new_instance in Hnew. apply bind_inv in Hnew as (d & _ & Hinst).
  injection Hinst as Hinst.
  assert (Hcase : forall g tag,
            _field_sizes inst !! g = Some (SizeInt tag) -> 0 <= tag <= max_tag ->
            if decide (g ∈ (init_attrs c).*1)
            then is_ok (rebuild_field inst g) = true
            else rebuild_field inst g = Err AttributeError).
  { intros g tag Hg Htag. unfold rebuild_field. rewrite Hg, <- Hinst.
    destruct (decide (g ∈ (init_attrs c).*1)) as [Hin|Hout].
    - rewrite foldl_setattr_zero by (try right; assumption).
      rewrite int_to_bytes_zero by (apply max_tag_fits, Htag). reflexivity.
    - rewrite foldl_setattr_absent by exact Hout. reflexivity. }
  assert (Hfield : rebuild_field inst f = Err AttributeError).
  { pose proof Hf as Hi. apply list_elem_of_lookup in Hi as (i & Hi).
    destruct (Forall2_lookup_l _ _ _ _ _ Hlook Hi) as (tag & Htag & Hsz).
    rewrite Forall_forall in Htags.
    pose proof (Hcase f tag Hsz
                  (Htags tag (proj2 (list_elem_of_lookup _ _) (ex_intro _ i Htag))))
      as H.
    rewrite decide_False in H by exact Hinit. exact H. }
  split; [exact Hfield|].
  unfold raw, _rebuild_raw. rewrite Hfields.
  apply (rebuild_fields_first_error inst _ f); [|exact Hf|exact Hfield].
  clear Hf Hfield Hfields Hnd Hlen Hsizes Hinst Hwf.
  induction Hlook as [|g tag names tags' Hg _ IH]; [constructor|].
  apply Forall_cons in Htags as [Htag Htags]. constructor; [|apply IH, Htags].
  pose proof (Hcase g tag Hg Htag) as H.
  destruct (decide (g ∈ (init_attrs c).*1)); [left|right]; exact H.
Qed.

Lemma missing_default_blocks_raw_witness :
  exists inst,
    new_instance dyld_info_command Little = Ok inst /\
    rebuild_field inst "cmdsize" = Err AttributeError /\
    raw inst = Err AttributeError.
Proof.
  apply (missing_default_blocks_raw dyld_info_command
           (class_tags dyld_info_command) Little "cmdsize").
  - by_evaluation.
  - reflexivity.
  - by_evaluation.
  - by_evaluation.
  - by_evaluation.
  - by_evaluation.
  - by_evaluation.
Defined.

(** ** What [create_with_values] accepts *)

Lemma int_to_bytes_ok_inv (v size : Z) (bo : byte_order) (data : list byte) :
  int_to_bytes v size bo = Ok data -> 0 <= size /\ 0 <= v < 256 ^ size.
Proof.
  unfold int_to_bytes. destruct (_ || _); [discriminate|].
  destruct (Z.ltb_spec size 0); [discriminate|].
  destruct (Z.ltb_spec v 0); [discriminate|].
  rewrite overflow_check by lia.
  destruct (Z.leb_spec (256 ^ size) v); [discriminate|]. lia.
Qed.

Lemma rebuild_fields_ok_inv (self : Struct) (names : list string)
    (raw0 r : list byte) :
  rebuild_fields self names raw0 = Ok r ->
  forall n, n ∈ names -> is_ok (rebuild_field self n) = true.
Proof.
  revert raw0. induction names as [|f names IH]; intros raw0 H n Hn.
  - apply elem_of_nil in Hn. destruct Hn.
  - cbn [rebuild_fields] in H. apply bind_inv in H as (data & Hf & H).
    apply elem_of_cons in Hn as [->|Hn]; [rewrite Hf; reflexivity|].
    eapply IH; eassumption.
Qed.

Lemma rebuild_fields_ext (a b : Struct) (names : list string) (raw0 : list byte) :
  _field_sizes a = _field_sizes b -> byte_order_of a = byte_order_of b ->
  (forall n, n ∈ names -> attrs a !! n = attrs b !! n) ->
  rebuild_fields a names raw0 = rebuild_fields b names raw0.
Proof.
  intros Hs Hb. revert raw0. induction names as [|f names IH]; intros raw0 Ha;
    [reflexivity|].
  cbn [rebuild_fields].
  assert (rebuild_field a f = rebuild_field b f) as ->.
  { unfold rebuild_field. rewrite Hs, Hb, (Ha f) by apply list_elem_of_here.
    reflexivity. }
  destruct (rebuild_field b f); [|reflexivity]. rewrite !bind_ok.
  apply IH. intros n Hn. apply Ha, list_elem_of_further, Hn.
Qed.

(** X18.  [create_with_values] builds the [raw] once before it returns, so
    for a well-formed class it accepts only values that can be encoded: the
    instance it returns has
    a [raw], every integer value lies in [0, 256^size) for the entry [size]
    of [_SIZES] of its field, every text has a UTF-8 encoding, and no value
    is [None] or a nested instance. *)
Theorem create_with_values_checks (c : struct_class) (values : list py_value)
    (bo : byte_order) (inst : Struct) :
  well_formed c ->
  create_with_values c values bo = Ok inst ->
  (exists r, raw inst = Ok r) /\
  forall k f v, _FIELDNAMES c !! k = Some f -> values !! k = Some v ->
    match v with
    | VInt n =>
      exists size, _SIZES c !! k = Some (SizeInt size) /\ 0 <= n < 256 ^ size
    | VBytes _ => True
    | VStr s => is_Some (utf8_encode s)
    | _ => False
    end.
Proof.
  intros Hwf H. pose proof Hwf as (Hnd & Hlen & _).
  destruct (new_instance_spec c bo Hnd Hlen)
    as (inst0 & Hnew & Hcls & Hfields & Hbo & _ & Hlook).
  unfold create_with_values in H. rewrite Hnew, bind_ok, Hfields in H.
  apply bind_inv in H as (inst1 & Hset & H).
  apply bind_inv in H as (r & Hraw & Hmat).
  pose proof (set_values_same_engine _ _ _ _ _ Hset) as (Hc1 & Hf1 & Hs1 & Hb1 & _).
  unfold _rebuild_raw in Hraw. rewrite <- Hf1, Hfields in Hraw.
  pose proof (materialize_frame _ _ Hmat) as (Hc2 & Hf2 & Hs2 & Hb2 & Ha).
  split.
  - exists r. unfold raw, _rebuild_raw. rewrite Hf2, <- Hf1, Hfields, <- Hraw.
    apply rebuild_fields_ext; [exact Hs2|exact Hb2|].
    intros n Hn. apply Ha. rewrite <- Hc1, Hcls.
    apply field_not_bitfield; assumption.
  - intros k f v Hk Hv.
    destruct (set_values_lookup _ _ _ _ _ k f Hnd Hset Hk) as (v' & Hv' & Hat).
    cbn [Nat.add] in Hv'. assert (v' = v) as -> by congruence.
    assert (Hin : f ∈ _FIELDNAMES c) by (apply list_elem_of_lookup; eauto).
    pose proof (rebuild_fields_ok_inv _ _ _ _ Hraw f Hin) as Hok.
    destruct (Forall2_lookup_l _ _ _ _ _ Hlook Hk) as (sz & Hsz & Hd).
    unfold rebuild_field in Hok. rewrite <- Hs1, Hd, Hat in Hok.
    destruct v as [|n|s|b|child]; try discriminate; [| |exact I].
    + destruct sz as [size|ch]; [|discriminate].
      destruct (int_to_bytes n size (byte_order_of inst1)) as [data|e] eqn:E;
        [|discriminate].
      apply int_to_bytes_ok_inv in E as [_ E]. eauto.
    + destruct (utf8_encode s); [eauto|discriminate].
Qed.

Lemma create_with_values_checks_witness :
  (exists r, raw fat_header_instance = Ok r) /\
  forall k f v, _FIELDNAMES fat_header !! k = Some f ->
    [VInt 0xcafebabe; VInt 2] !! k = Some v ->
    match v with
    | VInt n =>
      exists size,
        _SIZES fat_header !! k = Some (SizeInt size) /\ 0 <= n < 256 ^ size
    | VBytes _ => True
    | VStr s => is_Some (utf8_encode s)
    | _ => False
    end.
Proof.
  apply (create_with_values_checks fat_header [VInt 0xcafebabe; VInt 2] Big).
  - by_evaluation.
  - exact fat_header_of_values.
Defined.

(** ** Truncated buffers, little-endian *)

Lemma from_bytes_le_zeros (k : nat) : from_bytes_le (replicate k x00) = 0.
Proof.
  induction k as [|k IH]; [reflexivity|].
  cbn [replicate from_bytes_le]. rewrite IH. reflexivity.
Qed.

Lemma from_bytes_le_app_zeros (d : list byte) (k : nat) :
  from_bytes_le (d ++ replicate k x00) = from_bytes_le d.
Proof.
  induction d as [|b d IH]; [apply from_bytes_le_zeros|].
  cbn [app from_bytes_le]. rewrite IH. reflexivity.
Qed.

(** A slice between non-negative bounds, without the clamping. *)
Lemma py_slice_nonneg {A} (l : list A) (a b : Z) :
  0 <= a -> 0 <= b ->
  py_slice l a b = take (Z.to_nat (b - a)) (drop (Z.to_nat a) l).
Proof.
  intros Ha Hb. unfold py_slice, py_clamp.
  destruct (Z.ltb_spec a 0); [lia|]. destruct (Z.ltb_spec b 0); [lia|].
  destruct (Z.le_gt_cases (Z.of_nat (length l)) a) as [Hout|Hin].
  - rewrite !drop_ge by lia. rewrite !take_nil. reflexivity.
  - rewrite (Z.min_l a) by lia.
    destruct (Z.le_gt_cases b (Z.of_nat (length l))) as [Hb'|Hb'].
    + rewrite (Z.min_l b) by lia. reflexivity.
    + rewrite (Z.min_r b) by lia.
      rewrite !take_ge by (rewrite length_drop; lia). reflexivity.
Qed.

(** A slice of a buffer followed by zero bytes is the slice of the buffer,
    followed by zero bytes. *)
Lemma py_slice_padded (B : list byte) (n : nat) (a b : Z) :
  0 <= a -> 0 <= b ->
  exists k, py_slice (B ++ replicate n x00) a b
            = py_slice B a b ++ replicate k x00.
Proof.
  intros Ha Hb. rewrite !py_slice_nonneg by assumption.
  rewrite drop_app, take_app, drop_replicate, take_replicate. eauto.
Qed.

Lemma int_tag_total (tag : Z) : is_int_tag tag = true -> total_tag tag = true.
Proof.
  unfold is_int_tag, total_tag, is_str_tag.
  destruct (Z.eqb_spec (Z.land type_mask tag) type_uint) as [->|_];
    [reflexivity|].
  destruct (Z.eqb_spec (Z.land type_mask tag) type_sint) as [->|_];
    [|discriminate].
  cbn [orb andb]. intros ->. reflexivity.
Qed.

Lemma decode_int_field_same_int (tag : Z) (d d' : list byte) (bo : byte_order) :
  is_int_tag tag = true ->
  int_from_bytes d bo = int_from_bytes d' bo ->
  decode_int_field tag d bo = decode_int_field tag d' bo.
Proof.
  unfold is_int_tag, decode_int_field. intros Ht Hd.
  destruct (Z.eqb_spec (Z.land type_mask tag) type_uint) as [->|_].
  - cbn. rewrite Hd. reflexivity.
  - destruct (Z.eqb_spec (Z.land type_mask tag) type_sint) as [->|_];
      [|discriminate].
    cbn. rewrite Hd. reflexivity.
Qed.

Lemma field_offset_nonneg (tags : list Z) (i : nat) :
  0 <= field_offset (SizeInt <$> tags) i.
Proof.
  unfold field_offset. revert i. induction tags as [|tag tags IH]; intros i.
  - destruct i; cbn; lia.
  - destruct i as [|i]; [cbn; lia|].
    cbn [fmap list_fmap take foldr field_width]. specialize (IH i).
    assert (0 <= Z.land size_mask tag) by (apply Z.land_nonneg; left; done).
    cbn [fmap list_fmap] in IH. lia.
Qed.

(** X19.  A truncated buffer is read as if it were padded with zero bytes,
    in little-endian order: for a well-formed class of integer fields,
    decoding a buffer
    shorter than [SIZE] gives every field the value that it has after
    decoding the buffer filled up to [SIZE] bytes with zeros. *)
Theorem truncated_buffer_reads_as_zero_padded (c : struct_class)
    (tags : list Z) (B : list byte) :
  well_formed c -> kind c = PlainStruct ->
  _SIZES c = SizeInt <$> tags ->
  Forall (fun tag => is_int_tag tag = true) tags ->
  Z.of_nat (length B) <= SIZE c ->
  exists inst inst',
    create_with_bytes c B Little = Ok inst /\
    create_with_bytes c
      (B ++ replicate (Z.to_nat (SIZE c) - length B) x00) Little = Ok inst' /\
    forall f, f ∈ _FIELDNAMES c -> attrs inst !! f = attrs inst' !! f.
Proof.
  intros Hwf Hplain Hsizes Htags Hlen.
  assert (Htot : Forall (fun tag => total_tag tag = true) tags).
  { eapply Forall_impl; [exact Htags|]. intros tag. apply int_tag_total. }
  set (P := B ++ replicate (Z.to_nat (SIZE c) - length B) x00).
  destruct (total_class_decodes c tags B Little Hwf Hplain Hsizes Htot)
    as (inst & Hinst).
  destruct (total_class_decodes c tags P Little Hwf Hplain Hsizes Htot)
    as (inst' & Hinst').
  exists inst, inst'. split; [exact Hinst|]. split; [exact Hinst'|].
  intros f Hf. apply list_elem_of_lookup in Hf as (i & Hi).
  pose proof Hwf as (_ & Hl & _).
  destruct (lookup_lt_is_Some_2 tags i) as (tag & Htag).
  { pose proof (lookup_lt_Some _ _ _ Hi) as Hlt.
    rewrite Hl, Hsizes, length_fmap in Hlt. exact Hlt. }
  assert (Hsz : _SIZES c !! i = Some (SizeInt tag)).
  { rewrite Hsizes, list_lookup_fmap, Htag. reflexivity. }
  destruct (decoded_field c B Little inst i f _ Hwf Hi Hsz Hinst)
    as (_ & _ & _ & v & Hv & Hdec).
  destruct (decoded_field c P Little inst' i f _ Hwf Hi Hsz Hinst')
    as (_ & _ & _ & v' & Hv' & Hdec').
  rewrite Hv, Hv'. f_equal.
  assert (Hs : 0 <= SIZE c) by lia.
  rewrite py_slice_prefix, take_ge in Hdec by lia.
  rewrite py_slice_prefix, take_ge in Hdec'
    by (try (unfold P; rewrite length_app, length_replicate); lia).
  rewrite Hsizes in Hdec, Hdec'.
  pose proof (field_offset_nonneg tags i) as Hoff.
  assert (Hw : 0 <= Z.land size_mask tag) by (apply Z.land_nonneg; left; done).
  destruct (py_slice_padded B (Z.to_nat (SIZE c) - length B)
              (field_offset (SizeInt <$> tags) i)
              (field_offset (SizeInt <$> tags) i + Z.land size_mask tag))
    as (k & Hk); [lia|lia|].
  fold P in Hk. rewrite Hk in Hdec'.
  rewrite Forall_forall in Htags.
  assert (Hint : is_int_tag tag = true).
  { apply Htags, list_elem_of_lookup. eauto. }
  rewrite (decode_int_field_same_int tag _
             (py_slice B (field_offset (SizeInt <$> tags) i)
                (field_offset (SizeInt <$> tags) i + Z.land size_mask tag))
             Little Hint) in Hdec'.
  - congruence.
  - cbn [int_from_bytes]. apply from_bytes_le_app_zeros.
Qed.

Lemma truncated_buffer_reads_as_zero_padded_witness :
  exists inst inst',
    create_with_bytes fat_header truncated_fat_header Little = Ok inst /\
    create_with_bytes fat_header
      (truncated_fat_header
       ++ replicate (Z.to_nat (SIZE fat_header) - length truncated_fat_header)
            x00) Little = Ok inst' /\
    forall f, f ∈ _FIELDNAMES fat_header -> attrs inst !! f = attrs inst' !! f.
Proof.
  apply (truncated_buffer_reads_as_zero_padded fat_header
           [uint32_t; uint32_t] truncated_fat_header).
  - by_evaluation.
  - reflexivity.
  - reflexivity.
  - by_evaluation.
  - by_evaluation.
Defined.

(** In big-endian order the five bytes of [truncated_fat_header] do not read
    as the padded buffer does: the last field is 5, not [0x05000000]. *)
Example truncated_big_endian_is_not_padded :
  field_of (create_with_bytes fat_header truncated_fat_header Big) "nfat_archs"
  = Some (VInt 5) /\
  field_of (create_with_bytes fat_header
              (truncated_fat_header ++ [x00; x00; x00]) Big) "nfat_archs"
  = Some (VInt 0x05000000).
Proof. split; vm_compute; reflexivity. Qed.

(** ** Attributes that [raw] does not read *)

(** X20.  [raw] is rebuilt from the fields alone: on an instance of a
    well-formed class, assigning to [raw] itself, or to a sub-field of a
    bit field, never changes what [raw] returns.  The
    sub-fields of a bit field are copies of the bits of the backing value,
    not views of it. *)
Theorem raw_ignores_other_attributes (self : Struct) (n : string)
    (v : py_value) :
  well_formed (cls self) ->
  _fields self = _FIELDNAMES (cls self) ->
  n = "raw"%string \/ n ∈ bitfield_names (cls self) ->
  raw (setattr self n v) = raw self.
Proof.
  intros Hwf Hfields Hn.
  assert (Hnot : n ∉ _fields self).
  { rewrite Hfields. intros Hin. destruct Hn as [->|Hn].
    - exact (field_not_raw _ _ Hwf Hin eq_refl).
    - exact (field_not_bitfield _ _ Hwf Hin Hn). }
  unfold raw, _rebuild_raw. cbn [setattr _fields].
  apply rebuild_fields_ext; [reflexivity|reflexivity|].
  intros f Hf. cbn [setattr attrs]. apply lookup_insert_ne.
  intros ->. exact (Hnot Hf).
Qed.

Lemma raw_ignores_other_attributes_witness :
  raw (setattr (bits_with_value 5) "low" (VInt 3)) = raw (bits_with_value 5).
Proof.
  apply (raw_ignores_other_attributes (bits_with_value 5) "low" (VInt 3)).
  - by_evaluation.
  - reflexivity.
  - right. by_evaluation.
Defined.

(** ** Decoding a bit field *)

Lemma py_slice_prefix_idem {A} (l : list A) (w : Z) :
  0 <= w -> py_slice (py_slice l 0 w) 0 (0 + w) = py_slice l 0 w.
Proof.
  intros Hw. rewrite Z.add_0_l, !py_slice_prefix by exact Hw.
  rewrite take_take, Nat.min_id. reflexivity.
Qed.

(** X21.  Decoding a bit field from bytes: for a well-formed
    [BitFieldStruct] subclass over one unsigned field [value] of [SIZE] bytes, whose widths add up to
    [SIZE * 8] bits, [create_with_bytes] succeeds on every buffer, [value]
    is the integer read from the first [SIZE] bytes in the byte order given,
    and sub-field [k] holds the bits of [value] from the sum of the widths
    before it, as many as its width. *)
Theorem bitfield_decode (c : struct_class) (names : list string)
    (sizes : list Z) (w : Z) (raw0 : list byte) (bo : byte_order) :
  well_formed c ->
  kind c = BitFieldStruct names sizes ->
  _FIELDNAMES c = ["value"%string] -> _SIZES c = [SizeInt w] ->
  is_uint_tag w = true -> SIZE c = w ->
  NoDup names -> (length names <= length sizes)%nat ->
  Forall (fun b => 0 < b) sizes ->
  foldr Z.add 0 sizes = w * 8 ->
  let v := int_from_bytes (py_slice raw0 0 w) bo in
  exists inst,
    create_with_bytes c raw0 bo = Ok inst /\
    attrs inst !! "value"%string = Some (VInt v) /\
    forall k name b, names !! k = Some name -> sizes !! k = Some b ->
      attrs inst !! name
      = Some (VInt (Z.land (Z.shiftr v (bit_offset sizes k))
                      (Z.shiftl 1 b - 1))).
Proof.
  intros Hwf Hkind Hnames Hsizes Hw Hsize Hnd Hlen Hpos Hsum v.
  pose proof Hwf as (Hndf & Hlenf & _ & Hbf).
  destruct (new_instance_spec c bo Hndf Hlenf)
    as (inst0 & Hnew & Hcls & Hfields & Hbo & _ & Hlook).
  rewrite Hnames, Hsizes in Hlook.
  apply Forall2_cons_1 in Hlook as [Hvalue _].
  assert (Hwidth : Z.land size_mask w = w).
  { unfold is_uint_tag in Hw. apply Z.eqb_eq, Hw. }
  assert (Hw0 : 0 <= w).
  { rewrite <- Hwidth. apply Z.land_nonneg. left. done. }
  assert (Htype : Z.land type_mask w = type_uint).
  { apply uint_tag_type, Hw. }
  unfold create_with_bytes. rewrite (flat_class_depth c [w] Hsizes).
  cbn [create_with_bytes_rec]. rewrite Hnew, bind_ok, Hfields, Hnames, Hsize.
  cbn [decode_fields decode_field]. rewrite Hvalue, Hwidth.
  rewrite py_slice_prefix_idem by exact Hw0.
  unfold decode_int_field. rewrite Htype. cbn [Z.eqb type_uint type_str type_bytes].
  rewrite !bind_ok. fold v.
  unfold materialize, pre_init. cbn [setattr cls]. rewrite Hcls, Hkind, Hsize, Hsum.
  rewrite Z.eqb_refl. cbn [negb].
  cbn [setattr attrs].
  rewrite lookup_insert_ne by discriminate. rewrite lookup_insert_eq.
  match goal with |- context [bitfield_loop ?s _ _ _ _ _] => set (self := s) end.
  assert (Hfit : Forall (fun b => b <= ssize_t_max) sizes).
  { apply (widths_fit sizes w Hpos Hsum).
    pose proof (size_mask_bound w) as Hb. rewrite Hwidth in Hb. apply Hb. }
  destruct (bitfield_loop_spec sizes v names Hpos Hfit self 0 Hnd ltac:(lia))
    as (self' & Hloop & Hsub).
  change (bit_offset sizes 0) with 0 in Hloop. rewrite Hloop, bind_ok.
  eexists. split; [reflexivity|]. cbn [post_init set_initialized attrs]. split.
  - destruct (bitfield_loop_frame _ _ _ _ _ _ _ Hloop) as (_ & Hfr).
    rewrite Hfr.
    + subst self. cbn [setattr attrs].
      rewrite lookup_insert_ne by discriminate. apply lookup_insert_eq.
    + intros Hin. unfold bitfield_names in Hbf. rewrite Hkind in Hbf.
      rewrite Forall_forall in Hbf. apply (Hbf _ Hin). rewrite Hnames.
      apply list_elem_of_here.
  - intros k name b Hk Hb. apply (Hsub k name b Hk Hb).
Qed.

Lemma bitfield_decode_witness :
  let v := int_from_bytes (py_slice [x05; x00; x00; x00] 0 uint32_t) Little in
  exists inst,
    create_with_bytes bits_2_2_28 [x05; x00; x00; x00] Little = Ok inst /\
    attrs inst !! "value"%string = Some (VInt v) /\
    forall k name b,
      ["low"; "mid"; "high"]%string !! k = Some name ->
      [2; 2; 28] !! k = Some b ->
      attrs inst !! name
      = Some (VInt (Z.land (Z.shiftr v (bit_offset [2; 2; 28] k))
                      (Z.shiftl 1 b - 1))).
Proof.
  apply (bitfield_decode bits_2_2_28 ["low"; "mid"; "high"]%string [2; 2; 28]
           uint32_t [x05; x00; x00; x00] Little).
  - by_evaluation.
  - reflexivity.
  - reflexivity.
  - reflexivity.
  - reflexivity.
  - reflexivity.
  - by_evaluation.
  - cbn. lia.
  - by_evaluation.
  - reflexivity.
Defined.
